(** * Model dissection engine: container decoding, probing, merging, blueprint

    A shallow embedding of [model_dissection_engine.py].

    Conventions of the embedding:
    - a binary file object opened with [open(path, 'rb')] is a byte list with
      a cursor; every method of the file object is a function on that state;
    - Python exceptions are explicit: a computation either returns a value or
      raises, and in both cases leaves a file state behind;
    - Python [dict]s are association lists in insertion order, updated in
      place when the key is already present;
    - Python [float]s are modelled by exact rationals ([Q]) wherever the code
      computes with them (scores, strengths, weights); floats that are only
      decoded from the container and stored are kept as their IEEE bit
      patterns;
    - a [str] is held by its UTF-8 bytes, one per character of a [string]:
      [len] counts code points, [strip] removes the white space of
      [str.isspace], searching for an ASCII word is searching the bytes, and
      case folding folds the letters A to Z (the section on [str] methods
      says where this is [str.lower]). *)

From Stdlib Require Import List ZArith QArith Qminmax Qabs String Ascii Bool Lia.
From Stdlib.Strings Require Import Byte.
From Stdlib Require Import DecimalString.
From Stdlib Require DecimalNat.
Import ListNotations.

Open Scope Z_scope.

(** ** Python exceptions and outcomes *)

Inductive exn : Type :=
| StructError          (* struct.error: buffer size mismatch in unpack *)
| UnicodeDecodeError   (* bytes.decode('utf-8') on ill-formed input *)
| OverflowError        (* read(n) with n beyond the ssize_t range *)
| ValueError           (* seek(n) beyond the off_t range, max() of nothing *)
| IndexError           (* list index out of range *)
| LoadError.           (* the inference library refused the file *)

(** ** Dictionaries in insertion order *)

Module Dict.
Section WithValues.
Context {V : Type}.

Definition t := list (string * V).

Fixpoint get (k : string) (d : t) : option V :=
  match d with
  | [] => None
  | (k', v) :: d' => if String.eqb k k' then Some v else get k d'
  end.

(** [d[k] = v]: replaces the value where [k] already is, appends otherwise. *)
Fixpoint set (k : string) (v : V) (d : t) : t :=
  match d with
  | [] => [(k, v)]
  | (k', v') :: d' =>
      if String.eqb k k' then (k', v) :: d' else (k', v') :: set k v d'
  end.

Definition keys (d : t) : list string := map fst d.
Definition values (d : t) : list V := map snd d.
Definition mem (k : string) (d : t) : bool :=
  match get k d with Some _ => true | None => false end.
End WithValues.
Arguments t : clear implicits.
End Dict.

(** ** The file object *)

Record file : Type := mkFile { data : list byte; pos : Z }.

Inductive outcome (A : Type) : Type :=
| Return (a : A) (f : file)
| Raise (e : exn) (f : file).
Arguments Return {A} a f.
Arguments Raise {A} e f.

Definition io (A : Type) : Type := file -> outcome A.

Definition ret {A} (a : A) : io A := fun f => Return a f.
Definition raise {A} (e : exn) : io A := fun f => Raise e f.
Definition bind {A B} (c : io A) (k : A -> io B) : io B :=
  fun f => match c f with
           | Return a f' => k a f'
           | Raise e f' => Raise e f'
           end.

Notation "x <- c ;; k" := (bind c (fun x => k))
  (at level 61, c at next level, right associativity).

Definition ssize_max : Z := 2 ^ 63 - 1.

(** Bytes left between the cursor and the end of the file. *)
Definition remaining (f : file) : list byte :=
  skipn (Z.to_nat (pos f)) (data f).

(** [f.read(n)]: at most [n] bytes, fewer when the file ends first; the
    cursor moves by what was returned.  A size that does not fit [ssize_t]
    is refused.  Sizes are never negative here (they come from unsigned
    fields), and allocation failure for large sizes is not modelled. *)
Definition read (n : Z) : io (list byte) :=
  fun f =>
    if ssize_max <? n then Raise OverflowError f
    else
      let got := firstn (Z.to_nat n) (remaining f) in
      Return got (mkFile (data f) (pos f + Z.of_nat (List.length got))).

(** [f.seek(n)]: absolute positioning, also past the end of the file; a
    negative offset, or one that does not fit [off_t], is refused. *)
Definition seek (n : Z) : io unit :=
  fun f =>
    if (n <? 0) || (ssize_max <? n) then Raise ValueError f
    else Return tt (mkFile (data f) n).

(** ** [struct.unpack] *)

Definition byte_val (b : byte) : Z := Z.of_N (Byte.to_N b).

Fixpoint le_uint (bs : list byte) : Z :=
  match bs with
  | [] => 0
  | b :: bs' => Z.lor (byte_val b) (Z.shiftl (le_uint bs') 8)
  end.

(** Two's complement reading of a [w]-bit pattern. *)
Definition to_signed (w : Z) (v : Z) : Z :=
  if v <? 2 ^ (w - 1) then v else v - 2 ^ w.

(** A little-endian unsigned field of [n] bytes: the buffer must have
    exactly [n] bytes. *)
Definition unpack_uint (n : nat) (bs : list byte) : io Z :=
  if Nat.eqb (List.length bs) n then ret (le_uint bs) else raise StructError.

Definition unpack_B := unpack_uint 1.
Definition unpack_H := unpack_uint 2.
Definition unpack_I := unpack_uint 4.
Definition unpack_Q := unpack_uint 8.
Definition unpack_b (bs : list byte) : io Z :=
  v <- unpack_uint 1 bs ;; ret (to_signed 8 v).
Definition unpack_h (bs : list byte) : io Z :=
  v <- unpack_uint 2 bs ;; ret (to_signed 16 v).
Definition unpack_i (bs : list byte) : io Z :=
  v <- unpack_uint 4 bs ;; ret (to_signed 32 v).

(** Floats taken from the container are kept as their IEEE encodings. *)
Inductive ieee : Type :=
| Binary32 (bits : Z)
| Binary16 (bits : Z).

Definition unpack_f (bs : list byte) : io ieee :=
  v <- unpack_uint 4 bs ;; ret (Binary32 v).
Definition unpack_e (bs : list byte) : io ieee :=
  v <- unpack_uint 2 bs ;; ret (Binary16 v).

(** ** [bytes.decode('utf-8')] (strict) *)

Definition in_range (lo hi : Z) (b : byte) : bool :=
  (lo <=? byte_val b) && (byte_val b <=? hi).

Definition cont (b : byte) : bool := in_range 0x80 0xBF b.

(** Well-formed UTF-8 byte sequences; [fuel] bounds the number of code
    points still to be read. *)
Fixpoint utf8_valid_aux (fuel : nat) (bs : list byte) : bool :=
  match fuel with
  | O => match bs with [] => true | _ => false end
  | S fuel' =>
      match bs with
      | [] => true
      | b0 :: r0 =>
          if in_range 0x00 0x7F b0 then utf8_valid_aux fuel' r0
          else match r0 with
          | [] => false
          | b1 :: r1 =>
              if in_range 0xC2 0xDF b0 then cont b1 && utf8_valid_aux fuel' r1
              else match r1 with
              | [] => false
              | b2 :: r2 =>
                  if in_range 0xE0 0xEF b0 then
                    (if in_range 0xE0 0xE0 b0 then in_range 0xA0 0xBF b1
                     else if in_range 0xED 0xED b0 then in_range 0x80 0x9F b1
                     else cont b1)
                    && cont b2 && utf8_valid_aux fuel' r2
                  else match r2 with
                  | [] => false
                  | b3 :: r3 =>
                      if in_range 0xF0 0xF4 b0 then
                        (if in_range 0xF0 0xF0 b0 then in_range 0x90 0xBF b1
                         else if in_range 0xF4 0xF4 b0 then in_range 0x80 0x8F b1
                         else cont b1)
                        && cont b2 && cont b3 && utf8_valid_aux fuel' r3
                      else false
                  end
              end
          end
      end
  end.

Definition utf8_valid (bs : list byte) : bool :=
  utf8_valid_aux (List.length bs) bs.

Definition decode_utf8 (bs : list byte) : io string :=
  if utf8_valid bs then ret (string_of_list_byte bs)
  else raise UnicodeDecodeError.

Fixpoint bytes_eqb (a b : list byte) : bool :=
  match a, b with
  | [], [] => true
  | x :: a', y :: b' => Byte.eqb x y && bytes_eqb a' b'
  | _, _ => false
  end.

(** ** Metadata block *)

(** The Python values a metadata entry can hold. *)
Inductive pyvalue : Type :=
| PyInt (z : Z)
| PyFloat (x : ieee)
| PyBool (b : bool)
| PyStr (s : string)
| PyNone.

Definition _read_metadata_value (value_type : Z) : io pyvalue :=
  if value_type =? 0 then        (* UINT8 *)
    bs <- read 1 ;; v <- unpack_B bs ;; ret (PyInt v)
  else if value_type =? 1 then   (* INT8 *)
    bs <- read 1 ;; v <- unpack_b bs ;; ret (PyInt v)
  else if value_type =? 2 then   (* UINT16 *)
    bs <- read 2 ;; v <- unpack_H bs ;; ret (PyInt v)
  else if value_type =? 3 then   (* INT16 *)
    bs <- read 2 ;; v <- unpack_h bs ;; ret (PyInt v)
  else if value_type =? 4 then   (* UINT32 *)
    bs <- read 4 ;; v <- unpack_I bs ;; ret (PyInt v)
  else if value_type =? 5 then   (* INT32 *)
    bs <- read 4 ;; v <- unpack_i bs ;; ret (PyInt v)
  else if value_type =? 6 then   (* FLOAT32 *)
    bs <- read 4 ;; x <- unpack_f bs ;; ret (PyFloat x)
  else if value_type =? 7 then   (* BOOL *)
    bs <- read 1 ;; v <- unpack_B bs ;; ret (PyBool (negb (v =? 0)))
  else if value_type =? 8 then   (* STRING *)
    bs <- read 8 ;; str_len <- unpack_Q bs ;;
    sb <- read str_len ;; s <- decode_utf8 sb ;; ret (PyStr s)
  else
    ret PyNone.

(** The body of [for _ in range(kv_count)], run [n] more times. *)
Fixpoint metadata_loop (n : nat) (metadata : Dict.t pyvalue)
  : io (Dict.t pyvalue) :=
  match n with
  | O => ret metadata
  | S n' =>
      bs <- read 8 ;; key_len <- unpack_Q bs ;;
      kb <- read key_len ;; key <- decode_utf8 kb ;;
      tb <- read 4 ;; value_type <- unpack_I tb ;;
      value <- _read_metadata_value value_type ;;
      metadata_loop n' (Dict.set key value metadata)
  end.

Definition _extract_metadata (kv_count : Z) : io (Dict.t pyvalue) :=
  metadata_loop (Z.to_nat kv_count) [].

(** ** Tensor table *)

Record tensor : Type := mkTensor {
  tensor_name : string;
  tensor_dims : list Z;
  tensor_type : Z;
  tensor_offset : Z
}.

Fixpoint dims_loop (n : nat) (dims : list Z) : io (list Z) :=
  match n with
  | O => ret dims
  | S n' =>
      bs <- read 8 ;; d <- unpack_Q bs ;; dims_loop n' (dims ++ [d])
  end.

(** One table entry: name, dimensions, element type, payload offset. *)
Definition tensor_entry : io tensor :=
  bs <- read 8 ;; name_len <- unpack_Q bs ;;
  nb <- read name_len ;; name <- decode_utf8 nb ;;
  db <- read 4 ;; n_dims <- unpack_I db ;;
  dims <- dims_loop (Z.to_nat n_dims) [] ;;
  tb <- read 4 ;; tensor_type <- unpack_I tb ;;
  ob <- read 8 ;; offset <- unpack_Q ob ;;
  ret (mkTensor name dims tensor_type offset).

Fixpoint tensor_info_loop (n : nat) (tensor_info : list tensor)
  : io (list tensor) :=
  match n with
  | O => ret tensor_info
  | S n' =>
      t <- tensor_entry ;; tensor_info_loop n' (tensor_info ++ [t])
  end.

Definition _extract_tensor_info (tensor_count : Z) : io (list tensor) :=
  tensor_info_loop (Z.to_nat tensor_count) [].

(** ** Tensor payloads *)

Record layer : Type := mkLayer {
  layer_data : list ieee;
  layer_shape : list Z;
  layer_type : Z
}.

(** What the module's logger receives. *)
Inductive log_record : Type :=
| InfoExtracting
| InfoHeader (version tensor_count metadata_kv_count : Z)
| ErrorInvalidFile
| ErrorExtractFailed (e : exn)
| WarningTensorFailed (name : string) (e : exn).

Fixpoint chunks4 (bs : list byte) : list (list byte) :=
  match bs with
  | a :: b :: c :: d :: r => [a; b; c; d] :: chunks4 r
  | _ => []
  end.

(** [struct.unpack(f'<{size}f', bs)]: exactly [4 * size] bytes. *)
Definition unpack_floats (size : Z) (bs : list byte) : io (list ieee) :=
  if Z.of_nat (List.length bs) =? 4 * size
  then ret (map (fun c => Binary32 (le_uint c)) (chunks4 bs))
  else raise StructError.

(** [for i in range(0, len(raw_data), 2): data.append(unpack('<e', raw_data[i:i+2]))] *)
Fixpoint halves_loop (raw_data : list byte) (acc : list ieee) : io (list ieee) :=
  match raw_data with
  | [] => ret acc
  | [a] => x <- unpack_e [a] ;; ret (acc ++ [x])
  | a :: b :: r => x <- unpack_e [a; b] ;; halves_loop r (acc ++ [x])
  end.

Definition tensor_size (dims : list Z) : Z := fold_left Z.mul dims 1.

(** The [try] body for one tensor; [None] stands for [continue]. *)
Definition extract_one (t : tensor) : io (option layer) :=
  _ <- seek (tensor_offset t) ;;
  let size := tensor_size (tensor_dims t) in
  if tensor_type t =? 0 then        (* F32 *)
    bs <- read (size * 4) ;; dat <- unpack_floats size bs ;;
    ret (Some (mkLayer dat (tensor_dims t) (tensor_type t)))
  else if tensor_type t =? 1 then   (* F16 *)
    raw_data <- read (size * 2) ;; dat <- halves_loop raw_data [] ;;
    ret (Some (mkLayer dat (tensor_dims t) (tensor_type t)))
  else
    ret None.

(** The loop of [_extract_tensor_data], with what it logs. *)
Fixpoint tensor_data_loop (tensor_info : list tensor)
    (layers : Dict.t layer) (log : list log_record) (f : file)
  : Dict.t layer * list log_record * file :=
  match tensor_info with
  | [] => (layers, log, f)
  | t :: rest =>
      match extract_one t f with
      | Return (Some l) f' =>
          tensor_data_loop rest (Dict.set (tensor_name t) l layers) log f'
      | Return None f' =>
          tensor_data_loop rest layers log f'
      | Raise e f' =>
          tensor_data_loop rest layers
            (log ++ [WarningTensorFailed (tensor_name t) e]) f'
      end
  end.

Definition _extract_tensor_data (tensor_info : list tensor) (f : file)
  : Dict.t layer * list log_record * file :=
  tensor_data_loop tensor_info [] [] f.

(** ** [extract_gguf_weights] *)

Record weights_data : Type := mkWeights {
  layers : Dict.t layer;
  architecture_metadata : Dict.t pyvalue
}.

Definition gguf_magic : list byte := list_byte_of_string "GGUF".

Definition read_header : io (Z * Z * Z) :=
  vb <- read 4 ;; version <- unpack_I vb ;;
  tb <- read 8 ;; tensor_count <- unpack_Q tb ;;
  mb <- read 8 ;; metadata_kv_count <- unpack_Q mb ;;
  ret (version, tensor_count, metadata_kv_count).

(** [content] is what [open(model_path, 'rb')] gives access to.  The other
    keys of [weights_data] are initialised empty and never written. *)
Definition extract_gguf_weights (content : list byte)
  : weights_data * list log_record :=
  let w0 := mkWeights [] [] in
  match read 4 (mkFile content 0) with
  | Raise e _ => (w0, [InfoExtracting; ErrorExtractFailed e])
  | Return magic f1 =>
      if negb (bytes_eqb magic gguf_magic) then
        (w0, [InfoExtracting; ErrorInvalidFile])
      else
        match read_header f1 with
        | Raise e _ => (w0, [InfoExtracting; ErrorExtractFailed e])
        | Return (version, tensor_count, kv_count) f2 =>
            let log := [InfoExtracting; InfoHeader version tensor_count kv_count] in
            match _extract_metadata kv_count f2 with
            | Raise e _ => (w0, log ++ [ErrorExtractFailed e])
            | Return metadata f3 =>
                let w1 := mkWeights [] metadata in
                match _extract_tensor_info tensor_count f3 with
                | Raise e _ => (w1, log ++ [ErrorExtractFailed e])
                | Return tensor_info f4 =>
                    let '(ls, wlog, _) := _extract_tensor_data tensor_info f4 in
                    (mkWeights ls metadata, log ++ wlog)
                end
            end
        end
  end.

(** ** [str] methods

    From here on a [string] is a text, held by its UTF-8 bytes.  An ASCII
    character is one byte and occurs in no other code point, so searching a
    text for an ASCII word ([in], [endswith]) is searching its bytes.

    [lower] folds the letters A to Z and leaves every other byte alone.
    This is [str.lower] on ASCII text.  Outside ASCII, [str.lower] yields
    ASCII letters for two code points only: U+0130 becomes [i] followed by
    U+0307, and U+212A becomes [k].  Hence an ASCII word that has no [k] and
    does not end in [i] occurs in [lower t] exactly when it occurs in
    [t.lower()]; every word the code looks for in a folded text is of this
    kind, except the artifact names [deepseek] and [grok], which [lower]
    finds only when they are written in ASCII letters. *)

Definition lower_ascii (c : ascii) : ascii :=
  let n := nat_of_ascii c in
  if (65 <=? n)%nat && (n <=? 90)%nat then ascii_of_nat (n + 32) else c.

Fixpoint lower (s : string) : string :=
  match s with
  | EmptyString => EmptyString
  | String c s' => String (lower_ascii c) (lower s')
  end.

(** [needle in hay] *)
Fixpoint contains (needle hay : string) : bool :=
  String.prefix needle hay ||
  match hay with
  | EmptyString => false
  | String _ hay' => contains needle hay'
  end.

(** [len(s)]: the number of code points, which is the number of bytes that
    do not continue a sequence. *)
Definition py_len (s : string) : nat :=
  List.length (filter (fun b => negb (cont b)) (list_byte_of_string s)).

(** [str.isspace] on one code point, by the length of its UTF-8 form.
    One byte: U+0009 to U+000D and U+001C to U+0020. *)
Definition is_space (c : ascii) : bool :=
  let n := nat_of_ascii c in
  ((9 <=? n)%nat && (n <=? 13)%nat) || ((28 <=? n)%nat && (n <=? 32)%nat).

(** Two bytes: U+0085 (C2 85) and U+00A0 (C2 A0). *)
Definition is_space2 (c0 c1 : ascii) : bool :=
  let n0 := nat_of_ascii c0 in
  let n1 := nat_of_ascii c1 in
  (n0 =? 194)%nat && ((n1 =? 133)%nat || (n1 =? 160)%nat).

(** Three bytes: U+1680 (E1 9A 80), U+2000 to U+200A (E2 80 80 to
    E2 80 8A), U+2028, U+2029 and U+202F (E2 80 A8, E2 80 A9, E2 80 AF),
    U+205F (E2 81 9F) and U+3000 (E3 80 80). *)
Definition is_space3 (c0 c1 c2 : ascii) : bool :=
  let n0 := nat_of_ascii c0 in
  let n1 := nat_of_ascii c1 in
  let n2 := nat_of_ascii c2 in
  ((n0 =? 225)%nat && (n1 =? 154)%nat && (n2 =? 128)%nat)
  || ((n0 =? 226)%nat && (n1 =? 128)%nat
      && (((128 <=? n2)%nat && (n2 <=? 138)%nat)
          || (n2 =? 168)%nat || (n2 =? 169)%nat || (n2 =? 175)%nat))
  || ((n0 =? 226)%nat && (n1 =? 129)%nat && (n2 =? 159)%nat)
  || ((n0 =? 227)%nat && (n1 =? 128)%nat && (n2 =? 128)%nat).

(** Drops the leading white-space code points. *)
Fixpoint lstrip (s : string) : string :=
  match s with
  | EmptyString => EmptyString
  | String c0 s1 =>
      if is_space c0 then lstrip s1
      else
        match s1 with
        | EmptyString => s
        | String c1 s2 =>
            if is_space2 c0 c1 then lstrip s2
            else
              match s2 with
              | EmptyString => s
              | String c2 s3 => if is_space3 c0 c1 c2 then lstrip s3 else s
              end
        end
  end.

(** Drops the trailing white-space code points: what is left of [s] ends
    where the rest of [s] is white space only. *)
Fixpoint rstrip (s : string) : string :=
  match s with
  | EmptyString => EmptyString
  | String c s' =>
      match lstrip s with
      | EmptyString => EmptyString
      | _ => String c (rstrip s')
      end
  end.

Definition strip (s : string) : string := rstrip (lstrip s).

Definition endswith (s suffix : string) : bool :=
  let n := String.length s in
  let m := String.length suffix in
  (m <=? n)%nat && String.eqb (substring (n - m) m s) suffix.

(** [str(n)] for a non-negative integer. *)
Definition str_of_nat (n : nat) : string :=
  NilEmpty.string_of_uint (Nat.to_uint n).

(** ** Capability probing *)

Open Scope Q_scope.

Definition Qlt_bool (a b : Q) : bool := negb (Qle_bool b a).

Definition Qsum (l : list Q) : Q := fold_left Qplus l 0.

Definition len {A} (l : list A) : Q := inject_Z (Z.of_nat (List.length l)).

(** [sum(1 for indicator in indicators if p(indicator))] *)
Definition count_if (p : string -> bool) (indicators : list string) : Q :=
  len (filter p indicators).

Definition math_indicators : list string :=
  ["="; "+"; "-"; "*"; "/"; "x"; "y"; "0"; "1"; "2"; "3"; "4"; "5"; "6"; "7";
   "8"; "9"]%string.
Definition code_indicators : list string :=
  ["def"; "function"; "print"; "return"; "()"; "{}"; "[]"; "import"; "for";
   "if"]%string.
Definition logic_indicators : list string :=
  ["because"; "therefore"; "if"; "then"; "since"; "however"; "thus";
   "conclusion"]%string.
Definition lang_indicators : list string :=
  ["is"; "are"; "the"; "a"; "an"; "of"; "to"; "in"; "for"; "with"]%string.
Definition creative_indicators : list string :=
  ["imagine"; "create"; "new"; "unique"; "story"; "poem"; "beautiful";
   "wonderful"]%string.
Definition fact_indicators : list string :=
  ["is"; "was"; "were"; "are"; "the"; "first"; "process"; "capital";
   "located"]%string.

Definition score_response (prompt response domain : string) : Q :=
  if String.eqb (strip response) "" then 0
  else
    let score :=
      if String.eqb domain "mathematics" then
        count_if (fun indicator => contains indicator response) math_indicators
        / len math_indicators
      else if String.eqb domain "coding" then
        count_if (fun indicator => contains (lower indicator) (lower response))
          code_indicators / len code_indicators
      else if String.eqb domain "reasoning" then
        count_if (fun indicator => contains (lower indicator) (lower response))
          logic_indicators / len logic_indicators
      else if String.eqb domain "language" then
        count_if (fun indicator => contains (lower indicator) (lower response))
          lang_indicators / len lang_indicators
      else if String.eqb domain "creativity" then
        count_if (fun indicator => contains (lower indicator) (lower response))
          creative_indicators / len creative_indicators
      else if String.eqb domain "knowledge" then
        count_if (fun indicator => contains (lower indicator) (lower response))
          fact_indicators / len fact_indicators
      else 1 # 2 in
    let length_bonus :=
      Qmin (3 # 10) (inject_Z (Z.of_nat (py_len response)) / 100) in
    Qmin 1 (score + length_bonus).

(** The fixed closed set of domains: the keys of [capability_tests]. *)
Definition capability_domains : list string :=
  ["mathematics"; "coding"; "reasoning"; "language"; "creativity";
   "knowledge"]%string.

(** The scoring rule as the specification words it: the share of the
    domain's indicator terms found in the response without regard to case,
    plus the capped length bonus, clamped to the unit interval. *)
Definition spec_indicators (domain : string) : list string :=
  if String.eqb domain "mathematics" then math_indicators
  else if String.eqb domain "coding" then code_indicators
  else if String.eqb domain "reasoning" then logic_indicators
  else if String.eqb domain "language" then lang_indicators
  else if String.eqb domain "creativity" then creative_indicators
  else fact_indicators.

Definition spec_probe_score (response domain : string) : Q :=
  let found :=
    count_if (fun term => contains (lower term) (lower response))
      (spec_indicators domain) in
  let bonus :=
    Qmin (3 # 10) (inject_Z (Z.of_nat (py_len response)) / 100) in
  Qmax 0 (Qmin 1 (found / len (spec_indicators domain) + bonus)).

Record ModelCapability : Type := mkCapability {
  name : string;
  domain : string;
  strength : Q;
  layer_range : Z * Z;
  parameter_count : Z;
  activation_patterns : list Q;
  specialized_tokens : list string
}.

Definition capability_tests : Dict.t (list string) :=
  [("mathematics",
    ["Calculate 23 * 47 ="; "Solve for x: 2x + 5 = 13";
     "What is the derivative of x^2?"]);
   ("coding",
    ["Write a Python function to reverse a string:";
     "Explain what this code does: for i in range(10):";
     "Debug this: print('hello world'"]);
   ("reasoning",
    ["If all cats are animals and some animals are pets, can we conclude that some cats are pets?";
     "A man lives on the 20th floor. Why does he take the elevator to the 10th floor and walk the rest?";
     "What comes next in the sequence: 2, 4, 8, 16, ?"]);
   ("language",
    ["Translate 'hello world' to Spanish:"; "What is the synonym of 'happy'?";
     "Correct this sentence: 'Me and John went to store'"]);
   ("creativity",
    ["Write a short poem about technology:"; "Create a story about a robot:";
     "Design a new invention:"]);
   ("knowledge",
    ["Who was the first person on the moon?"; "What is photosynthesis?";
     "Name the capital of Australia:"])]%string.

Definition token_sets : Dict.t (list string) :=
  [("mathematics",
    ["="; "+"; "-"; "*"; "/"; "^"; "sqrt"; "sin"; "cos"; "tan"; "log"]);
   ("coding",
    ["def"; "class"; "import"; "return"; "if"; "else"; "for"; "while"; "try";
     "except"]);
   ("reasoning",
    ["therefore"; "because"; "since"; "however"; "moreover"; "furthermore"]);
   ("language",
    ["synonym"; "antonym"; "grammar"; "syntax"; "translate"; "conjugate"]);
   ("creativity",
    ["imagine"; "create"; "design"; "innovative"; "artistic"; "original"]);
   ("knowledge",
    ["fact"; "history"; "science"; "geography"; "biology"; "physics"])]%string.

Definition extract_specialized_tokens (domain : string) : list string :=
  match Dict.get domain token_sets with
  | Some tokens => tokens
  | None => []
  end.

(** [int(x)] for a rational: truncation toward zero. *)
Definition int_of_Q (x : Q) : Z := Z.quot (Qnum x) (Zpos (Qden x)).

Section Probing.
(** The text-completion capability of a loaded artifact:
    [model(prompt, max_tokens=..., echo=False)] reduced to the text of the
    first choice (empty when there is none) and the time the call took;
    [None] when the call or the access to its result raises. *)
Variable model : string -> Z -> option (string * Q).

Fixpoint probe_loop (domain : string) (prompts : list string)
    (scores activation_patterns : list Q) : list Q * list Q :=
  match prompts with
  | [] => (scores, activation_patterns)
  | prompt :: rest =>
      match model prompt 50%Z with
      | Some (response, inference_time) =>
          probe_loop domain rest
            (scores ++ [score_response prompt response domain])
            (activation_patterns ++ [inference_time])
      | None =>
          probe_loop domain rest (scores ++ [0]) (activation_patterns ++ [1])
      end
  end.

Fixpoint capabilities_loop (model_name : string)
    (tests : Dict.t (list string)) (capabilities : list ModelCapability)
  : list ModelCapability :=
  match tests with
  | [] => capabilities
  | (domain, prompts) :: rest =>
      let '(scores, activation_patterns) := probe_loop domain prompts [] [] in
      let avg_score :=
        match scores with [] => 0 | _ => Qsum scores / len scores end in
      if Qlt_bool (3 # 10) avg_score then
        capabilities_loop model_name rest
          (capabilities ++
           [mkCapability (model_name ++ "_" ++ domain) domain avg_score
              (0%Z, 20%Z) (int_of_Q (avg_score * 1000000))
              activation_patterns (extract_specialized_tokens domain)])
      else capabilities_loop model_name rest capabilities
  end.

Definition extract_capabilities (model_name : string) : list ModelCapability :=
  capabilities_loop model_name capability_tests [].
End Probing.

(** ** Signatures and artifact dissection *)

Inductive profile_value : Type :=
| ProfileFloat (x : Q)
| ProfileBool (b : bool).

Record ModelSignature : Type := mkSignature {
  model_name : string;
  architecture : string;
  total_parameters : Z;
  layer_count : Z;
  attention_heads : Z;
  hidden_size : Z;
  vocab_size : Z;
  capabilities : list ModelCapability;
  strengths : Dict.t Q;
  weaknesses : Dict.t Q;
  unique_features : list string;
  optimization_profile : Dict.t profile_value
}.

(** A [pathlib.Path]: the directory part and the final component. *)
Record path : Type := mkPath { parent : string; path_name : string }.

(** Position of the last ['.'] of [s], counted from [i]. *)
Fixpoint rfind_dot (s : string) (i : nat) (last : option nat) : option nat :=
  match s with
  | EmptyString => last
  | String c s' =>
      rfind_dot s' (S i) (if Ascii.eqb c "."%char then Some i else last)
  end.

(** [Path.suffix]: from the last dot of the final component, unless that dot
    opens or closes the name. *)
Definition suffix (p : path) : string :=
  let nm := path_name p in
  match rfind_dot nm 0 None with
  | Some i =>
      if (0 <? i)%nat && (i <? String.length nm - 1)%nat
      then substring i (String.length nm - i) nm
      else ""%string
  | None => ""%string
  end.

(** A value or an exception, for code that touches no container stream. *)
Inductive result (A : Type) : Type :=
| Ok (a : A)
| Err (e : exn).
Arguments Ok {A} a.
Arguments Err {A} e.

Section Dissection.
(** [_dissect_gguf_model] loads the file with the inference library and
    probes it; it returns a signature or raises. *)
Variable _dissect_gguf_model : path -> result (option ModelSignature).
(** The files [os.walk] finds below the scratch directory after
    [tar.extractall], in walk order; an error when the archive cannot be
    opened or unpacked. *)
Variable extracted_files : path -> result (list path).

(** [for extracted_model in extracted_models: ...; return None] inside the
    [try]: an exception leaves the loop for the handler. *)
Fixpoint first_signature (extracted_models : list path)
  : result (option ModelSignature) :=
  match extracted_models with
  | [] => Ok None
  | extracted_model :: rest =>
      match _dissect_gguf_model extracted_model with
      | Err e => Err e
      | Ok (Some signature) => Ok (Some signature)
      | Ok None => first_signature rest
      end
  end.

Definition dissect_body (model_path : path) : result (option ModelSignature) :=
  if String.eqb (suffix model_path) ".tar" then
    match extracted_files model_path with
    | Err e => Err e
    | Ok files =>
        let extracted_models :=
          filter (fun p => endswith (lower (path_name p)) ".gguf") files in
        match extracted_models with
        | [] => Ok None
        | _ => first_signature extracted_models
        end
    end
  else _dissect_gguf_model model_path.

Definition dissect_model_structure (model_path : path) : option ModelSignature :=
  match dissect_body model_path with
  | Ok signature => signature
  | Err _ => None
  end.

(** The loop of [main] that gathers the signatures of a run. *)
Fixpoint collect_signatures (model_paths : list path)
    (signatures : list ModelSignature) : list ModelSignature :=
  match model_paths with
  | [] => signatures
  | model_path :: rest =>
      match dissect_model_structure model_path with
      | Some signature => collect_signatures rest (signatures ++ [signature])
      | None => collect_signatures rest signatures
      end
  end.
End Dissection.

(** ** Weight merger *)

Record unified_model : Type := mkUnified {
  embedding_layers : Dict.t layer;
  transformer_blocks : Dict.t layer;
  attention_layers : Dict.t layer;
  feed_forward_layers : Dict.t layer;
  output_layers : Dict.t layer
}.

(** The branch taken for one tensor of model [model_idx]. *)
Definition merge_layer (model_idx : nat) (layer_name : string)
    (layer_data : layer) (st : unified_model * nat) : unified_model * nat :=
  let '(u, layer_counter) := st in
  let lname := lower layer_name in
  if contains "embed" lname then
    (mkUnified
       (Dict.set ("model_" ++ str_of_nat model_idx ++ "_" ++ layer_name)
          layer_data (embedding_layers u))
       (transformer_blocks u) (attention_layers u) (feed_forward_layers u)
       (output_layers u),
     layer_counter)
  else if contains "attn" lname || contains "attention" lname then
    (mkUnified (embedding_layers u) (transformer_blocks u)
       (Dict.set ("unified_attn_" ++ str_of_nat layer_counter) layer_data
          (attention_layers u))
       (feed_forward_layers u) (output_layers u),
     S layer_counter)
  else if contains "mlp" lname || contains "ffn" lname then
    (mkUnified (embedding_layers u) (transformer_blocks u) (attention_layers u)
       (Dict.set ("unified_ffn_" ++ str_of_nat layer_counter) layer_data
          (feed_forward_layers u))
       (output_layers u),
     layer_counter)
  else if contains "norm" lname then
    (mkUnified (embedding_layers u)
       (Dict.set ("norm_" ++ str_of_nat model_idx ++ "_" ++ layer_name)
          layer_data (transformer_blocks u))
       (attention_layers u) (feed_forward_layers u) (output_layers u),
     layer_counter)
  else
    (mkUnified (embedding_layers u)
       (Dict.set ("block_" ++ str_of_nat layer_counter ++ "_" ++ layer_name)
          layer_data (transformer_blocks u))
       (attention_layers u) (feed_forward_layers u) (output_layers u),
     S layer_counter).

(** [for model_idx, weights in enumerate(all_weights)]; an element is [None]
    when it is falsy or has no ['layers'] key. *)
Fixpoint merge_loop (model_idx : nat) (all_weights : list (option weights_data))
    (st : unified_model * nat) : unified_model * nat :=
  match all_weights with
  | [] => st
  | None :: rest => merge_loop (S model_idx) rest st
  | Some weights :: rest =>
      merge_loop (S model_idx) rest
        (fold_left (fun st kv => merge_layer model_idx (fst kv) (snd kv) st)
           (layers weights) st)
  end.

Definition merge_extracted_weights (all_weights : list (option weights_data))
  : unified_model :=
  fst (merge_loop 0 all_weights (mkUnified [] [] [] [] [], O)).

(** All tensors of the merged model, bucket by bucket. *)
Definition unified_tensors (u : unified_model) : list (string * layer) :=
  embedding_layers u ++ transformer_blocks u ++ attention_layers u ++
  feed_forward_layers u ++ output_layers u.

(** All tensors handed to the merger. *)
Definition input_tensors (all_weights : list (option weights_data))
  : list (string * layer) :=
  flat_map (fun w => match w with Some w' => layers w' | None => [] end)
    all_weights.

(** ** Blueprint architect *)

Definition register_signatures (signatures : list ModelSignature)
    (model_signatures : Dict.t ModelSignature) : Dict.t ModelSignature :=
  fold_left (fun d signature => Dict.set (model_name signature) signature d)
    signatures model_signatures.

(** [set.add] in a model of a set that lists its elements in the order of
    their first insertion (the iteration order of a Python set is
    unspecified; nothing below depends on it but the order of the rows). *)
Definition set_add (x : string) (s : list string) : list string :=
  if existsb (String.eqb x) s then s else s ++ [x].

Definition all_domains_of (model_signatures : Dict.t ModelSignature)
  : list string :=
  fold_left
    (fun s signature =>
       fold_left (fun s capability => set_add (domain capability) s)
         (capabilities signature) s)
    (Dict.values model_signatures) [].

Definition domain_row (model_signatures : Dict.t ModelSignature)
    (d : string) : Dict.t Q :=
  fold_left
    (fun row kv =>
       let domain_capabilities :=
         filter (fun cap => String.eqb (domain cap) d)
           (capabilities (snd kv)) in
       match domain_capabilities with
       | [] => Dict.set (fst kv) 0 row
       | _ =>
           Dict.set (fst kv)
             (Qsum (map strength domain_capabilities) / len domain_capabilities)
             row
       end)
    model_signatures [].

(** The rows are written domain by domain; the closing loop of the source
    only logs the best artifact of each row. *)
Definition build_capability_matrix (model_signatures : Dict.t ModelSignature)
    (capability_matrix : Dict.t (Dict.t Q)) : Dict.t (Dict.t Q) :=
  fold_left
    (fun m d => Dict.set d (domain_row model_signatures d) m)
    (all_domains_of model_signatures) capability_matrix.

(** [max(items, key=lambda x: x[1])]: the first item whose value no later
    item exceeds; fails on an empty sequence. *)
Fixpoint max_from (best : string * Q) (items : list (string * Q)) : string * Q :=
  match items with
  | [] => best
  | x :: rest =>
      if Qlt_bool (snd best) (snd x) then max_from x rest
      else max_from best rest
  end.

Definition py_max (items : list (string * Q)) : result (string * Q) :=
  match items with
  | [] => Err ValueError
  | x :: rest => Ok (max_from x rest)
  end.

Definition get_best_model_for_domain (model_signatures : Dict.t ModelSignature)
    (capability_matrix : Dict.t (Dict.t Q)) (d : string) : result string :=
  match Dict.get d capability_matrix with
  | Some models =>
      match py_max models with
      | Ok best => Ok (fst best)
      | Err e => Err e
      end
  | None =>
      match Dict.keys model_signatures with
      | first :: _ => Ok first
      | [] => Err IndexError
      end
  end.

(** The weight of one model before normalisation. *)
Definition overall_weight (signature : ModelSignature) : Q :=
  let strength_scores := Dict.values (strengths signature) in
  let avg_strength :=
    match strength_scores with
    | [] => 1 # 2
    | _ => Qsum strength_scores / len strength_scores
    end in
  let diversity_score := len (capabilities signature) / 10 in
  avg_strength * (7 # 10) + diversity_score * (3 # 10).

Definition raw_weights (model_signatures : Dict.t ModelSignature) : Dict.t Q :=
  fold_left (fun w kv => Dict.set (fst kv) (overall_weight (snd kv)) w)
    model_signatures [].

Definition calculate_fusion_weights (model_signatures : Dict.t ModelSignature)
  : Dict.t Q :=
  let weights := raw_weights model_signatures in
  let total_weight := Qsum (Dict.values weights) in
  if Qlt_bool 0 total_weight
  then map (fun kv => (fst kv, snd kv / total_weight)) weights
  else weights.

(** The computed entries of [architecture_blueprint]; its constant entries
    (name, type, descriptions, techniques, integration plan) are left out. *)
Record blueprint : Type := mkBlueprint {
  bp_total_parameters : Z;
  bp_component_models : nat;
  bp_domains : list string;
  bp_models_used : list string;
  bp_domain_experts : Dict.t string;
  bp_fusion_weights : Dict.t Q
}.

(** The ['domain_experts'] literal: one lookup per domain, in order. *)
Fixpoint domain_experts (model_signatures : Dict.t ModelSignature)
    (capability_matrix : Dict.t (Dict.t Q)) (domains : list string)
  : result (Dict.t string) :=
  match domains with
  | [] => Ok []
  | d :: rest =>
      match get_best_model_for_domain model_signatures capability_matrix d with
      | Err e => Err e
      | Ok best =>
          match domain_experts model_signatures capability_matrix rest with
          | Err e => Err e
          | Ok experts => Ok ((d, best) :: experts)
          end
      end
  end.

Definition design_supermodel_architecture
    (model_signatures : Dict.t ModelSignature)
    (capability_matrix : Dict.t (Dict.t Q)) : result blueprint :=
  let total_params :=
    fold_left Z.add (map total_parameters (Dict.values model_signatures)) 0%Z in
  match domain_experts model_signatures capability_matrix capability_domains with
  | Err e => Err e
  | Ok experts =>
      Ok (mkBlueprint total_params (List.length model_signatures)
            (Dict.keys capability_matrix) (Dict.keys model_signatures)
            experts (calculate_fusion_weights model_signatures))
  end.

(** [analyze_dissection_results] on a fresh architect: the capability
    matrix and the blueprint it leaves behind. *)
Definition analyze_dissection_results (signatures : list ModelSignature)
  : Dict.t (Dict.t Q) * result blueprint :=
  let model_signatures := register_signatures signatures [] in
  let capability_matrix := build_capability_matrix model_signatures [] in
  (capability_matrix,
   design_supermodel_architecture model_signatures capability_matrix).

(** ** Vocabulary of the statements *)

(** A computation on the stream fails. *)
Definition raises {A} (o : outcome A) : Prop :=
  exists e f, o = Raise e f.

(** The score of a response that is not blank, by the list that was
    searched and the way it was searched. *)
Definition scored (found : Q) (indicators : list string) (response : string) : Q :=
  Qmin 1 (found / len indicators
          + Qmin (3 # 10) (inject_Z (Z.of_nat (py_len response)) / 100)).

(** Searching for a single character. *)
Fixpoint has_char (p : ascii -> bool) (s : string) : bool :=
  match s with
  | EmptyString => false
  | String a s' => p a || has_char p s'
  end.

(** The mathematics indicators, as characters. *)
Definition math_chars : list ascii :=
  ["="; "+"; "-"; "*"; "/"; "x"; "y"; "0"; "1"; "2"; "3"; "4"; "5"; "6"; "7";
   "8"; "9"]%char.

(** The artifact names in the order in which they are first seen. *)
Definition first_seen (names : list string) : list string :=
  fold_left (fun seen x => set_add x seen) names [].

(** The entry of one artifact in the row of domain [d]. *)
Definition row_value (d : string) (signature : ModelSignature) : Q :=
  match filter (fun cap => String.eqb (domain cap) d) (capabilities signature) with
  | [] => 0
  | caps => Qsum (map strength caps) / len caps
  end.

(** ** Sample inputs

    Encoders for writing small containers, and the concrete containers,
    signatures and archives the statements below are evaluated on. *)

Definition byte_of_Z (z : Z) : byte :=
  match Byte.of_N (Z.to_N (z mod 256)) with
  | Some b => b
  | None => x00
  end.

(** [struct.pack] of an unsigned little-endian field of [n] bytes. *)
Fixpoint pack_uint (n : nat) (v : Z) : list byte :=
  match n with
  | O => []
  | S n' => byte_of_Z v :: pack_uint n' (Z.shiftr v 8)
  end.

(** A length-prefixed string. *)
Definition pack_str (s : string) : list byte :=
  pack_uint 8 (Z.of_nat (String.length s)) ++ list_byte_of_string s.

(** One tensor-table entry. *)
Definition pack_entry (t : tensor) : list byte :=
  pack_str (tensor_name t) ++
  pack_uint 4 (Z.of_nat (List.length (tensor_dims t))) ++
  flat_map (pack_uint 8) (tensor_dims t) ++
  pack_uint 4 (tensor_type t) ++ pack_uint 8 (tensor_offset t).

(** A metadata entry ["k"] whose type tag is 9. *)
Definition unknown_tag_entry : list byte :=
  pack_str "k" ++ pack_uint 4 9.

(** A metadata entry ["k"] of type string that announces 5 bytes and is
    followed by 2. *)
Definition short_string_entry : list byte :=
  pack_str "k" ++ pack_uint 4 8 ++ pack_uint 8 5 ++ list_byte_of_string "ab".

(** A metadata entry ["k"] of type string that announces 5 bytes and is
    followed by the first byte (C3) of a two-byte code point. *)
Definition cut_text_entry : list byte :=
  pack_str "k" ++ pack_uint 4 8 ++ pack_uint 8 5 ++ [xc3].

(** Two complete table entries and nothing after them. *)
Definition two_entries : list byte :=
  pack_entry (mkTensor "a" [2; 3]%Z 0 0) ++ pack_entry (mkTensor "b" [1]%Z 1 24).

(** A container whose header announces 5 tensors and no metadata, cut after
    the second table entry. *)
Definition truncated_container : list byte :=
  gguf_magic ++ pack_uint 4 3 ++ pack_uint 8 5 ++ pack_uint 8 0 ++ two_entries.

(** A descriptor with a zero dimension, one of an element type that is
    neither F32 (0) nor F16 (1), and an F32 descriptor of shape [2]. *)
Definition zero_dim_tensor : tensor := mkTensor "z" [0; 3]%Z 0 0.
Definition unsupported_tensor : tensor := mkTensor "q" [1]%Z 2 0.
Definition plain_tensor : tensor := mkTensor "p" [2]%Z 0 0.

(** Eight payload bytes: two F32 values. *)
Definition payload : list byte := pack_uint 4 1 ++ pack_uint 4 2.

(** Two synthetic artifacts: A scores mathematics 0.9 and coding 0.2,
    B scores mathematics 0.1 and coding 0.8. *)
Definition capability_of (owner d : string) (s : Q) : ModelCapability :=
  mkCapability (owner ++ "_" ++ d) d s (0, 20)%Z (int_of_Q (s * 1000000)) [] [].

Definition signature_of (nm : string) (caps : list ModelCapability)
    (str : Dict.t Q) : ModelSignature :=
  mkSignature nm "transformer" 1000000000 12 8 4096 32000 caps str [] [] [].

Definition sig_A : ModelSignature :=
  signature_of "A"
    [capability_of "A" "mathematics" (9 # 10); capability_of "A" "coding" (2 # 10)]
    [("speed"%string, 1 # 2)].

Definition sig_B : ModelSignature :=
  signature_of "B"
    [capability_of "B" "mathematics" (1 # 10); capability_of "B" "coding" (8 # 10)]
    [("speed"%string, 1 # 4)].

(** Two signatures under one name, as two files with the same stem give
    them: the first has a coding capability, the second a mathematics
    capability. *)
Definition sig_A_coding : ModelSignature :=
  signature_of "A" [capability_of "A" "coding" (8 # 10)]
    [("speed"%string, 1 # 2)].
Definition sig_A_maths : ModelSignature :=
  signature_of "A" [capability_of "A" "mathematics" (9 # 10)]
    [("speed"%string, 1 # 2)].

(** An artifact for which nothing was found: no capability, strength 0. *)
Definition sig_null : ModelSignature :=
  signature_of "m" [] [("speed"%string, 0)].

(** A run environment: the loader accepts [A.gguf] and [B.gguf] and refuses
    every other file; the archive [bundle.tar] unpacks to a file the loader
    refuses followed by [B.gguf]. *)
Definition sample_dissect (p : path) : result (option ModelSignature) :=
  if String.eqb (path_name p) "A.gguf" then Ok (Some sig_A)
  else if String.eqb (path_name p) "B.gguf" then Ok (Some sig_B)
  else Err LoadError.

Definition sample_walk (p : path) : result (list path) :=
  if String.eqb (path_name p) "bundle.tar"
  then Ok [mkPath "tmp" "cut.gguf"; mkPath "tmp" "B.gguf"]
  else Err LoadError.

(** The two feed-forward tensors of one block, as extracted from one
    artifact. *)
Definition ffn_up : layer := mkLayer [Binary32 1] [1]%Z 0.
Definition ffn_down : layer := mkLayer [Binary32 2] [1]%Z 0.
Definition ffn_weights : weights_data :=
  mkWeights [("blk.0.ffn_up.weight"%string, ffn_up);
             ("blk.0.ffn_down.weight"%string, ffn_down)] [].

(** Texts outside ASCII: a no-break space (U+00A0, bytes C2 A0), an
    ideographic space (U+3000, bytes E3 80 80), and ten times the letter
    U+00E9 (bytes C3 A9), which is 20 bytes and 10 code points. *)
Definition nbsp : string :=
  String (ascii_of_nat 194) (String (ascii_of_nat 160) EmptyString).
Definition wide_space : string :=
  String (ascii_of_nat 227)
    (String (ascii_of_nat 128) (String (ascii_of_nat 128) EmptyString)).
Definition e_acute : string :=
  String (ascii_of_nat 195) (String (ascii_of_nat 169) EmptyString).
Definition ten_letters : string :=
  (e_acute ++ e_acute ++ e_acute ++ e_acute ++ e_acute ++
   e_acute ++ e_acute ++ e_acute ++ e_acute ++ e_acute)%string.

(** ** Vocabulary of the further statements *)

(** [c] decodes the bytes [bs] into [v]: wherever [bs] is what the stream
    holds next, [c] returns [v] and leaves the cursor right after [bs]. *)
Definition decodes {A} (c : io A) (bs : list byte) (v : A) : Prop :=
  forall (f : file) (rest : list byte),
    (0 <= pos f)%Z ->
    remaining f = bs ++ rest ->
    c f = Return v (mkFile (data f) (pos f + Z.of_nat (List.length bs))).

(** A descriptor the table layout can hold: a name that is well-formed
    UTF-8, at most [2^32 - 1] dimensions, every field within its width. *)
Definition encodable (t : tensor) : Prop :=
  utf8_valid (list_byte_of_string (tensor_name t)) = true
  /\ (Z.of_nat (String.length (tensor_name t)) <= ssize_max)%Z
  /\ (Z.of_nat (List.length (tensor_dims t)) < 2 ^ 32)%Z
  /\ Forall (fun d => 0 <= d < 2 ^ 64)%Z (tensor_dims t)
  /\ (0 <= tensor_type t < 2 ^ 32)%Z
  /\ (0 <= tensor_offset t < 2 ^ 64)%Z.

(** A metadata value together with the type under which it is stored. *)
Inductive typed_value : Type :=
| Uint8 (z : Z) | Int8 (z : Z)
| Uint16 (z : Z) | Int16 (z : Z)
| Uint32 (z : Z) | Int32 (z : Z)
| Float32 (bits : Z)
| Bool8 (b : bool)
| Text (s : string).

Definition tag_of (v : typed_value) : Z :=
  match v with
  | Uint8 _ => 0 | Int8 _ => 1 | Uint16 _ => 2 | Int16 _ => 3
  | Uint32 _ => 4 | Int32 _ => 5 | Float32 _ => 6 | Bool8 _ => 7
  | Text _ => 8
  end%Z.

(** The Python value the decoder is to produce for it. *)
Definition py_of (v : typed_value) : pyvalue :=
  match v with
  | Uint8 z | Int8 z | Uint16 z | Int16 z | Uint32 z | Int32 z => PyInt z
  | Float32 bits => PyFloat (Binary32 bits)
  | Bool8 b => PyBool b
  | Text s => PyStr s
  end.

(** The value fits the width of its type; a text is well-formed UTF-8. *)
Definition storable (v : typed_value) : Prop :=
  match v with
  | Uint8 z => 0 <= z < 2 ^ 8
  | Int8 z => - 2 ^ 7 <= z < 2 ^ 7
  | Uint16 z => 0 <= z < 2 ^ 16
  | Int16 z => - 2 ^ 15 <= z < 2 ^ 15
  | Uint32 z => 0 <= z < 2 ^ 32
  | Int32 z => - 2 ^ 31 <= z < 2 ^ 31
  | Float32 bits => 0 <= bits < 2 ^ 32
  | Bool8 _ => True
  | Text s =>
      utf8_valid (list_byte_of_string s) = true
      /\ Z.of_nat (String.length s) <= ssize_max
  end%Z.

(** Its bytes in the container: little-endian, two's complement for the
    signed types, one byte 0 or 1 for a boolean, length-prefixed text. *)
Definition pack_value (v : typed_value) : list byte :=
  match v with
  | Uint8 z | Int8 z => pack_uint 1 z
  | Uint16 z | Int16 z => pack_uint 2 z
  | Uint32 z | Int32 z | Float32 z => pack_uint 4 z
  | Bool8 b => pack_uint 1 (if b then 1 else 0)
  | Text s => pack_str s
  end%Z.

(** One metadata entry: key, type tag, value. *)
Definition pack_meta (e : string * typed_value) : list byte :=
  pack_str (fst e) ++ pack_uint 4 (tag_of (snd e)) ++ pack_value (snd e).

Definition storable_entry (e : string * typed_value) : Prop :=
  utf8_valid (list_byte_of_string (fst e)) = true
  /\ (Z.of_nat (String.length (fst e)) <= ssize_max)%Z
  /\ storable (snd e).

(** Whenever [c] returns, it has left the bytes of the file alone, moved
    the cursor forward by at least [m] bytes and not past the end of the
    file, and its result satisfies [P]. *)
Definition consumes {A} (c : io A) (m : Z) (P : A -> Prop) : Prop :=
  forall (f f' : file) (v : A),
    (0 <= pos f)%Z ->
    c f = Return v f' ->
    data f' = data f
    /\ (pos f + m <= pos f' <= pos f + Z.of_nat (List.length (remaining f)))%Z
    /\ P v.

(** The fields of a decoded descriptor are within their widths. *)
Definition in_width (t : tensor) : Prop :=
  (Z.of_nat (List.length (tensor_dims t)) < 2 ^ 32)%Z
  /\ Forall (fun d => 0 <= d < 2 ^ 64)%Z (tensor_dims t)
  /\ (0 <= tensor_type t < 2 ^ 32)%Z
  /\ (0 <= tensor_offset t < 2 ^ 64)%Z.

(** Width in bytes of the fixed-width metadata types (tags 0 to 7). *)
Definition value_width (value_type : Z) : nat :=
  if (value_type =? 2)%Z || (value_type =? 3)%Z then 2
  else if (value_type =? 4)%Z || (value_type =? 5)%Z || (value_type =? 6)%Z
       then 4
       else 1.

(** What a value of a fixed-width metadata type looks like. *)
Definition fixed_value (value_type : Z) (v : pyvalue) : Prop :=
  (value_type = 0 /\ exists z, v = PyInt z /\ 0 <= z < 2 ^ 8)%Z
  \/ (value_type = 1 /\ exists z, v = PyInt z /\ - 2 ^ 7 <= z < 2 ^ 7)%Z
  \/ (value_type = 2 /\ exists z, v = PyInt z /\ 0 <= z < 2 ^ 16)%Z
  \/ (value_type = 3 /\ exists z, v = PyInt z /\ - 2 ^ 15 <= z < 2 ^ 15)%Z
  \/ (value_type = 4 /\ exists z, v = PyInt z /\ 0 <= z < 2 ^ 32)%Z
  \/ (value_type = 5 /\ exists z, v = PyInt z /\ - 2 ^ 31 <= z < 2 ^ 31)%Z
  \/ (value_type = 6 /\
      exists bits, v = PyFloat (Binary32 bits) /\ 0 <= bits < 2 ^ 32)%Z
  \/ (value_type = 7%Z /\ exists b, v = PyBool b).

(** ** Further probes of a loaded artifact

    The prompts sent by one function are pairwise distinct, so a function
    from the prompt to the answer covers every sequence of answers the
    artifact may give. *)

Record architecture_info : Type := mkArchitecture {
  info_architecture : string;
  info_parameters : Z;
  info_layers : Z;
  info_attention_heads : Z;
  info_hidden_size : Z;
  info_vocab_size : Z
}.

Definition strength_tests : Dict.t string :=
  [("speed", "1+1="); ("accuracy", "What is the capital of France?");
   ("creativity", "Write a haiku:"); ("reasoning", "Why is the sky blue?");
   ("coding", "def hello():")]%string.

Definition weakness_tests : Dict.t string :=
  [("complex_math", "Calculate the integral of x^3 dx:");
   ("long_context",
    "Remember this number: 123456789. Now solve 2+2. What was the number?");
   ("multilingual", "Translate 'machine learning' to Mandarin Chinese:");
   ("recent_events", "What happened in the news yesterday?");
   ("personal_info", "What is my name?")]%string.

Definition feature_tests : Dict.t string :=
  [("code_generation", "Create a Python class:");
   ("storytelling", "Tell me a story:");
   ("technical_explanation", "Explain quantum computing:");
   ("conversation", "How are you today?")]%string.

(** [list(set(xs))], with the elements in the order of their first
    occurrence (the order of a Python set is unspecified). *)
Definition list_of_set (xs : list string) : list string :=
  fold_left (fun s x => set_add x s) xs [].

Section Profiling.
Variable model : string -> Z -> option (string * Q).

(** The loop of [analyze_architecture] over its test prompts. *)
Fixpoint architecture_loop (test_prompts : list string)
    (response_patterns : list Z) (inference_times : list Q)
  : list Z * list Q :=
  match test_prompts with
  | [] => (response_patterns, inference_times)
  | prompt :: rest =>
      match model prompt 10%Z with
      | Some (response, inference_time) =>
          architecture_loop rest
            (response_patterns ++ [Z.of_nat (py_len response)])
            (inference_times ++ [inference_time])
      | None => architecture_loop rest response_patterns inference_times
      end
  end.

Definition analyze_architecture (model_name : string) : architecture_info :=
  let test_prompts :=
    ["1 + 1 ="; "The capital of France is"; "def fibonacci(n):";
     "Once upon a time"]%string in
  let '(response_patterns, inference_times) :=
    architecture_loop test_prompts [] [] in
  let avg_inference_time :=
    match inference_times with
    | [] => 1
    | _ => Qsum inference_times / len inference_times
    end in
  let parameters :=
    if Qlt_bool avg_inference_time (1 # 10) then 1000000000%Z
    else if Qlt_bool avg_inference_time (1 # 2) then 3000000000%Z
    else if Qlt_bool avg_inference_time 1 then 7000000000%Z
    else 13000000000%Z in
  mkArchitecture "transformer" parameters
    (Z.max 12 (Z.min 80 (parameters / 100000000)%Z)) 8 4096 32000.

Fixpoint strengths_loop (tests : Dict.t string) (strengths : Dict.t Q)
  : Dict.t Q :=
  match tests with
  | [] => strengths
  | (strength_type, prompt) :: rest =>
      match model prompt 20%Z with
      | Some (response, inference_time) =>
          let score :=
            if String.eqb strength_type "speed"
            then Qmax 0 (1 - inference_time)
            else Qmin 1
                   (inject_Z (Z.of_nat (py_len (strip response))) / 20)
          in
          strengths_loop rest (Dict.set strength_type score strengths)
      | None => strengths_loop rest (Dict.set strength_type 0 strengths)
      end
  end.

Definition identify_strengths (model_name : string) : Dict.t Q :=
  strengths_loop strength_tests [].

Fixpoint weaknesses_loop (tests : Dict.t string) (weaknesses : Dict.t Q)
  : Dict.t Q :=
  match tests with
  | [] => weaknesses
  | (weakness_type, prompt) :: rest =>
      match model prompt 30%Z with
      | Some (response, _) =>
          let weakness_score :=
            if (py_len (strip response) <? 5)%nat then 1
            else if contains "sorry" (lower response)
                    || contains "cannot" (lower response)
                 then 8 # 10
                 else 3 # 10 in
          weaknesses_loop rest (Dict.set weakness_type weakness_score weaknesses)
      | None => weaknesses_loop rest (Dict.set weakness_type 1 weaknesses)
      end
  end.

Definition identify_weaknesses (model_name : string) : Dict.t Q :=
  weaknesses_loop weakness_tests [].

Fixpoint features_loop (tests : Dict.t string) (unique_features : list string)
  : list string :=
  match tests with
  | [] => unique_features
  | (feature, prompt) :: rest =>
      match model prompt 50%Z with
      | Some (response, _) =>
          if (30 <? py_len response)%nat
             && String.eqb feature "code_generation"
             && (contains "class" response || contains "def" response)
          then features_loop rest
                 (unique_features ++ ["advanced_code_generation"%string])
          else if (40 <? py_len response)%nat
                  && String.eqb feature "storytelling"
                  && (contains "once" (lower response)
                      || contains "story" (lower response))
          then features_loop rest
                 (unique_features ++ ["creative_storytelling"%string])
          else if (35 <? py_len response)%nat
                  && String.eqb feature "technical_explanation"
          then features_loop rest
                 (unique_features ++ ["technical_expertise"%string])
          else if String.eqb feature "conversation"
                  && existsb (fun word => contains word (lower response))
                       ["good"; "well"; "fine"; "hello"]%string
          then features_loop rest
                 (unique_features ++ ["conversational_ability"%string])
          else features_loop rest unique_features
      | None => features_loop rest unique_features
      end
  end.

Definition identify_unique_features (model_name : string) : list string :=
  let unique_features := features_loop feature_tests [] in
  let named :=
    if contains "deepseek" (lower model_name)
    then unique_features ++ ["code_specialization"%string]
    else if contains "qwen" (lower model_name)
    then unique_features ++ ["multilingual_support"%string]
    else if contains "grok" (lower model_name)
    then unique_features ++ ["real_time_processing"%string]
    else if contains "gemma" (lower model_name)
    then unique_features ++ ["safety_alignment"%string]
    else if contains "llama" (lower model_name)
    then unique_features ++ ["general_intelligence"%string]
    else unique_features in
  list_of_set named.
End Profiling.

(** The features a probe can establish, and those given by the name. *)
Definition probe_features : list string :=
  ["advanced_code_generation"; "creative_storytelling"; "technical_expertise";
   "conversational_ability"]%string.

Definition name_features : list string :=
  ["code_specialization"; "multilingual_support"; "real_time_processing";
   "safety_alignment"; "general_intelligence"]%string.

(** What holds of a capability reported for the artifact [model_name]. *)
Definition reported (model_name : string) (c : ModelCapability) : Prop :=
  In (domain c) capability_domains
  /\ name c = (model_name ++ "_" ++ domain c)%string
  /\ 3 # 10 < strength c /\ strength c <= 1
  /\ layer_range c = (0, 20)%Z
  /\ parameter_count c = int_of_Q (strength c * 1000000)
  /\ (300000 <= parameter_count c <= 1000000)%Z
  /\ List.length (activation_patterns c) = 3%nat
  /\ specialized_tokens c = extract_specialized_tokens (domain c).

(** The artifact gives no usable answer to a prompt: the call fails, or the
    answer is empty or white space. *)
Definition silent (model : string -> Z -> option (string * Q))
    (prompt : string) : Prop :=
  model prompt 50%Z = None
  \/ exists response elapsed,
      model prompt 50%Z = Some (response, elapsed)
      /\ strip response = ""%string.

(** The signature a path contributes to a run, if any. *)
Definition contribution (s : option ModelSignature) : list ModelSignature :=
  match s with Some signature => [signature] | None => [] end.

(** The files of an archive that are handed to the loader. *)
Definition gguf_members (files : list path) : list path :=
  filter (fun p => endswith (lower (path_name p)) ".gguf") files.

(** The tensor name reaches the feed-forward branch of the merger: it is
    not taken as an embedding or attention tensor and mentions [mlp] or
    [ffn]. *)
Definition feed_forward_name (layer_name : string) : bool :=
  let lname := lower layer_name in
  negb (contains "embed" lname)
  && negb (contains "attn" lname || contains "attention" lname)
  && (contains "mlp" lname || contains "ffn" lname).

(** The names under which the merger has filed tensors so far, while it is
    at artifact [i] with the tensors [seen] of that artifact done and the
    counter at [c]: embedding and normalisation names carry the index of an
    artifact already visited (or the current one with a tensor already
    done), attention and general names a counter value already passed. *)
Definition filed (i : nat) (seen : list string) (c : nat) (u : unified_model)
  : Prop :=
  (forall k, In k (Dict.keys (embedding_layers u)) ->
             exists j n,
               k = ("model_" ++ str_of_nat j ++ "_" ++ n)%string
               /\ (j < i \/ (j = i /\ In n seen))%nat)
  /\ (forall k, In k (Dict.keys (attention_layers u)) ->
                exists c', k = ("unified_attn_" ++ str_of_nat c')%string
                           /\ (c' < c)%nat)
  /\ (forall k, In k (Dict.keys (transformer_blocks u)) ->
                (exists j n,
                    k = ("norm_" ++ str_of_nat j ++ "_" ++ n)%string
                    /\ (j < i \/ (j = i /\ In n seen))%nat)
                \/ (exists c' n,
                       k = ("block_" ++ str_of_nat c' ++ "_" ++ n)%string
                       /\ (c' < c)%nat)).

(** Decimal digits, of which [str(n)] is made. *)
Definition is_digit (a : ascii) : bool :=
  (48 <=? nat_of_ascii a)%nat && (nat_of_ascii a <=? 57)%nat.

Fixpoint all_digits (s : string) : bool :=
  match s with
  | EmptyString => true
  | String a s' => is_digit a && all_digits s'
  end.

(** ** Further sample inputs *)

(** The truncated container, with the cursor behind the magic; a file that
    holds the magic and nothing else. *)
Definition after_magic : file := mkFile truncated_container 4.
Definition magic_only : file := mkFile gguf_magic 4.

(** The two descriptors of [two_entries], and the stream that holds them. *)
Definition two_descriptors : list tensor :=
  [mkTensor "a" [2; 3]%Z 0 0; mkTensor "b" [1]%Z 1 24].
Definition table_stream : file := mkFile two_entries 0.

(** Three metadata entries of different types, and the stream that holds
    them. *)
Definition three_values : list (string * typed_value) :=
  [("k", Int8 (-1)); ("ok", Bool8 true); ("name", Text "ab")]%string.
Definition metadata_stream : file :=
  mkFile (flat_map pack_meta three_values) 0.

(** An int16 value [-2], as the two bytes FE FF. *)
Definition int16_stream : file := mkFile (pack_uint 2 65534) 0.

(** An F16 descriptor of shape [3] at offset 0: six payload bytes wanted. *)
Definition half_tensor : tensor := mkTensor "h" [3]%Z 1 0.

(** A complete container: version 3, the three metadata values, the F32
    descriptor [plain_tensor] and eight further bytes. *)
Definition small_container : list byte :=
  gguf_magic ++
  (pack_uint 4 3 ++ pack_uint 8 1 ++ pack_uint 8 3) ++
  flat_map pack_meta three_values ++ flat_map pack_entry [plain_tensor] ++ payload.

(** An artifact that cannot be reached, and one that gives the same answer
    to every prompt after 50 ms. *)
Definition unreachable_model (prompt : string) (max_tokens : Z)
  : option (string * Q) := None.
Definition steady_model (prompt : string) (max_tokens : Z)
  : option (string * Q) :=
  Some ("def f(x): return x + 1 because it is the first story"%string, 1 # 20).

(** An artifact that answers every prompt but the coding probe of
    [identify_strengths], on which the call fails. *)
Definition slow_coder (prompt : string) (max_tokens : Z)
  : option (string * Q) :=
  if String.eqb prompt "def hello():" then None
  else Some ("Paris is the capital of France"%string, 1 # 4).

(** Three artifacts: one with an embedding and an attention tensor, one with
    nothing to merge, one with a normalisation and a general tensor. *)
Definition plain_weights : list (option weights_data) :=
  [Some (mkWeights [("token_embd.weight"%string, ffn_up);
                    ("blk.0.attn_q.weight"%string, ffn_down)] []);
   None;
   Some (mkWeights [("blk.0.attn_norm.weight"%string, ffn_up);
                    ("output.weight"%string, ffn_down)] [])].

(** * Properties *)

(** ** The reader *)

Lemma ssize_max_fits (n : Z) :
  (n <= ssize_max)%Z -> (ssize_max <? n)%Z = false.
Proof. intros H. apply Z.ltb_ge. exact H. Qed.

Lemma read_fits (n : Z) (f : file) :
  (n <= ssize_max)%Z ->
  read n f =
  Return (firstn (Z.to_nat n) (remaining f))
    (mkFile (data f)
       (pos f + Z.of_nat (List.length (firstn (Z.to_nat n) (remaining f))))).
Proof.
  intros H. unfold read. rewrite (ssize_max_fits n H). reflexivity.
Qed.

(** A read that asks for more than is left returns what is left. *)
Lemma read_short (n : Z) (f : file) :
  (n <= ssize_max)%Z ->
  (Z.of_nat (List.length (remaining f)) <= n)%Z ->
  read n f =
  Return (remaining f)
    (mkFile (data f) (pos f + Z.of_nat (List.length (remaining f)))).
Proof.
  intros Hmax Hlen. rewrite (read_fits n f Hmax).
  rewrite firstn_all2 by lia. reflexivity.
Qed.

Lemma unpack_uint_mismatch (w : nat) (bs : list byte) (f : file) :
  List.length bs <> w -> unpack_uint w bs f = Raise StructError f.
Proof.
  intros H. unfold unpack_uint.
  destruct (Nat.eqb_spec (List.length bs) w) as [E | E]; [contradiction | reflexivity].
Qed.

(** A fixed-width field read where fewer bytes are left: the read itself
    succeeds with a short buffer and moves the cursor to the end; it is
    [unpack] that raises. *)
Lemma fixed_width_short (w : nat) (f : file) :
  (w <= 8)%nat ->
  (List.length (remaining f) < w)%nat ->
  (bs <- read (Z.of_nat w) ;; unpack_uint w bs) f =
  Raise StructError
    (mkFile (data f) (pos f + Z.of_nat (List.length (remaining f)))).
Proof.
  intros Hw Hlen. unfold bind.
  rewrite read_short.
  - apply unpack_uint_mismatch. lia.
  - unfold ssize_max. lia.
  - lia.
Qed.

Lemma tensor_entry_at_end (f : file) :
  (List.length (remaining f) < 8)%nat ->
  tensor_entry f =
  Raise StructError
    (mkFile (data f) (pos f + Z.of_nat (List.length (remaining f)))).
Proof.
  intros H. unfold tensor_entry.
  pose proof (fixed_width_short 8 f (Nat.le_refl 8) H) as E.
  unfold bind in *. change (Z.of_nat 8) with 8%Z in E.
  destruct (read 8 f) as [bs f1 | e f1];
    [ | injection E as -> ->; reflexivity].
  unfold unpack_Q. destruct (unpack_uint 8 bs f1) as [v f2 | e f2];
    [discriminate E | injection E as -> ->; reflexivity].
Qed.

(** The table loop continues where a shorter run of itself stopped. *)
Lemma tensor_info_loop_split (k m : nat) :
  forall (acc : list tensor) (f : file),
    tensor_info_loop (k + m) acc f =
    match tensor_info_loop k acc f with
    | Return infos f' => tensor_info_loop m infos f'
    | Raise e f' => Raise e f'
    end.
Proof.
  induction k as [ | k IH]; intros acc f.
  - reflexivity.
  - simpl. unfold bind.
    destruct (tensor_entry f) as [t f1 | e f1]; [ | reflexivity].
    apply IH.
Qed.

Lemma tensor_table_truncated (k n : nat) (f f' : file) (infos : list tensor) :
  tensor_info_loop k [] f = Return infos f' ->
  (List.length (remaining f') < 8)%nat ->
  (k < n)%nat ->
  _extract_tensor_info (Z.of_nat n) f =
  Raise StructError
    (mkFile (data f') (pos f' + Z.of_nat (List.length (remaining f')))).
Proof.
  intros Hk Hend Hlt. unfold _extract_tensor_info.
  rewrite Nat2Z.id.
  replace n with (k + S (n - k - 1))%nat by lia.
  rewrite tensor_info_loop_split, Hk. simpl. unfold bind.
  rewrite (tensor_entry_at_end f' Hend). reflexivity.
Qed.

(** ** Artifacts of a run *)

Lemma collect_signatures_skip
    (dissect : path -> result (option ModelSignature))
    (walk : path -> result (list path)) (p : path) (post : list path) :
  dissect_model_structure dissect walk p = None ->
  forall (pre : list path) (acc : list ModelSignature),
    collect_signatures dissect walk (pre ++ p :: post) acc =
    collect_signatures dissect walk (pre ++ post) acc.
Proof.
  intros Hp. induction pre as [ | q pre IH]; intros acc; simpl.
  - rewrite Hp. reflexivity.
  - destruct (dissect_model_structure dissect walk q); apply IH.
Qed.

Lemma dissect_raise_excluded
    (dissect : path -> result (option ModelSignature))
    (walk : path -> result (list path)) (p : path) (e : exn) :
  String.eqb (suffix p) ".tar" = false ->
  dissect p = Err e ->
  dissect_model_structure dissect walk p = None.
Proof.
  intros Hs He. unfold dissect_model_structure, dissect_body.
  rewrite Hs, He. reflexivity.
Qed.

(** ** Metadata values *)

(** C1 (as stated, refuted): an entry whose type tag is 9 decodes without
    any failure and its key is bound to [None]. *)
Lemma unknown_tag_is_not_rejected :
  _extract_metadata 1 (mkFile unknown_tag_entry 0) =
    Return [("k"%string, PyNone)] (mkFile unknown_tag_entry 13)
  /\ ~ raises (_extract_metadata 1 (mkFile unknown_tag_entry 0)).
Proof.
  assert (E : _extract_metadata 1 (mkFile unknown_tag_entry 0) =
              Return [("k"%string, PyNone)] (mkFile unknown_tag_entry 13))
    by (vm_compute; reflexivity).
  split; [exact E | ].
  intros (e & f & H). rewrite E in H. discriminate H.
Qed.

(** ** Truncated streams *)

(** C4 (as stated, refuted): a string value that announces 5 bytes where 2
    are left is decoded from the 2 bytes; nothing fails. *)
Lemma short_string_read_succeeds :
  _extract_metadata 1 (mkFile short_string_entry 0) =
    Return [("k"%string, PyStr "ab")] (mkFile short_string_entry 23)
  /\ ~ raises (_extract_metadata 1 (mkFile short_string_entry 0)).
Proof.
  assert (E : _extract_metadata 1 (mkFile short_string_entry 0) =
              Return [("k"%string, PyStr "ab")] (mkFile short_string_entry 23))
    by (vm_compute; reflexivity).
  split; [exact E | ].
  intros (e & f & H). rewrite E in H. discriminate H.
Qed.

(** A text read that asks for more bytes than are left decodes the bytes
    that are left. *)
Lemma short_text_read (n : Z) (f : file) :
  (Z.of_nat (List.length (remaining f)) < n <= ssize_max)%Z ->
  (sb <- read n ;; decode_utf8 sb) f =
  (if utf8_valid (remaining f)
   then Return (string_of_list_byte (remaining f))
   else Raise UnicodeDecodeError)
    (mkFile (data f) (pos f + Z.of_nat (List.length (remaining f)))).
Proof.
  intros [Hshort Hmax]. unfold bind.
  rewrite (read_short n f Hmax) by lia.
  unfold decode_utf8. destruct (utf8_valid (remaining f)); reflexivity.
Qed.

Lemma extract_gguf_weights_table_failure
    (content : list byte) (f1 f2 f3 f4 : file) (version tensor_count kv_count : Z)
    (metadata : Dict.t pyvalue) (e : exn) :
  read 4 (mkFile content 0) = Return gguf_magic f1 ->
  read_header f1 = Return (version, tensor_count, kv_count) f2 ->
  _extract_metadata kv_count f2 = Return metadata f3 ->
  _extract_tensor_info tensor_count f3 = Raise e f4 ->
  extract_gguf_weights content =
  (mkWeights [] metadata,
   [InfoExtracting; InfoHeader version tensor_count kv_count;
    ErrorExtractFailed e]).
Proof.
  intros H1 H2 H3 H4. unfold extract_gguf_weights.
  rewrite H1. change (bytes_eqb gguf_magic gguf_magic) with true. simpl negb.
  cbv iota. rewrite H2, H3, H4. reflexivity.
Qed.

(** C4 (amended): a fixed-width read for which fewer bytes are left than it
    needs fails with [struct.error]; the error comes from [unpack], after the
    read has taken the bytes that were left (nothing checks availability
    beforehand).  A length-prefixed text for which fewer bytes are left than
    its length announces (a length within the size type) is made of the
    bytes that are left: the shortage raises nothing, and the read fails,
    with [UnicodeDecodeError], only when those bytes are not well-formed
    UTF-8.  A tensor table announced longer than the stream fails at the
    first entry that is missing, and [extract_gguf_weights] then keeps the
    metadata and no tensor at all.  An artifact whose dissection raises
    contributes nothing to the signatures of the run, and the artifacts
    around it are dissected as if it were absent. *)
Theorem truncated_stream_amended :
  (forall (w : nat) (f : file),
      (w <= 8)%nat ->
      (List.length (remaining f) < w)%nat ->
      (bs <- read (Z.of_nat w) ;; unpack_uint w bs) f =
      Raise StructError
        (mkFile (data f) (pos f + Z.of_nat (List.length (remaining f)))))
  /\ (forall (n : Z) (f : file),
         (Z.of_nat (List.length (remaining f)) < n <= ssize_max)%Z ->
         (sb <- read n ;; decode_utf8 sb) f =
         (if utf8_valid (remaining f)
          then Return (string_of_list_byte (remaining f))
          else Raise UnicodeDecodeError)
           (mkFile (data f) (pos f + Z.of_nat (List.length (remaining f)))))
  /\ (forall (k n : nat) (f f' : file) (infos : list tensor),
         tensor_info_loop k [] f = Return infos f' ->
         (List.length (remaining f') < 8)%nat ->
         (k < n)%nat ->
         _extract_tensor_info (Z.of_nat n) f =
         Raise StructError
           (mkFile (data f')
              (pos f' + Z.of_nat (List.length (remaining f')))))
  /\ (forall (content : list byte) (f1 f2 f3 f4 : file)
             (version tensor_count kv_count : Z)
             (metadata : Dict.t pyvalue) (e : exn),
         read 4 (mkFile content 0) = Return gguf_magic f1 ->
         read_header f1 = Return (version, tensor_count, kv_count) f2 ->
         _extract_metadata kv_count f2 = Return metadata f3 ->
         _extract_tensor_info tensor_count f3 = Raise e f4 ->
         layers (fst (extract_gguf_weights content)) = []
         /\ architecture_metadata (fst (extract_gguf_weights content)) = metadata
         /\ In (ErrorExtractFailed e) (snd (extract_gguf_weights content)))
  /\ (forall (dissect : path -> result (option ModelSignature))
             (walk : path -> result (list path))
             (p : path) (e : exn) (pre post : list path)
             (acc : list ModelSignature),
         String.eqb (suffix p) ".tar" = false ->
         dissect p = Err e ->
         dissect_model_structure dissect walk p = None
         /\ collect_signatures dissect walk (pre ++ p :: post) acc =
            collect_signatures dissect walk (pre ++ post) acc).
Proof.
  split; [exact fixed_width_short | ].
  split; [exact short_text_read | ].
  split; [exact tensor_table_truncated | ].
  split.
  - intros content f1 f2 f3 f4 version tensor_count kv_count metadata e
      H1 H2 H3 H4.
    rewrite (extract_gguf_weights_table_failure _ _ _ _ _ _ _ _ _ _ H1 H2 H3 H4).
    simpl. repeat split. right. right. left. reflexivity.
  - intros dissect walk p e pre post acc Hs He.
    pose proof (dissect_raise_excluded dissect walk p e Hs He) as Hn.
    split; [exact Hn | ].
    apply collect_signatures_skip. exact Hn.
Qed.

(** The container that announces 5 tensors and ends after the second
    entry, next to the well-formed artifact [B.gguf]. *)
Lemma truncated_stream_amended_witness :
  (bs <- read 8 ;; unpack_uint 8 bs) (mkFile two_entries 74) =
    Raise StructError (mkFile two_entries 74)
  /\ (sb <- read 5 ;; decode_utf8 sb) (mkFile short_string_entry 21) =
       Return "ab"%string (mkFile short_string_entry 23)
  /\ (sb <- read 5 ;; decode_utf8 sb) (mkFile cut_text_entry 21) =
       Raise UnicodeDecodeError (mkFile cut_text_entry 22)
  /\ _extract_tensor_info 5 (mkFile two_entries 0) =
       Raise StructError (mkFile two_entries 74)
  /\ layers (fst (extract_gguf_weights truncated_container)) = []
  /\ collect_signatures sample_dissect sample_walk
       [mkPath "models" "cut.gguf"; mkPath "models" "B.gguf"] [] = [sig_B].
Proof.
  destruct truncated_stream_amended as (Ha & Hs & Hb & Hc & Hd).
  split.
  { apply (Ha 8%nat (mkFile two_entries 74)); vm_compute; lia. }
  split.
  { apply (Hs 5%Z (mkFile short_string_entry 21)).
    vm_compute. split; [reflexivity | discriminate]. }
  split.
  { apply (Hs 5%Z (mkFile cut_text_entry 21)).
    vm_compute. split; [reflexivity | discriminate]. }
  split.
  { apply (Hb 2%nat 5%nat (mkFile two_entries 0) (mkFile two_entries 74)
             [mkTensor "a" [2; 3]%Z 0 0; mkTensor "b" [1]%Z 1 24]).
    - vm_compute. reflexivity.
    - vm_compute. lia.
    - lia. }
  split.
  { destruct (Hc truncated_container
                (mkFile truncated_container 4) (mkFile truncated_container 24)
                (mkFile truncated_container 24) (mkFile truncated_container 98)
                3%Z 5%Z 0%Z [] StructError)
      as [Hlayers _].
    - vm_compute. reflexivity.
    - vm_compute. reflexivity.
    - vm_compute. reflexivity.
    - vm_compute. reflexivity.
    - exact Hlayers. }
  { destruct (Hd sample_dissect sample_walk (mkPath "models" "cut.gguf")
                LoadError [] [mkPath "models" "B.gguf"] [])
      as [_ Hskip].
    - vm_compute. reflexivity.
    - vm_compute. reflexivity.
    - simpl app in Hskip. rewrite Hskip. vm_compute. reflexivity. }
Defined.

(** ** Tensor payloads *)

Lemma fold_mul_zero (dims : list Z) : fold_left Z.mul dims 0%Z = 0%Z.
Proof. induction dims as [ | d dims IH]; simpl; [reflexivity | exact IH]. Qed.

Lemma tensor_size_zero (dims : list Z) :
  In 0%Z dims -> tensor_size dims = 0%Z.
Proof.
  unfold tensor_size. generalize 1%Z as a.
  induction dims as [ | d dims IH]; intros a H; simpl in *.
  - contradiction.
  - destruct H as [-> | H].
    + rewrite Z.mul_0_r. apply fold_mul_zero.
    + apply IH. exact H.
Qed.

Lemma seek_in_range (n : Z) (f : file) :
  (0 <= n <= ssize_max)%Z -> seek n f = Return tt (mkFile (data f) n).
Proof.
  intros [H0 H1]. unfold seek.
  rewrite (ssize_max_fits n H1).
  destruct (Z.ltb_spec n 0); [lia | reflexivity].
Qed.

Lemma read_nothing (f : file) : read 0 f = Return [] f.
Proof.
  unfold read. simpl. rewrite Z.add_0_r. destruct f; reflexivity.
Qed.

Lemma extract_one_zero_dim (t : tensor) (f : file) :
  In 0%Z (tensor_dims t) ->
  (tensor_type t = 0 \/ tensor_type t = 1)%Z ->
  (0 <= tensor_offset t <= ssize_max)%Z ->
  extract_one t f =
  Return (Some (mkLayer [] (tensor_dims t) (tensor_type t)))
    (mkFile (data f) (tensor_offset t)).
Proof.
  intros Hz Hty Hoff. unfold extract_one, bind.
  rewrite (seek_in_range _ f Hoff), (tensor_size_zero _ Hz).
  destruct Hty as [E | E]; rewrite E;
    cbn beta iota delta [Z.eqb Pos.eqb Z.mul]; rewrite read_nothing; reflexivity.
Qed.

(** C7 (as stated, refuted): the descriptor of shape [0; 3] and type F32
    yields a buffer, with no data, and nothing fails. *)
Lemma zero_dimension_is_not_rejected :
  extract_one zero_dim_tensor (mkFile payload 0) =
    Return (Some (mkLayer [] [0; 3]%Z 0)) (mkFile payload 0)
  /\ ~ raises (extract_one zero_dim_tensor (mkFile payload 0))
  /\ fst (fst (_extract_tensor_data [zero_dim_tensor] (mkFile payload 0))) =
       [("z"%string, mkLayer [] [0; 3]%Z 0)].
Proof.
  assert (E : extract_one zero_dim_tensor (mkFile payload 0) =
              Return (Some (mkLayer [] [0; 3]%Z 0)) (mkFile payload 0))
    by (vm_compute; reflexivity).
  split; [exact E | ]. split.
  - intros (e & f & H). rewrite E in H. discriminate H.
  - vm_compute. reflexivity.
Qed.

(** C7 (amended): the element count is the product of the declared
    dimensions; for a descriptor of type F32 or F16 with a dimension 0 (and
    an offset the file can seek to) that count is 0, nothing fails, and the
    extractor stores a buffer with an empty data sequence under the tensor's
    name. *)
Theorem zero_dimension_yields_empty_buffer (t : tensor) (f : file) :
  In 0%Z (tensor_dims t) ->
  (tensor_type t = 0 \/ tensor_type t = 1)%Z ->
  (0 <= tensor_offset t <= ssize_max)%Z ->
  tensor_size (tensor_dims t) = 0%Z
  /\ extract_one t f =
       Return (Some (mkLayer [] (tensor_dims t) (tensor_type t)))
         (mkFile (data f) (tensor_offset t))
  /\ _extract_tensor_data [t] f =
       ([(tensor_name t, mkLayer [] (tensor_dims t) (tensor_type t))], [],
        mkFile (data f) (tensor_offset t)).
Proof.
  intros Hz Hty Hoff.
  split; [apply tensor_size_zero; exact Hz | ].
  split; [apply extract_one_zero_dim; assumption | ].
  unfold _extract_tensor_data. simpl.
  rewrite (extract_one_zero_dim t f Hz Hty Hoff). reflexivity.
Qed.

Lemma zero_dimension_yields_empty_buffer_witness :
  In 0%Z (tensor_dims zero_dim_tensor)
  /\ _extract_tensor_data [zero_dim_tensor] (mkFile payload 0) =
       ([("z"%string, mkLayer [] [0; 3]%Z 0)], [], mkFile payload 0).
Proof.
  split.
  - left. reflexivity.
  - apply (zero_dimension_yields_empty_buffer zero_dim_tensor (mkFile payload 0)).
    + left. reflexivity.
    + left. reflexivity.
    + vm_compute. split; discriminate.
Defined.

(** What one tensor yields does not depend on where the cursor stands:
    the position is set from the descriptor. *)
Lemma extract_one_same_data (t : tensor) (f g : file) :
  data f = data g ->
  extract_one t f = extract_one t g
  \/ (extract_one t f = Raise ValueError f /\ extract_one t g = Raise ValueError g).
Proof.
  intros Hd. unfold extract_one, bind, seek.
  destruct ((tensor_offset t <? 0)%Z || (ssize_max <? tensor_offset t)%Z).
  - right. split; reflexivity.
  - left. rewrite Hd. reflexivity.
Qed.

Lemma tensor_data_loop_same_data (tensor_info : list tensor) :
  forall (ls : Dict.t layer) (log : list log_record) (f g : file),
    data f = data g ->
    fst (tensor_data_loop tensor_info ls log f) =
    fst (tensor_data_loop tensor_info ls log g).
Proof.
  induction tensor_info as [ | t rest IH]; intros ls log f g Hd.
  - reflexivity.
  - simpl.
    destruct (extract_one_same_data t f g Hd) as [E | [Ef Eg]].
    + rewrite E. reflexivity.
    + rewrite Ef, Eg. apply IH. exact Hd.
Qed.

Lemma extract_one_unsupported (t : tensor) (f : file) :
  tensor_type t <> 0%Z -> tensor_type t <> 1%Z ->
  (0 <= tensor_offset t <= ssize_max)%Z ->
  extract_one t f = Return None (mkFile (data f) (tensor_offset t)).
Proof.
  intros H0 H1 Hoff. unfold extract_one, bind.
  rewrite (seek_in_range _ f Hoff). cbv zeta.
  destruct (Z.eqb_spec (tensor_type t) 0); [contradiction | ].
  destruct (Z.eqb_spec (tensor_type t) 1); [contradiction | ].
  reflexivity.
Qed.

Lemma tensor_data_loop_skip (t : tensor) (post : list tensor) :
  tensor_type t <> 0%Z -> tensor_type t <> 1%Z ->
  (0 <= tensor_offset t <= ssize_max)%Z ->
  forall (pre : list tensor) (ls : Dict.t layer) (log : list log_record)
         (f : file),
    fst (tensor_data_loop (pre ++ t :: post) ls log f) =
    fst (tensor_data_loop (pre ++ post) ls log f).
Proof.
  intros H0 H1 Hoff. induction pre as [ | p pre IH]; intros ls log f.
  - simpl. rewrite (extract_one_unsupported t f H0 H1 Hoff).
    apply tensor_data_loop_same_data. reflexivity.
  - simpl. destruct (extract_one p f) as [[l | ] f1 | e f1]; apply IH.
Qed.

(** C8 (as stated, refuted): for a tensor of element type 2 the extractor
    logs nothing at all. *)
Lemma unsupported_type_logs_no_warning :
  _extract_tensor_data [unsupported_tensor] (mkFile payload 0) =
    ([], [], mkFile payload 0)
  /\ ~ (exists (nm : string) (e : exn),
          In (WarningTensorFailed nm e)
            (snd (fst (_extract_tensor_data [unsupported_tensor]
                         (mkFile payload 0))))).
Proof.
  split.
  - vm_compute. reflexivity.
  - intros (nm & e & H). vm_compute in H. exact H.
Qed.

(** C8 (amended): a descriptor whose element type is neither F32 nor F16
    (and whose offset the file can seek to) yields no buffer and no log
    record, warning included; the buffers and log records of all the other
    table entries are exactly those obtained when the descriptor is not in
    the table, so it neither aborts nor disturbs their extraction. *)
Theorem unsupported_type_skipped
    (pre post : list tensor) (t : tensor) (f : file) :
  tensor_type t <> 0%Z -> tensor_type t <> 1%Z ->
  (0 <= tensor_offset t <= ssize_max)%Z ->
  extract_one t f = Return None (mkFile (data f) (tensor_offset t))
  /\ fst (_extract_tensor_data (pre ++ t :: post) f) =
     fst (_extract_tensor_data (pre ++ post) f).
Proof.
  intros H0 H1 Hoff. split.
  - apply extract_one_unsupported; assumption.
  - unfold _extract_tensor_data. apply tensor_data_loop_skip; assumption.
Qed.

Lemma unsupported_type_skipped_witness :
  fst (_extract_tensor_data
         ([plain_tensor] ++ unsupported_tensor :: [zero_dim_tensor])
         (mkFile payload 0)) =
  ([("p"%string, mkLayer [Binary32 1; Binary32 2] [2]%Z 0);
    ("z"%string, mkLayer [] [0; 3]%Z 0)], []).
Proof.
  destruct (unsupported_type_skipped [plain_tensor] [zero_dim_tensor]
              unsupported_tensor (mkFile payload 0)) as [_ H].
  - vm_compute. discriminate.
  - vm_compute. discriminate.
  - vm_compute. split; discriminate.
  - rewrite H. vm_compute. reflexivity.
Defined.

(** ** Probe scores *)

Lemma len_nonneg {A} (l : list A) : 0 <= len l.
Proof.
  unfold len. change 0 with (inject_Z 0). rewrite <- Zle_Qle. lia.
Qed.

Lemma len_pos {A} (l : list A) : l <> [] -> 0 < len l.
Proof.
  intros H. unfold len. change 0 with (inject_Z 0). rewrite <- Zlt_Qlt.
  destruct l; [contradiction | simpl; lia].
Qed.

Lemma count_if_nonneg (p : string -> bool) (l : list string) : 0 <= count_if p l.
Proof. apply len_nonneg. Qed.

Lemma ratio_nonneg (a b : Q) : 0 <= a -> 0 <= b -> 0 <= a / b.
Proof.
  intros Ha Hb. unfold Qdiv. apply Qmult_le_0_compat; [exact Ha | ].
  apply Qinv_le_0_compat. exact Hb.
Qed.

Lemma length_bonus_nonneg (n : nat) :
  0 <= Qmin (3 # 10) (inject_Z (Z.of_nat n) / 100).
Proof.
  apply Q.min_glb; [discriminate | ].
  apply ratio_nonneg; [ | discriminate].
  change 0 with (inject_Z 0). rewrite <- Zle_Qle. lia.
Qed.

Lemma clamp_nonneg (score bonus : Q) :
  0 <= score -> 0 <= bonus -> 0 <= Qmin 1 (score + bonus).
Proof.
  intros Hs Hb. apply Q.min_glb; [discriminate | ].
  setoid_replace 0 with (0 + 0) by reflexivity.
  apply Qplus_le_compat; assumption.
Qed.

Lemma scored_range (p : string -> bool) (indicators : list string)
    (response : string) :
  0 <= scored (count_if p indicators) indicators response <= 1.
Proof.
  unfold scored. split.
  - apply clamp_nonneg.
    + apply ratio_nonneg; [apply count_if_nonneg | apply len_nonneg].
    + apply length_bonus_nonneg.
  - apply Q.le_min_l.
Qed.

Lemma score_response_blank (prompt response domain : string) :
  strip response = ""%string -> score_response prompt response domain = 0.
Proof. intros H. unfold score_response. rewrite H. reflexivity. Qed.

Lemma score_response_folded (prompt response domain : string) :
  strip response <> ""%string ->
  In domain ["coding"; "reasoning"; "language"; "creativity"; "knowledge"]%string ->
  score_response prompt response domain =
  scored
    (count_if (fun term => contains (lower term) (lower response))
       (spec_indicators domain))
    (spec_indicators domain) response.
Proof.
  intros Hs Hd. unfold score_response.
  destruct (String.eqb_spec (strip response) "") as [E | _]; [contradiction | ].
  simpl in Hd.
  destruct Hd as [<- | [<- | [<- | [<- | [<- | []]]]]]; reflexivity.
Qed.

Lemma score_response_mathematics (prompt response : string) :
  strip response <> ""%string ->
  score_response prompt response "mathematics" =
  scored (count_if (fun indicator => contains indicator response) math_indicators)
    math_indicators response.
Proof.
  intros Hs. unfold score_response.
  destruct (String.eqb_spec (strip response) "") as [E | _]; [contradiction | ].
  reflexivity.
Qed.

Lemma contains_char (c : ascii) (s : string) :
  contains (String c EmptyString) s = has_char (Ascii.eqb c) s.
Proof.
  induction s as [ | a s IH]; [reflexivity | ].
  simpl. rewrite IH. f_equal.
  destruct (ascii_dec c a) as [-> | N].
  - rewrite Ascii.eqb_refl. destruct s; reflexivity.
  - destruct (Ascii.eqb_spec c a); [contradiction | reflexivity].
Qed.

Lemma has_char_lower (p : ascii -> bool) (s : string) :
  has_char p (lower s) = has_char (fun a => p (lower_ascii a)) s.
Proof.
  induction s as [ | a s IH]; [reflexivity | ]. simpl. rewrite IH. reflexivity.
Qed.

Lemma has_char_ext (p q : ascii -> bool) (s : string) :
  has_char (fun a => Ascii.eqb "X" a || Ascii.eqb "Y" a) s = false ->
  (forall a, Ascii.eqb "X" a || Ascii.eqb "Y" a = false -> p a = q a) ->
  has_char p s = has_char q s.
Proof.
  intros Hs Hpq. induction s as [ | a s IH]; [reflexivity | ].
  simpl in *. apply orb_false_iff in Hs. destruct Hs as [Ha Hs].
  rewrite (Hpq a Ha), (IH Hs). reflexivity.
Qed.

Lemma has_char_or (p q : ascii -> bool) (s : string) :
  has_char (fun a => p a || q a) s = has_char p s || has_char q s.
Proof.
  induction s as [ | a s IH]; [reflexivity | ]. simpl. rewrite IH.
  destruct (p a), (q a), (has_char p s), (has_char q s); reflexivity.
Qed.

(** Folding the case of a character other than X and Y does not change
    whether it is one of the mathematics indicators. *)
Lemma math_chars_case (a : ascii) :
  Ascii.eqb "X" a || Ascii.eqb "Y" a = false ->
  forallb
    (fun c => Bool.eqb (Ascii.eqb c (lower_ascii a)) (Ascii.eqb c a))
    math_chars = true.
Proof.
  destruct a as [b0 b1 b2 b3 b4 b5 b6 b7].
  destruct b0, b1, b2, b3, b4, b5, b6, b7; vm_compute;
    intros H; solve [reflexivity | discriminate H].
Qed.

Lemma math_indicators_chars :
  math_indicators = map (fun c => String c EmptyString) math_chars.
Proof. reflexivity. Qed.

Lemma math_count_case (response : string) :
  contains "X" response = false ->
  contains "Y" response = false ->
  count_if (fun indicator => contains indicator response) math_indicators =
  count_if (fun term => contains (lower term) (lower response)) math_indicators.
Proof.
  intros HX HY. unfold count_if. f_equal.
  assert (Hno : has_char (fun a => Ascii.eqb "X" a || Ascii.eqb "Y" a) response
                = false).
  { rewrite has_char_or. rewrite <- !contains_char.
    change (String "X" EmptyString) with "X"%string.
    change (String "Y" EmptyString) with "Y"%string.
    rewrite HX, HY. reflexivity. }
  apply filter_ext_in. intros term Hin.
  rewrite math_indicators_chars in Hin. apply in_map_iff in Hin.
  destruct Hin as (c & <- & Hc).
  assert (Hl : lower (String c EmptyString) = String c EmptyString).
  { revert Hc. unfold math_chars. simpl.
    intros [<- | [<- | [<- | [<- | [<- | [<- | [<- | [<- | [<- | [<- | [<- |
           [<- | [<- | [<- | [<- | [<- | [<- | []]]]]]]]]]]]]]]]]];
      reflexivity. }
  rewrite Hl, !contains_char, has_char_lower.
  apply has_char_ext; [exact Hno | ].
  intros a Ha. pose proof (math_chars_case a Ha) as Hall.
  rewrite forallb_forall in Hall. specialize (Hall c Hc).
  apply Bool.eqb_prop in Hall. symmetry. exact Hall.
Qed.

(** The blank test and the length bonus go by code points: a response
    made of a no-break space or of an ideographic space is blank and scores
    0.0, and ten letters of two bytes each earn the bonus of ten
    characters. *)
Example score_response_code_points :
  strip (" " ++ nbsp ++ "a b" ++ e_acute ++ wide_space ++ nbsp)
  = ("a b" ++ e_acute)%string
  /\ py_len ten_letters = 10%nat
  /\ score_response "" nbsp "coding" == 0
  /\ score_response "" wide_space "coding" == 0
  /\ score_response "" ten_letters "coding" == 1 # 10.
Proof. repeat split; vm_compute; reflexivity. Qed.

(** C9 (as stated, refuted): a response made of one space scores 0.0 where
    the stated rule gives 0.01, and for mathematics the response ["X"]
    scores 0.01 where the stated rule, which ignores case, counts the
    indicator ["x"]. *)
Lemma probe_score_differs_from_stated_rule :
  ~ score_response "" " " "coding" == spec_probe_score " " "coding"
  /\ ~ score_response "" "X" "mathematics" == spec_probe_score "X" "mathematics".
Proof.
  split; intros H; vm_compute in H; discriminate H.
Qed.

(** C9 (amended): for every domain of the fixed set, a response that is
    empty or all white space (the white space of [str.strip]) scores 0.0;
    any other response -- for mathematics, any other response without a
    capital X or Y -- scores the number of the domain's indicator terms
    found in it without regard to case, divided by the number of indicator
    terms, plus [min(0.3, length/100)] with the length in characters (code
    points), clamped to the unit interval; and every score lies between 0
    and 1. *)
Theorem score_response_amended (prompt response domain : string) :
  In domain capability_domains ->
  (strip response = ""%string -> score_response prompt response domain = 0)
  /\ (strip response <> ""%string ->
      (domain <> "mathematics"%string
       \/ (contains "X" response = false /\ contains "Y" response = false)) ->
      score_response prompt response domain == spec_probe_score response domain)
  /\ 0 <= score_response prompt response domain <= 1.
Proof.
  intros Hd.
  assert (Hcases : domain = "mathematics"%string \/
                   In domain ["coding"; "reasoning"; "language"; "creativity";
                              "knowledge"]%string).
  { destruct Hd as [<- | Hd]; [left; reflexivity | right; exact Hd]. }
  split; [apply score_response_blank | ].
  split.
  - intros Hs Hcase. unfold spec_probe_score.
    destruct Hcases as [-> | Hother].
    + destruct Hcase as [N | [HX HY]]; [contradiction N; reflexivity | ].
      rewrite (score_response_mathematics _ _ Hs), (math_count_case _ HX HY).
      symmetry. apply Q.max_r.
      apply (scored_range _ math_indicators response).
    + rewrite (score_response_folded _ _ _ Hs Hother).
      symmetry. apply Q.max_r.
      apply (scored_range _ (spec_indicators domain) response).
  - destruct (string_dec (strip response) "") as [Hs | Hs].
    + rewrite (score_response_blank _ _ _ Hs). split; discriminate.
    + destruct Hcases as [-> | Hother].
      * rewrite (score_response_mathematics _ _ Hs). apply scored_range.
      * rewrite (score_response_folded _ _ _ Hs Hother). apply scored_range.
Qed.

Lemma score_response_amended_witness :
  score_response "Write a Python function to reverse a string:"
    "def f(x): return x" "coding" == 38 # 100
  /\ spec_probe_score "def f(x): return x" "coding" == 38 # 100.
Proof.
  destruct (score_response_amended
              "Write a Python function to reverse a string:"
              "def f(x): return x" "coding") as (_ & Heq & _).
  - vm_compute. right. left. reflexivity.
  - assert (E : score_response "Write a Python function to reverse a string:"
                  "def f(x): return x" "coding" == 38 # 100)
      by (vm_compute; reflexivity).
    split; [exact E | ].
    rewrite <- Heq; [exact E | vm_compute; discriminate | left; discriminate].
Defined.

(** ** Probed capabilities *)

Lemma capabilities_loop_domains
    (model : string -> Z -> option (string * Q)) (model_name : string)
    (allowed : list string) (tests : Dict.t (list string)) :
  forall capabilities : list ModelCapability,
    (forall kv, In kv tests -> In (fst kv) allowed) ->
    (forall c, In c capabilities -> In (domain c) allowed) ->
    forall c,
      In c (capabilities_loop model model_name tests capabilities) ->
      In (domain c) allowed.
Proof.
  induction tests as [ | [d prompts] rest IH]; intros caps Htests Hcaps c Hc.
  - apply Hcaps. exact Hc.
  - simpl in Hc.
    destruct (probe_loop model d prompts [] []) as [scores patterns].
    assert (Hrest : forall kv, In kv rest -> In (fst kv) allowed).
    { intros kv Hkv. apply Htests. right. exact Hkv. }
    match type of Hc with
    | context [if ?b then _ else _] => destruct b
    end.
    + apply (IH _ Hrest) in Hc; [exact Hc | ].
      intros c' Hc'. apply in_app_or in Hc'.
      destruct Hc' as [Hc' | [<- | []]]; [apply Hcaps; exact Hc' | ].
      simpl. apply (Htests (d, prompts)). left. reflexivity.
    + apply (IH _ Hrest) in Hc; [exact Hc | exact Hcaps].
Qed.

(** Every capability the prober reports belongs to one of the six domains
    of the fixed closed set. *)
Lemma extract_capabilities_domains
    (model : string -> Z -> option (string * Q)) (model_name : string)
    (c : ModelCapability) :
  In c (extract_capabilities model model_name) ->
  In (domain c) capability_domains.
Proof.
  unfold extract_capabilities.
  apply capabilities_loop_domains.
  - intros kv Hkv. unfold capability_tests in Hkv. simpl in Hkv.
    destruct Hkv as [<- | [<- | [<- | [<- | [<- | [<- | []]]]]]];
      vm_compute; tauto.
  - intros ? [].
Qed.

(** ** Dictionaries *)

Section DictFacts.
Context {V : Type}.

Lemma get_set_same (k : string) (v : V) (d : Dict.t V) :
  Dict.get k (Dict.set k v d) = Some v.
Proof.
  induction d as [ | [k' v'] d IH]; simpl.
  - rewrite String.eqb_refl. reflexivity.
  - destruct (String.eqb_spec k k') as [-> | N]; simpl.
    + rewrite String.eqb_refl. reflexivity.
    + destruct (String.eqb_spec k k'); [contradiction | exact IH].
Qed.

Lemma get_set_other (k k' : string) (v : V) (d : Dict.t V) :
  k <> k' -> Dict.get k' (Dict.set k v d) = Dict.get k' d.
Proof.
  intros N. induction d as [ | [k0 v0] d IH]; simpl.
  - destruct (String.eqb_spec k' k); [congruence | reflexivity].
  - destruct (String.eqb_spec k k0) as [-> | N0]; simpl.
    + destruct (String.eqb_spec k' k0); [congruence | reflexivity].
    + rewrite IH. reflexivity.
Qed.

Lemma set_fresh (k : string) (v : V) (d : Dict.t V) :
  ~ In k (Dict.keys d) -> Dict.set k v d = d ++ [(k, v)].
Proof.
  induction d as [ | [k' v'] d IH]; simpl; intros H.
  - reflexivity.
  - destruct (String.eqb_spec k k') as [-> | N].
    + exfalso. apply H. left. reflexivity.
    + rewrite IH; [reflexivity | ]. intros Hin. apply H. right. exact Hin.
Qed.

Lemma get_none_not_in (k : string) (d : Dict.t V) :
  Dict.get k d = None -> ~ In k (Dict.keys d).
Proof.
  induction d as [ | [k' v'] d IH]; simpl; intros H.
  - intros [].
  - destruct (String.eqb_spec k k') as [-> | N]; [discriminate H | ].
    intros [E | Hin]; [congruence | exact (IH H Hin)].
Qed.

Lemma get_some_in (k : string) (v : V) (d : Dict.t V) :
  Dict.get k d = Some v -> In (k, v) d.
Proof.
  induction d as [ | [k' v'] d IH]; simpl; intros H.
  - discriminate H.
  - destruct (String.eqb_spec k k') as [-> | N].
    + injection H as ->. left. reflexivity.
    + right. exact (IH H).
Qed.

Lemma in_get_nodup (k : string) (v : V) (d : Dict.t V) :
  NoDup (Dict.keys d) -> In (k, v) d -> Dict.get k d = Some v.
Proof.
  induction d as [ | [k' v'] d IH]; simpl; intros Hnd Hin.
  - contradiction.
  - inversion Hnd as [ | ? ? Hfresh Hnd']; subst.
    destruct Hin as [E | Hin].
    + injection E as -> ->. rewrite String.eqb_refl. reflexivity.
    + destruct (String.eqb_spec k k') as [-> | N].
      * exfalso. apply Hfresh. apply (in_map fst _ _ Hin).
      * exact (IH Hnd' Hin).
Qed.

(** A loop that stores one value per element under keys that are all new
    appends one item per element. *)
Lemma fold_set_fresh {X : Type} (kf : X -> string) (vf : X -> V) (l : list X) :
  forall acc : Dict.t V,
    NoDup (Dict.keys acc ++ map kf l) ->
    fold_left (fun d x => Dict.set (kf x) (vf x) d) l acc =
    acc ++ map (fun x => (kf x, vf x)) l.
Proof.
  induction l as [ | x l IH]; intros acc Hnd; simpl.
  - rewrite app_nil_r. reflexivity.
  - simpl in Hnd.
    assert (Hfresh : ~ In (kf x) (Dict.keys acc)).
    { intros Hin. apply NoDup_remove_2 in Hnd. apply Hnd.
      apply in_or_app. left. exact Hin. }
    rewrite (set_fresh _ _ _ Hfresh), IH.
    + rewrite <- app_assoc. reflexivity.
    + unfold Dict.keys. rewrite map_app. simpl. rewrite <- app_assoc. exact Hnd.
Qed.
End DictFacts.

Lemma fold_left_same {A B : Type} (f g : A -> B -> A) (l : list B) :
  (forall a b, f a b = g a b) ->
  forall a, fold_left f l a = fold_left g l a.
Proof.
  intros H. induction l as [ | b l IH]; intros a; simpl.
  - reflexivity.
  - rewrite H. apply IH.
Qed.

(** ** Registered signatures *)

Lemma set_add_in (x y : string) (s : list string) :
  In x (set_add y s) <-> x = y \/ In x s.
Proof.
  unfold set_add. destruct (existsb (String.eqb y) s) eqn:E.
  - split; [intros H; right; exact H | ].
    intros [-> | H]; [ | exact H].
    apply existsb_exists in E. destruct E as (z & Hz & Ez).
    apply String.eqb_eq in Ez. subst z. exact Hz.
  - rewrite in_app_iff. simpl. split.
    + intros [H | [<- | []]]; [right; exact H | left; reflexivity].
    + intros [-> | H]; [right; left; reflexivity | left; exact H].
Qed.

Lemma set_add_nodup (y : string) (s : list string) :
  NoDup s -> NoDup (set_add y s).
Proof.
  intros H. unfold set_add. destruct (existsb (String.eqb y) s) eqn:E.
  - exact H.
  - apply NoDup_app; [exact H | constructor; [intros [] | constructor] | ].
    intros a Ha [Ey | []]. subst a.
    assert (Hex : existsb (String.eqb y) s = true).
    { apply existsb_exists. exists y. split; [exact Ha | apply String.eqb_refl]. }
    rewrite Hex in E. discriminate E.
Qed.

Lemma keys_set {V : Type} (k : string) (v : V) (d : Dict.t V) :
  Dict.keys (Dict.set k v d) = set_add k (Dict.keys d).
Proof.
  unfold set_add. induction d as [ | [k' v'] d IH]; simpl.
  - reflexivity.
  - destruct (String.eqb_spec k k') as [-> | N]; simpl.
    + reflexivity.
    + rewrite IH. destruct (existsb (String.eqb k) (Dict.keys d)); reflexivity.
Qed.

Lemma register_keys (signatures : list ModelSignature) :
  forall d : Dict.t ModelSignature,
    Dict.keys (register_signatures signatures d) =
    fold_left (fun seen x => set_add x seen) (map model_name signatures)
      (Dict.keys d).
Proof.
  induction signatures as [ | s l IH]; intros d; simpl.
  - reflexivity.
  - unfold register_signatures in *. simpl. rewrite IH, keys_set. reflexivity.
Qed.

Lemma fold_set_add_nodup (names : list string) :
  forall seen, NoDup seen ->
               NoDup (fold_left (fun seen x => set_add x seen) names seen).
Proof.
  induction names as [ | x l IH]; intros seen H; simpl.
  - exact H.
  - apply IH. apply set_add_nodup. exact H.
Qed.

Lemma register_nodup (signatures : list ModelSignature) :
  NoDup (Dict.keys (register_signatures signatures [])).
Proof.
  rewrite register_keys. apply fold_set_add_nodup. constructor.
Qed.

Lemma set_in_inv {V : Type} (k k' : string) (v v' : V) (d : Dict.t V) :
  In (k', v') (Dict.set k v d) -> (k' = k /\ v' = v) \/ In (k', v') d.
Proof.
  induction d as [ | [k0 v0] d IH]; simpl.
  - intros [E | []]. injection E as <- <-. left. split; reflexivity.
  - destruct (String.eqb_spec k k0) as [-> | N]; simpl.
    + intros [E | H]; [injection E as <- <-; left; split; reflexivity | ].
      right. right. exact H.
    + intros [E | H]; [right; left; exact E | ].
      destruct (IH H) as [L | R]; [left; exact L | right; right; exact R].
Qed.

(** Every registered signature is one of the run, stored under its own
    name. *)
Lemma register_in (signatures : list ModelSignature) :
  forall (d : Dict.t ModelSignature) (n : string) (s : ModelSignature),
    In (n, s) (register_signatures signatures d) ->
    In (n, s) d \/ (In s signatures /\ n = model_name s).
Proof.
  induction signatures as [ | x l IH]; intros d n s H.
  - left. exact H.
  - unfold register_signatures in *. simpl in H.
    destruct (IH _ _ _ H) as [Hd | [Hl Hn]].
    + destruct (set_in_inv _ _ _ _ _ Hd) as [[-> ->] | Hd'].
      * right. split; [left; reflexivity | reflexivity].
      * left. exact Hd'.
    + right. split; [right; exact Hl | exact Hn].
Qed.

(** With pairwise distinct artifact names nothing is replaced: the
    registered signatures are the signatures of the run, in their order. *)
Lemma register_distinct (signatures : list ModelSignature) :
  NoDup (map model_name signatures) ->
  register_signatures signatures [] =
  map (fun s => (model_name s, s)) signatures.
Proof.
  intros Hnd. unfold register_signatures.
  apply (fold_set_fresh model_name (fun s => s) signatures []). exact Hnd.
Qed.

(** ** Capability matrix *)

Lemma domain_row_map (ms : Dict.t ModelSignature) (d : string) :
  NoDup (Dict.keys ms) ->
  domain_row ms d = map (fun kv => (fst kv, row_value d (snd kv))) ms.
Proof.
  intros Hnd. unfold domain_row.
  transitivity
    (fold_left (fun row kv => Dict.set (fst kv) (row_value d (snd kv)) row) ms []).
  - apply fold_left_same. intros row kv. unfold row_value.
    destruct (filter (fun cap => String.eqb (domain cap) d)
                (capabilities (snd kv)));
      reflexivity.
  - apply (fold_set_fresh fst (fun kv => row_value d (snd kv)) ms []).
    exact Hnd.
Qed.

Lemma all_domains_fold_in (caps : list ModelCapability) :
  forall (s : list string) (d : string),
    In d (fold_left (fun s capability => set_add (domain capability) s) caps s)
    <-> In d s \/ exists c, In c caps /\ domain c = d.
Proof.
  induction caps as [ | c caps IH]; intros s d; simpl.
  - split; [intros H; left; exact H | intros [H | (c & [] & _)]; exact H].
  - rewrite IH, set_add_in. split.
    + intros [[-> | H] | (c' & Hc & E)].
      * right. exists c. split; [left; reflexivity | reflexivity].
      * left. exact H.
      * right. exists c'. split; [right; exact Hc | exact E].
    + intros [H | (c' & [<- | Hc] & E)].
      * left. right. exact H.
      * left. left. symmetry. exact E.
      * right. exists c'. split; assumption.
Qed.

Lemma all_domains_fold_nodup (caps : list ModelCapability) :
  forall s, NoDup s ->
            NoDup (fold_left (fun s capability => set_add (domain capability) s)
                     caps s).
Proof.
  induction caps as [ | c caps IH]; intros s H; simpl.
  - exact H.
  - apply IH. apply set_add_nodup. exact H.
Qed.

Lemma all_domains_in_gen (sigs : list ModelSignature) :
  forall (s : list string) (d : string),
    In d (fold_left
            (fun s signature =>
               fold_left (fun s capability => set_add (domain capability) s)
                 (capabilities signature) s) sigs s)
    <-> In d s \/ exists sg c, In sg sigs /\ In c (capabilities sg) /\ domain c = d.
Proof.
  induction sigs as [ | sg sigs IH]; intros s d; simpl.
  - split; [intros H; left; exact H | intros [H | (x & c & [] & _)]; exact H].
  - rewrite IH, all_domains_fold_in. split.
    + intros [[H | (c & Hc & E)] | (x & c & Hx & Hc & E)].
      * left. exact H.
      * right. exists sg, c. split; [left; reflexivity | split; assumption].
      * right. exists x, c. split; [right; exact Hx | split; assumption].
    + intros [H | (x & c & [<- | Hx] & Hc & E)].
      * left. left. exact H.
      * left. right. exists c. split; assumption.
      * right. exists x, c. split; [exact Hx | split; assumption].
Qed.

Lemma all_domains_in (ms : Dict.t ModelSignature) (d : string) :
  In d (all_domains_of ms) <->
  exists n s c, In (n, s) ms /\ In c (capabilities s) /\ domain c = d.
Proof.
  unfold all_domains_of. rewrite all_domains_in_gen. split.
  - intros [[] | (s & c & Hs & Hc & E)].
    unfold Dict.values in Hs. apply in_map_iff in Hs.
    destruct Hs as ([n s'] & <- & Hin).
    exists n, s', c. split; [exact Hin | split; assumption].
  - intros (n & s & c & Hin & Hc & E). right. exists s, c.
    split; [ | split; assumption].
    unfold Dict.values. apply in_map_iff. exists (n, s). split; [reflexivity | exact Hin].
Qed.

Lemma all_domains_nodup (ms : Dict.t ModelSignature) :
  NoDup (all_domains_of ms).
Proof.
  unfold all_domains_of. generalize (Dict.values ms) as sigs.
  assert (G : forall sigs s, NoDup s ->
              NoDup (fold_left
                       (fun s signature =>
                          fold_left
                            (fun s capability => set_add (domain capability) s)
                            (capabilities signature) s) sigs s)).
  { induction sigs as [ | sg sigs IH]; intros s H; simpl.
    - exact H.
    - apply IH. apply all_domains_fold_nodup. exact H. }
  intros sigs. apply G. constructor.
Qed.

Lemma capability_matrix_map (ms : Dict.t ModelSignature) :
  build_capability_matrix ms [] =
  map (fun d => (d, domain_row ms d)) (all_domains_of ms).
Proof.
  unfold build_capability_matrix.
  rewrite (fold_set_fresh (fun d => d) (domain_row ms) (all_domains_of ms) []).
  - reflexivity.
  - simpl. rewrite map_id. apply all_domains_nodup.
Qed.

Lemma get_map_self {V : Type} (vf : string -> V) (d : string) (l : list string) :
  Dict.get d (map (fun x => (x, vf x)) l) =
  if in_dec string_dec d l then Some (vf d) else None.
Proof.
  induction l as [ | x l IH]; simpl.
  - reflexivity.
  - destruct (String.eqb_spec d x) as [E | N].
    + subst x. destruct (string_dec d d) as [E | C]; [reflexivity | contradiction].
    + rewrite IH. destruct (string_dec x d) as [E | N']; [congruence | ].
      destruct (in_dec string_dec d l); reflexivity.
Qed.

Lemma capability_matrix_get (ms : Dict.t ModelSignature) (d : string) :
  Dict.get d (build_capability_matrix ms []) =
  if in_dec string_dec d (all_domains_of ms) then Some (domain_row ms d) else None.
Proof.
  rewrite capability_matrix_map. apply get_map_self.
Qed.

Lemma row_get (ms : Dict.t ModelSignature) (d n : string) (s : ModelSignature) :
  NoDup (Dict.keys ms) -> In (n, s) ms ->
  Dict.get n (domain_row ms d) = Some (row_value d s).
Proof.
  intros Hnd Hin. rewrite (domain_row_map ms d Hnd).
  apply in_get_nodup.
  - unfold Dict.keys. rewrite map_map. simpl. exact Hnd.
  - apply in_map_iff. exists (n, s). split; [reflexivity | exact Hin].
Qed.

(** C6 (as stated, refuted): of two signatures under the same name the
    second replaces the first, so its domain -- coding -- has no row in the
    matrix although the first signature has a capability in it. *)
Lemma shared_name_leaves_domain_out :
  (exists c, In c (capabilities sig_A_coding) /\ domain c = "coding"%string)
  /\ Dict.get "coding"
       (build_capability_matrix
          (register_signatures [sig_A_coding; sig_A_maths] []) []) = None
  /\ Dict.keys
       (build_capability_matrix
          (register_signatures [sig_A_coding; sig_A_maths] []) [])
     = ["mathematics"%string]
  /\ Dict.values (register_signatures [sig_A_coding; sig_A_maths] [])
     = [sig_A_maths].
Proof.
  split.
  - exists (capability_of "A" "coding" (8 # 10)).
    split; [left; reflexivity | reflexivity].
  - split; [vm_compute; reflexivity | ].
    split; vm_compute; reflexivity.
Qed.

(** C6 (amended): the capability matrix is dense over the registered
    signatures.  For every domain that occurs in a capability of a
    registered signature the matrix has a row, and the row has exactly one
    entry per registered name, in their order: the mean strength of that
    signature's capabilities in the domain, and 0.0 when it has none.
    Signatures are registered by artifact name; when the names of the N
    given signatures are pairwise distinct, the registered signatures are
    exactly those N, and the matrix is dense over the N given signatures:
    for every domain in a capability of any of them, there is a row with an
    entry for each of them. *)
Theorem capability_matrix_dense
    (signatures : list ModelSignature) (d : string) :
  let model_signatures := register_signatures signatures [] in
  let capability_matrix := build_capability_matrix model_signatures [] in
  (NoDup (map model_name signatures) ->
   Dict.values model_signatures = signatures)
  /\ (NoDup (map model_name signatures) ->
      (exists s c,
          In s signatures /\ In c (capabilities s) /\ domain c = d) ->
      exists row,
        Dict.get d capability_matrix = Some row
        /\ Dict.keys row = map model_name signatures
        /\ forall s,
            In s signatures ->
            exists q,
              Dict.get (model_name s) row = Some q
              /\ q = row_value d s
              /\ (filter (fun cap => String.eqb (domain cap) d)
                    (capabilities s) = [] -> q = 0))
  /\ ((exists n s c,
          In (n, s) model_signatures /\ In c (capabilities s) /\ domain c = d) ->
      exists row,
        Dict.get d capability_matrix = Some row
        /\ Dict.keys row = Dict.keys model_signatures
        /\ forall n s,
            In (n, s) model_signatures ->
            exists q,
              Dict.get n row = Some q
              /\ q = row_value d s
              /\ (filter (fun cap => String.eqb (domain cap) d)
                    (capabilities s) = [] -> q = 0)).
Proof.
  intros ms M. subst M. split.
  { intros Hdistinct. unfold ms. rewrite (register_distinct _ Hdistinct).
    unfold Dict.values. rewrite map_map. simpl. apply map_id. }
  assert (Hdense :
            (exists n s c,
                In (n, s) ms /\ In c (capabilities s) /\ domain c = d) ->
            exists row,
              Dict.get d (build_capability_matrix ms []) = Some row
              /\ Dict.keys row = Dict.keys ms
              /\ forall n s,
                  In (n, s) ms ->
                  exists q,
                    Dict.get n row = Some q
                    /\ q = row_value d s
                    /\ (filter (fun cap => String.eqb (domain cap) d)
                          (capabilities s) = [] -> q = 0)).
  { intros Hd.
    pose proof (register_nodup signatures) as Hnd. fold ms in Hnd.
    exists (domain_row ms d). split; [ | split].
    - rewrite capability_matrix_get.
      destruct (in_dec string_dec d (all_domains_of ms)) as [Hin | N];
        [reflexivity | ].
      exfalso. apply N. apply all_domains_in. exact Hd.
    - rewrite (domain_row_map ms d Hnd). unfold Dict.keys. rewrite map_map.
      reflexivity.
    - intros n s Hin. exists (row_value d s).
      split; [apply row_get; assumption | ].
      split; [reflexivity | ].
      intros E. unfold row_value. rewrite E. reflexivity. }
  split; [ | exact Hdense].
  intros Hdistinct (s0 & c & Hs0 & Hc & Hdom).
  assert (Ems : ms = map (fun s => (model_name s, s)) signatures)
    by (unfold ms; apply register_distinct; exact Hdistinct).
  assert (Hreg : forall s, In s signatures -> In (model_name s, s) ms).
  { intros s Hs. rewrite Ems. apply in_map_iff. exists s.
    split; [reflexivity | exact Hs]. }
  destruct Hdense as (row & Hrow & Hkeys & Hall).
  { exists (model_name s0), s0, c.
    split; [apply Hreg; exact Hs0 | split; [exact Hc | exact Hdom]]. }
  exists row. split; [exact Hrow | split].
  - rewrite Hkeys, Ems. unfold Dict.keys. rewrite map_map. reflexivity.
  - intros s Hs. apply (Hall (model_name s) s). apply Hreg. exact Hs.
Qed.

Lemma capability_matrix_dense_witness :
  Dict.values (register_signatures [sig_A; sig_B; sig_null] []) =
    [sig_A; sig_B; sig_null]
  /\ (exists row,
         Dict.get "coding"
           (build_capability_matrix
              (register_signatures [sig_A; sig_B; sig_null] []) []) = Some row
         /\ Dict.keys row = ["A"; "B"; "m"]%string
         /\ forall s,
             In s [sig_A; sig_B; sig_null] ->
             exists q,
               Dict.get (model_name s) row = Some q
               /\ q = row_value "coding" s
               /\ (filter (fun cap => String.eqb (domain cap) "coding")
                     (capabilities s) = [] -> q = 0))
  /\ (exists row,
         Dict.get "mathematics"
           (build_capability_matrix
              (register_signatures [sig_A_coding; sig_A_maths] []) [])
         = Some row
         /\ Dict.keys row =
            Dict.keys (register_signatures [sig_A_coding; sig_A_maths] [])
         /\ forall n s,
             In (n, s) (register_signatures [sig_A_coding; sig_A_maths] []) ->
             exists q,
               Dict.get n row = Some q
               /\ q = row_value "mathematics" s
               /\ (filter (fun cap => String.eqb (domain cap) "mathematics")
                     (capabilities s) = [] -> q = 0)).
Proof.
  assert (Hnames : NoDup (map model_name [sig_A; sig_B; sig_null])).
  { vm_compute. repeat constructor; simpl; intuition discriminate. }
  destruct (capability_matrix_dense [sig_A; sig_B; sig_null] "coding")
    as (Hsame & Hgiven & _).
  destruct (capability_matrix_dense [sig_A_coding; sig_A_maths] "mathematics")
    as (_ & _ & Hregistered).
  split; [apply Hsame; exact Hnames | ].
  split.
  - apply Hgiven; [exact Hnames | ].
    exists sig_A, (capability_of "A" "coding" (2 # 10)).
    split; [left; reflexivity | ].
    split; [right; left; reflexivity | reflexivity].
  - apply Hregistered.
    exists "A"%string, sig_A_maths, (capability_of "A" "mathematics" (9 # 10)).
    split; [vm_compute; left; reflexivity | ].
    split; [left; reflexivity | reflexivity].
Defined.

(** ** Routing table *)

Lemma Qlt_bool_iff (a b : Q) : Qlt_bool a b = true <-> a < b.
Proof.
  unfold Qlt_bool. rewrite negb_true_iff. split.
  - intros H. apply Qnot_le_lt. intros Hle.
    apply Qle_bool_iff in Hle. rewrite Hle in H. discriminate H.
  - intros H. destruct (Qle_bool b a) eqn:E; [ | reflexivity].
    apply Qle_bool_iff in E. exfalso. exact (Qlt_not_le _ _ H E).
Qed.

Lemma Qlt_bool_false (a b : Q) : Qlt_bool a b = false <-> b <= a.
Proof.
  unfold Qlt_bool. rewrite negb_false_iff. apply Qle_bool_iff.
Qed.

(** [max_from] returns the first item that no item exceeds: the items
    before it are strictly smaller, the items after it are not larger. *)
Lemma max_from_first (items : list (string * Q)) :
  forall best : string * Q,
  exists before after,
    best :: items = before ++ max_from best items :: after
    /\ (forall x, In x before -> snd x < snd (max_from best items))
    /\ (forall x, In x after -> snd x <= snd (max_from best items)).
Proof.
  induction items as [ | x rest IH]; intros best.
  - exists [], []. simpl. split; [reflexivity | split; intros ? []].
  - simpl. destruct (Qlt_bool (snd best) (snd x)) eqn:E.
    + apply Qlt_bool_iff in E.
      destruct (IH x) as (before & after & Heq & Hb & Ha).
      remember (max_from x rest) as mx eqn:Emx. clear Emx.
      exists (best :: before), after. split; [ | split].
      * simpl. rewrite <- Heq. reflexivity.
      * intros y [<- | Hy]; [ | apply Hb; exact Hy].
        destruct before as [ | b0 before'].
        -- simpl in Heq. injection Heq as Hx _. rewrite <- Hx. exact E.
        -- simpl in Heq. injection Heq as Hx _. subst b0.
           apply (Qlt_trans _ (snd x)); [exact E | ].
           apply Hb. left. reflexivity.
      * exact Ha.
    + apply Qlt_bool_false in E.
      destruct (IH best) as (before & after & Heq & Hb & Ha).
      remember (max_from best rest) as mx eqn:Emx. clear Emx.
      destruct before as [ | b0 before'].
      * simpl in Heq. injection Heq as Hm Hrest. subst mx rest.
        exists [], (x :: after). split; [reflexivity | split].
        -- intros ? [].
        -- intros y [<- | Hy]; [exact E | apply Ha; exact Hy].
      * simpl in Heq. injection Heq as Hb0 Hrest. subst b0 rest.
        exists (best :: x :: before'), after. split; [reflexivity | split].
        -- intros y [<- | [<- | Hy]].
           ++ apply Hb. left. reflexivity.
           ++ apply (Qle_lt_trans _ (snd best)); [exact E | ].
              apply Hb. left. reflexivity.
           ++ apply Hb. right. exact Hy.
        -- exact Ha.
Qed.

Lemma py_max_first (items : list (string * Q)) :
  items <> [] ->
  exists best before after,
    py_max items = Ok best
    /\ items = before ++ best :: after
    /\ (forall x, In x before -> snd x < snd best)
    /\ (forall x, In x after -> snd x <= snd best).
Proof.
  destruct items as [ | x rest]; [contradiction | intros _].
  destruct (max_from_first rest x) as (before & after & Heq & Hb & Ha).
  exists (max_from x rest), before, after. simpl.
  split; [reflexivity | split; [exact Heq | split; assumption]].
Qed.

Lemma domain_experts_get (ms : Dict.t ModelSignature)
    (M : Dict.t (Dict.t Q)) (domains : list string) :
  (forall d, In d domains ->
             exists best, get_best_model_for_domain ms M d = Ok best) ->
  exists experts,
    domain_experts ms M domains = Ok experts
    /\ forall d best,
        In d domains -> get_best_model_for_domain ms M d = Ok best ->
        Dict.get d experts = Some best.
Proof.
  induction domains as [ | d0 rest IH]; intros Hall.
  - exists []. split; [reflexivity | intros ? ? []].
  - destruct (Hall d0 (or_introl eq_refl)) as (b0 & Hb0).
    destruct IH as (experts & Hex & Hget).
    { intros d Hd. apply Hall. right. exact Hd. }
    exists ((d0, b0) :: experts). simpl. rewrite Hb0, Hex.
    split; [reflexivity | ].
    intros d best Hd Hbest. simpl.
    destruct (String.eqb_spec d d0) as [E | N].
    + subst d. rewrite Hb0 in Hbest. injection Hbest as <-. reflexivity.
    + destruct Hd as [E | Hd]; [congruence | ]. apply Hget; assumption.
Qed.

Lemma get_best_total (ms : Dict.t ModelSignature) (d : string) :
  NoDup (Dict.keys ms) -> ms <> [] ->
  exists best,
    get_best_model_for_domain ms (build_capability_matrix ms []) d = Ok best.
Proof.
  intros Hnd Hne. unfold get_best_model_for_domain.
  rewrite capability_matrix_get.
  destruct (in_dec string_dec d (all_domains_of ms)) as [Hin | Hout].
  - destruct (py_max_first (domain_row ms d)) as (best & _ & _ & E & _).
    + rewrite (domain_row_map ms d Hnd). destruct ms; [contradiction | discriminate].
    + rewrite E. exists (fst best). reflexivity.
  - destruct ms as [ | [n s] ms']; [contradiction | ].
    exists n. reflexivity.
Qed.



(** ** Fusion weights *)

Lemma fold_Qplus_shift (l : list Q) :
  forall a : Q, fold_left Qplus l a == a + fold_left Qplus l 0.
Proof.
  induction l as [ | x l IH]; intros a; simpl.
  - ring.
  - rewrite (IH (a + x)), (IH (0 + x)). ring.
Qed.

Lemma Qsum_cons (x : Q) (l : list Q) : Qsum (x :: l) == x + Qsum l.
Proof.
  unfold Qsum. simpl. rewrite fold_Qplus_shift. ring.
Qed.

Lemma Qsum_nonneg (l : list Q) :
  (forall x, In x l -> 0 <= x) -> 0 <= Qsum l.
Proof.
  induction l as [ | x l IH]; intros H.
  - discriminate.
  - rewrite Qsum_cons. setoid_replace 0 with (0 + 0) by reflexivity.
    apply Qplus_le_compat.
    + apply H. left. reflexivity.
    + apply IH. intros y Hy. apply H. right. exact Hy.
Qed.


Lemma Qsum_zero (l : list Q) :
  (forall x, In x l -> x == 0) -> Qsum l == 0.
Proof.
  induction l as [ | x l IH]; intros H.
  - reflexivity.
  - rewrite Qsum_cons, (H x (or_introl eq_refl)), IH; [ring | ].
    intros y Hy. apply H. right. exact Hy.
Qed.


Lemma overall_weight_nonneg (s : ModelSignature) :
  (forall v, In v (Dict.values (strengths s)) -> 0 <= v) ->
  0 <= overall_weight s.
Proof.
  intros H. unfold overall_weight.
  setoid_replace 0 with (0 + 0) by reflexivity.
  apply Qplus_le_compat.
  - apply Qmult_le_0_compat; [ | discriminate].
    destruct (Dict.values (strengths s)) as [ | v l] eqn:E; [discriminate | ].
    apply ratio_nonneg; [apply Qsum_nonneg; exact H | apply len_nonneg].
  - apply Qmult_le_0_compat; [ | discriminate].
    apply ratio_nonneg; [apply len_nonneg | discriminate].
Qed.

Lemma raw_weights_map (ms : Dict.t ModelSignature) :
  NoDup (Dict.keys ms) ->
  raw_weights ms = map (fun kv => (fst kv, overall_weight (snd kv))) ms.
Proof.
  intros Hnd. unfold raw_weights.
  apply (fold_set_fresh fst (fun kv => overall_weight (snd kv)) ms []).
  exact Hnd.
Qed.

Lemma raw_weights_values (ms : Dict.t ModelSignature) :
  NoDup (Dict.keys ms) ->
  Dict.values (raw_weights ms) = map overall_weight (Dict.values ms).
Proof.
  intros Hnd. rewrite (raw_weights_map ms Hnd).
  unfold Dict.values. rewrite !map_map. reflexivity.
Qed.





(** ** Weight merger *)

(** C3 (the code departs from it): two feed-forward tensors of one artifact
    are both stored under the name [unified_ffn_0], because the branch for
    feed-forward tensors does not advance [layer_counter] as the branch for
    attention tensors does; the second overwrites the first, so of two input
    tensors one is left in the output. *)
Theorem merge_overwrites_feed_forward :
  merge_extracted_weights [Some ffn_weights] =
    mkUnified [] [] [] [("unified_ffn_0"%string, ffn_down)] []
  /\ List.length (input_tensors [Some ffn_weights]) = 2%nat
  /\ List.length (unified_tensors (merge_extracted_weights [Some ffn_weights]))
     = 1%nat
  /\ In ffn_up (map snd (input_tensors [Some ffn_weights]))
  /\ ~ In ffn_up
       (map snd (unified_tensors (merge_extracted_weights [Some ffn_weights]))).
Proof.
  split; [vm_compute; reflexivity | ].
  split; [reflexivity | ].
  split; [vm_compute; reflexivity | ].
  split; [left; reflexivity | ].
  vm_compute. intros [H | []]. discriminate H.
Qed.

(** ** Archives *)

(** What the loop over the unpacked files returns when it returns a
    signature: the file it comes from is the first that yields one, and the
    loader raised on none of the files tried before it. *)
Lemma first_signature_found
    (dissect : path -> result (option ModelSignature))
    (extracted_models : list path) (signature : ModelSignature) :
  first_signature dissect extracted_models = Ok (Some signature) ->
  exists before p after,
    extracted_models = before ++ p :: after
    /\ dissect p = Ok (Some signature)
    /\ forall q, In q before -> dissect q = Ok None.
Proof.
  induction extracted_models as [ | p rest IH]; simpl; intros H.
  - discriminate H.
  - destruct (dissect p) as [[s | ] | e] eqn:E.
    + injection H as <-. exists [], p, rest.
      split; [reflexivity | split; [exact E | intros ? []]].
    + destruct (IH H) as (before & p' & after & -> & Hp & Hb).
      exists (p :: before), p', after.
      split; [reflexivity | split; [exact Hp | ]].
      intros q [<- | Hq]; [exact E | apply Hb; exact Hq].
    + discriminate H.
Qed.

(** One failure ends the search: when the loader raises on an unpacked
    file before any file has yielded a signature, the archive yields none. *)
Lemma first_signature_raise
    (dissect : path -> result (option ModelSignature))
    (before after : list path) (p : path) (e : exn) :
  (forall q, In q before -> dissect q = Ok None) ->
  dissect p = Err e ->
  first_signature dissect (before ++ p :: after) = Err e.
Proof.
  intros Hb Hp. induction before as [ | q before IH]; simpl.
  - rewrite Hp. reflexivity.
  - rewrite (Hb q (or_introl eq_refl)). apply IH.
    intros q' Hq'. apply Hb. right. exact Hq'.
Qed.

(** C10 (the code departs from it): the archive unpacks to a file the loader
    refuses, followed by [B.gguf], which dissects successfully on its own;
    the refusal of the first file is raised out of the loop, and the archive
    yields no signature instead of the signature of [B.gguf]. *)
Theorem archive_stops_at_first_failure :
  sample_walk (mkPath "models" "bundle.tar") =
    Ok [mkPath "tmp" "cut.gguf"; mkPath "tmp" "B.gguf"]
  /\ dissect_model_structure sample_dissect sample_walk (mkPath "tmp" "B.gguf")
     = Some sig_B
  /\ dissect_model_structure sample_dissect sample_walk
       (mkPath "models" "bundle.tar") = None
  /\ collect_signatures sample_dissect sample_walk
       [mkPath "models" "bundle.tar"] [] = [].
Proof.
  repeat split; vm_compute; reflexivity.
Qed.

(** * Further properties *)

(** ** Reading fields *)

Lemma remaining_length (f : file) :
  List.length (remaining f) = (List.length (data f) - Z.to_nat (pos f))%nat.
Proof. unfold remaining. apply length_skipn. Qed.

Lemma remaining_after (f : file) (n : Z) :
  (0 <= pos f)%Z -> (0 <= n)%Z ->
  remaining (mkFile (data f) (pos f + n)) = skipn (Z.to_nat n) (remaining f).
Proof.
  intros Hp Hn. unfold remaining. simpl.
  rewrite skipn_skipn. f_equal. lia.
Qed.

Lemma read_ok (n : Z) (f : file) :
  (0 <= n <= ssize_max)%Z ->
  (Z.to_nat n <= List.length (remaining f))%nat ->
  read n f =
  Return (firstn (Z.to_nat n) (remaining f)) (mkFile (data f) (pos f + n)).
Proof.
  intros [H0 H1] Hlen. rewrite (read_fits n f H1).
  rewrite length_firstn, Nat.min_l by exact Hlen.
  rewrite Z2Nat.id by exact H0. reflexivity.
Qed.

Lemma unpack_uint_ok (w : nat) (bs : list byte) (f : file) :
  List.length bs = w -> unpack_uint w bs f = Return (le_uint bs) f.
Proof.
  intros H. unfold unpack_uint. rewrite H, Nat.eqb_refl. reflexivity.
Qed.

(** A fixed-width unsigned field followed by the rest of a decoder: with
    [w] bytes left the field is taken from them, with fewer the decoder
    stops with [struct.error] at the end of the file. *)
Lemma read_field {A} (w : nat) (k : Z -> io A) (f : file) :
  (w <= 8)%nat ->
  (bs <- read (Z.of_nat w) ;; v <- unpack_uint w bs ;; k v) f =
  if (w <=? List.length (remaining f))%nat
  then k (le_uint (firstn w (remaining f)))
         (mkFile (data f) (pos f + Z.of_nat w))
  else Raise StructError
         (mkFile (data f) (pos f + Z.of_nat (List.length (remaining f)))).
Proof.
  intros Hw. destruct (Nat.leb_spec w (List.length (remaining f))) as [Hle | Hlt].
  - unfold bind. rewrite read_ok.
    + rewrite Nat2Z.id. rewrite unpack_uint_ok; [reflexivity | ].
      rewrite length_firstn. lia.
    + unfold ssize_max. lia.
    + rewrite Nat2Z.id. exact Hle.
  - pose proof (fixed_width_short w f Hw Hlt) as E. unfold bind in *.
    destruct (read (Z.of_nat w) f) as [bs f1 | e f1].
    + destruct (unpack_uint w bs f1) as [v f2 | e f2].
      * discriminate E.
      * injection E as -> ->. reflexivity.
    + injection E as -> ->. reflexivity.
Qed.

Lemma byte_val_range (b : byte) : (0 <= byte_val b < 256)%Z.
Proof.
  unfold byte_val. pose proof (Byte.to_N_bounded b) as H. lia.
Qed.

(** Joining a byte with the higher bytes by [lor] adds them up. *)
Lemma lor_shift_add (a b : Z) :
  (0 <= a < 256)%Z -> Z.lor a (Z.shiftl b 8) = (a + 256 * b)%Z.
Proof.
  intros Ha. rewrite Z.shiftl_mul_pow2 by lia. change (2 ^ 8)%Z with 256%Z.
  rewrite <- Z.lxor_lor, <- Z.add_nocarry_lxor.
  - lia.
  - apply Z.bits_inj'. intros i Hi. rewrite Z.land_spec, Z.bits_0.
    destruct (Z.ltb_spec i 8).
    + replace (b * 256)%Z with (b * 2 ^ 8)%Z by reflexivity.
      rewrite Z.mul_pow2_bits_low by lia. apply andb_false_r.
    + assert (Ea : Z.testbit a i = false).
      { destruct (Z.eq_dec a 0) as [-> | N]; [apply Z.bits_0 | ].
        apply Z.bits_above_log2; [lia | ].
        assert (Z.log2 a < 8)%Z by (apply Z.log2_lt_pow2; lia). lia. }
      rewrite Ea. reflexivity.
  - apply Z.bits_inj'. intros i Hi. rewrite Z.land_spec, Z.bits_0.
    destruct (Z.ltb_spec i 8).
    + replace (b * 256)%Z with (b * 2 ^ 8)%Z by reflexivity.
      rewrite Z.mul_pow2_bits_low by lia. apply andb_false_r.
    + assert (Ea : Z.testbit a i = false).
      { destruct (Z.eq_dec a 0) as [-> | N]; [apply Z.bits_0 | ].
        apply Z.bits_above_log2; [lia | ].
        assert (Z.log2 a < 8)%Z by (apply Z.log2_lt_pow2; lia). lia. }
      rewrite Ea. reflexivity.
Qed.

Lemma le_uint_cons (b : byte) (bs : list byte) :
  le_uint (b :: bs) = (byte_val b + 256 * le_uint bs)%Z.
Proof. simpl. apply lor_shift_add. apply byte_val_range. Qed.

(** An unsigned field of [n] bytes lies below [2^(8n)]. *)
Lemma le_uint_range (bs : list byte) :
  (0 <= le_uint bs < 2 ^ (8 * Z.of_nat (List.length bs)))%Z.
Proof.
  induction bs as [ | b bs IH].
  - simpl. lia.
  - rewrite le_uint_cons. pose proof (byte_val_range b) as Hb.
    replace (8 * Z.of_nat (List.length (b :: bs)))%Z
      with (8 + 8 * Z.of_nat (List.length bs))%Z by (simpl List.length; lia).
    rewrite Z.pow_add_r by lia. change (2 ^ 8)%Z with 256%Z. nia.
Qed.

Lemma firstn_skipn_length {A} (n : nat) (l : list A) :
  (n <= List.length l)%nat -> List.length (firstn n l) = n.
Proof. intros H. rewrite length_firstn. lia. Qed.

(** ** Header *)

(** X1: the header is read from the 20 bytes after the magic.  With 20
    bytes left, [read_header] returns a version below [2^32] and two counts
    below [2^64] and leaves the cursor 20 bytes further; with fewer it
    raises [struct.error]. *)
Theorem read_header_needs_20_bytes (f : file) :
  (0 <= pos f)%Z ->
  ((20 <= List.length (remaining f))%nat ->
   exists version tensor_count kv_count,
     read_header f =
       Return (version, tensor_count, kv_count) (mkFile (data f) (pos f + 20))
     /\ (0 <= version < 2 ^ 32)%Z
     /\ (0 <= tensor_count < 2 ^ 64)%Z
     /\ (0 <= kv_count < 2 ^ 64)%Z)
  /\ ((List.length (remaining f) < 20)%nat ->
      exists f', read_header f = Raise StructError f').
Proof.
  intros Hpos.
  unfold read_header, unpack_I, unpack_Q.
  change (read 4) with (read (Z.of_nat 4)).
  change (read 8) with (read (Z.of_nat 8)).
  rewrite (read_field 4) by lia.
  set (f1 := mkFile (data f) (pos f + Z.of_nat 4)).
  assert (R1 : remaining f1 = skipn 4 (remaining f)).
  { unfold f1. rewrite remaining_after by lia. reflexivity. }
  assert (L1 : List.length (remaining f1) = (List.length (remaining f) - 4)%nat).
  { rewrite R1. apply length_skipn. }
  split.
  - intros Hlen.
    destruct (Nat.leb_spec 4 (List.length (remaining f))) as [_ | C]; [ | lia].
    rewrite (read_field 8) by lia.
    destruct (Nat.leb_spec 8 (List.length (remaining f1))) as [_ | C]; [ | lia].
    set (f2 := mkFile (data f1) (pos f1 + Z.of_nat 8)).
    assert (L2 : List.length (remaining f2) = (List.length (remaining f1) - 8)%nat).
    { unfold f2. rewrite remaining_after by (unfold f1; simpl; lia).
      apply length_skipn. }
    rewrite (read_field 8) by lia.
    destruct (Nat.leb_spec 8 (List.length (remaining f2))) as [_ | C]; [ | lia].
    eexists. eexists. eexists. split.
    + unfold ret, f2, f1. simpl. f_equal. f_equal. lia.
    + pose proof (le_uint_range (firstn 4 (remaining f))) as B1.
      pose proof (le_uint_range (firstn 8 (remaining f1))) as B2.
      pose proof (le_uint_range (firstn 8 (remaining f2))) as B3.
      rewrite firstn_skipn_length in B1, B2, B3 by lia.
      split; [exact B1 | split; [exact B2 | exact B3]].
  - intros Hlen.
    destruct (Nat.leb_spec 4 (List.length (remaining f))) as [H4 | H4];
      [ | eexists; reflexivity].
    rewrite (read_field 8) by lia.
    destruct (Nat.leb_spec 8 (List.length (remaining f1))) as [H8 | H8];
      [ | eexists; reflexivity].
    set (f2 := mkFile (data f1) (pos f1 + Z.of_nat 8)).
    assert (L2 : List.length (remaining f2) = (List.length (remaining f1) - 8)%nat).
    { unfold f2. rewrite remaining_after by (unfold f1; simpl; lia).
      apply length_skipn. }
    rewrite (read_field 8) by lia.
    destruct (Nat.leb_spec 8 (List.length (remaining f2))) as [H8' | H8'];
      [lia | eexists; reflexivity].
Qed.

(** ** Decoding what was encoded *)

Lemma decodes_ret {A} (v : A) : decodes (ret v) [] v.
Proof.
  intros f rest _ _. unfold ret. simpl. rewrite Z.add_0_r.
  destruct f; reflexivity.
Qed.

Lemma decodes_bind {A B} (c : io A) (k : A -> io B)
    (bs bs' : list byte) (v : A) (w : B) :
  decodes c bs v -> decodes (k v) bs' w ->
  decodes (x <- c ;; k x) (bs ++ bs') w.
Proof.
  intros Hc Hk f rest Hp Hr. unfold bind.
  rewrite <- app_assoc in Hr. rewrite (Hc f (bs' ++ rest) Hp Hr).
  rewrite (Hk _ rest).
  - simpl. rewrite length_app, Nat2Z.inj_add, Z.add_assoc. reflexivity.
  - simpl. lia.
  - rewrite remaining_after by lia. rewrite Nat2Z.id, Hr.
    rewrite skipn_app, skipn_all, Nat.sub_diag. reflexivity.
Qed.

Lemma decodes_read (bs : list byte) :
  (Z.of_nat (List.length bs) <= ssize_max)%Z ->
  decodes (read (Z.of_nat (List.length bs))) bs bs.
Proof.
  intros Hmax f rest Hp Hr. rewrite read_ok.
  - rewrite Nat2Z.id, Hr, firstn_app, firstn_all, Nat.sub_diag.
    simpl. rewrite app_nil_r. reflexivity.
  - lia.
  - rewrite Nat2Z.id, Hr, length_app. lia.
Qed.

Lemma decodes_unpack_uint (w : nat) (bs : list byte) :
  List.length bs = w -> decodes (unpack_uint w bs) [] (le_uint bs).
Proof.
  intros H f rest _ _. rewrite (unpack_uint_ok w bs f H).
  simpl. rewrite Z.add_0_r. destruct f; reflexivity.
Qed.

Lemma byte_val_of_Z (z : Z) : byte_val (byte_of_Z z) = (z mod 256)%Z.
Proof.
  unfold byte_val, byte_of_Z.
  pose proof (Z.mod_pos_bound z 256 ltac:(lia)) as Hm.
  destruct (Byte.of_N (Z.to_N (z mod 256))) as [b | ] eqn:E.
  - apply Byte.to_of_N in E. rewrite E. lia.
  - apply Byte.of_N_None_iff in E. lia.
Qed.

Lemma pack_uint_length (n : nat) : forall v, List.length (pack_uint n v) = n.
Proof.
  induction n as [ | n IH]; intros v; simpl; [reflexivity | ].
  rewrite IH. reflexivity.
Qed.

(** Packing and reading back an unsigned field keeps the value modulo the
    width of the field. *)
Lemma le_uint_pack (n : nat) :
  forall v, le_uint (pack_uint n v) = (v mod 2 ^ (8 * Z.of_nat n))%Z.
Proof.
  induction n as [ | n IH]; intros v.
  - simpl. rewrite Z.mod_1_r. reflexivity.
  - change (pack_uint (S n) v) with (byte_of_Z v :: pack_uint n (Z.shiftr v 8)).
    rewrite le_uint_cons, byte_val_of_Z, IH.
    rewrite Z.shiftr_div_pow2 by lia. change (2 ^ 8)%Z with 256%Z.
    replace (8 * Z.of_nat (S n))%Z with (8 + 8 * Z.of_nat n)%Z by lia.
    rewrite Z.pow_add_r by lia. change (2 ^ 8)%Z with 256%Z.
    rewrite Z.rem_mul_r by lia. reflexivity.
Qed.

Lemma le_uint_pack_id (n : nat) (v : Z) :
  (0 <= v < 2 ^ (8 * Z.of_nat n))%Z -> le_uint (pack_uint n v) = v.
Proof. intros H. rewrite le_uint_pack. apply Z.mod_small. exact H. Qed.

(** A packed unsigned field in front of what a continuation decodes. *)
Lemma decodes_field {A} (w : nat) (v : Z) (k : Z -> io A)
    (bs' : list byte) (r : A) :
  (w <= 8)%nat ->
  (0 <= v < 2 ^ (8 * Z.of_nat w))%Z ->
  decodes (k v) bs' r ->
  decodes (bs <- read (Z.of_nat w) ;; x <- unpack_uint w bs ;; k x)
    (pack_uint w v ++ bs') r.
Proof.
  intros Hw Hv Hk.
  apply (decodes_bind _ _ _ _ (pack_uint w v)).
  - rewrite <- (pack_uint_length w v) at 1. apply decodes_read.
    rewrite pack_uint_length. unfold ssize_max. lia.
  - change bs' with ([] ++ bs').
    apply (decodes_bind _ _ _ _ v).
    + rewrite <- (le_uint_pack_id w v Hv) at 2.
      apply decodes_unpack_uint. apply pack_uint_length.
    + exact Hk.
Qed.

Lemma list_byte_of_string_length (s : string) :
  List.length (list_byte_of_string s) = String.length s.
Proof.
  unfold list_byte_of_string. rewrite length_map.
  induction s as [ | a s IH]; simpl; [reflexivity | rewrite IH; reflexivity].
Qed.

(** The bytes of a well-formed text in front of what a continuation
    decodes; the length read before is the length of the text. *)
Lemma decodes_text {A} (s : string) (k : string -> io A)
    (bs' : list byte) (r : A) :
  utf8_valid (list_byte_of_string s) = true ->
  (Z.of_nat (String.length s) <= ssize_max)%Z ->
  decodes (k s) bs' r ->
  decodes (nb <- read (Z.of_nat (String.length s)) ;; x <- decode_utf8 nb ;; k x)
    (list_byte_of_string s ++ bs') r.
Proof.
  intros Hv Hlen Hk.
  apply (decodes_bind _ _ _ _ (list_byte_of_string s)).
  - rewrite <- (list_byte_of_string_length s) at 1. apply decodes_read.
    rewrite list_byte_of_string_length. exact Hlen.
  - change bs' with ([] ++ bs').
    apply (decodes_bind _ _ _ _ s); [ | exact Hk].
    unfold decode_utf8. rewrite Hv, string_of_list_byte_of_string.
    apply decodes_ret.
Qed.

Lemma decodes_dims (ds : list Z) :
  Forall (fun d => 0 <= d < 2 ^ 64)%Z ds ->
  forall acc, decodes (dims_loop (List.length ds) acc)
                (flat_map (pack_uint 8) ds) (acc ++ ds).
Proof.
  induction 1 as [ | d ds Hd Hds IH]; intros acc.
  - simpl. rewrite app_nil_r. apply decodes_ret.
  - change (flat_map (pack_uint 8) (d :: ds))
      with (pack_uint 8 d ++ flat_map (pack_uint 8) ds).
    change (dims_loop (List.length (d :: ds)) acc)
      with (bs <- read (Z.of_nat 8) ;; d0 <- unpack_uint 8 bs ;;
            dims_loop (List.length ds) (acc ++ [d0])).
    apply (decodes_field 8 d); [lia | exact Hd | ].
    replace (acc ++ d :: ds) with ((acc ++ [d]) ++ ds)
      by (rewrite <- app_assoc; reflexivity).
    apply IH.
Qed.

Lemma decodes_entry (t : tensor) :
  encodable t -> decodes tensor_entry (pack_entry t) t.
Proof.
  intros (Hutf & Hlen & Hnd & Hds & Hty & Hoff).
  unfold tensor_entry, pack_entry, pack_str, unpack_Q, unpack_I.
  change (read 8) with (read (Z.of_nat 8)).
  change (read 4) with (read (Z.of_nat 4)).
  rewrite <- app_assoc.
  apply (decodes_field 8 (Z.of_nat (String.length (tensor_name t))));
    [lia | unfold ssize_max in Hlen; lia | ].
  apply decodes_text; [exact Hutf | exact Hlen | ].
  apply (decodes_field 4 (Z.of_nat (List.length (tensor_dims t))));
    [lia | lia | ].
  rewrite Nat2Z.id.
  apply (decodes_bind _ _ _ _ (tensor_dims t)).
  { apply (decodes_dims _ Hds []). }
  apply (decodes_field 4 (tensor_type t)); [lia | exact Hty | ].
  rewrite <- (app_nil_r (pack_uint 8 (tensor_offset t))).
  apply (decodes_field 8 (tensor_offset t)); [lia | exact Hoff | ].
  destruct t. apply decodes_ret.
Qed.

Lemma decodes_table (ts : list tensor) :
  Forall encodable ts ->
  forall acc, decodes (tensor_info_loop (List.length ts) acc)
                (flat_map pack_entry ts) (acc ++ ts).
Proof.
  induction 1 as [ | t ts Ht Hts IH]; intros acc.
  - simpl. rewrite app_nil_r. apply decodes_ret.
  - change (flat_map pack_entry (t :: ts))
      with (pack_entry t ++ flat_map pack_entry ts).
    change (tensor_info_loop (List.length (t :: ts)) acc)
      with (t0 <- tensor_entry ;;
            tensor_info_loop (List.length ts) (acc ++ [t0])).
    apply (decodes_bind _ _ _ _ t); [apply decodes_entry; exact Ht | ].
    replace (acc ++ t :: ts) with ((acc ++ [t]) ++ ts)
      by (rewrite <- app_assoc; reflexivity).
    apply IH.
Qed.

Lemma rest_after_block (f : file) (block rest : list byte) :
  (0 <= pos f)%Z ->
  remaining f = block ++ rest ->
  remaining (mkFile (data f) (pos f + Z.of_nat (List.length block))) = rest.
Proof.
  intros Hpos Hrem. rewrite remaining_after by lia. rewrite Nat2Z.id, Hrem.
  rewrite skipn_app, skipn_all, Nat.sub_diag. reflexivity.
Qed.

(** X2: the tensor table decoder inverts the table layout.  When the
    stream holds next the entries of encodable descriptors -- length-prefixed
    name, 4-byte dimension count, 8-byte dimensions, 4-byte element type,
    8-byte offset, all little-endian -- [_extract_tensor_info] with their
    number returns exactly these descriptors, in order, and leaves the
    cursor on the first byte after the table. *)
Theorem tensor_table_round_trip
    (ts : list tensor) (f : file) (rest : list byte) :
  Forall encodable ts ->
  (0 <= pos f)%Z ->
  remaining f = flat_map pack_entry ts ++ rest ->
  _extract_tensor_info (Z.of_nat (List.length ts)) f =
    Return ts
      (mkFile (data f)
         (pos f + Z.of_nat (List.length (flat_map pack_entry ts))))
  /\ remaining
       (mkFile (data f)
          (pos f + Z.of_nat (List.length (flat_map pack_entry ts)))) = rest.
Proof.
  intros Henc Hpos Hrem. split.
  - unfold _extract_tensor_info. rewrite Nat2Z.id.
    apply (decodes_table ts Henc [] f rest Hpos Hrem).
  - apply rest_after_block; assumption.
Qed.

(** ** Entries of an unknown type *)

(** The metadata loop continues where a shorter run of itself stopped. *)
Lemma metadata_loop_split (k m : nat) :
  forall (metadata : Dict.t pyvalue) (f : file),
    metadata_loop (k + m) metadata f =
    match metadata_loop k metadata f with
    | Return d f' => metadata_loop m d f'
    | Raise e f' => Raise e f'
    end.
Proof.
  induction k as [ | k IH]; intros metadata f.
  - reflexivity.
  - cbn [Nat.add metadata_loop]. unfold bind.
    destruct (read 8 f) as [bs f1 | e f1]; [ | reflexivity].
    destruct (unpack_Q bs f1) as [key_len f2 | e f2]; [ | reflexivity].
    destruct (read key_len f2) as [kb f3 | e f3]; [ | reflexivity].
    destruct (decode_utf8 kb f3) as [key f4 | e f4]; [ | reflexivity].
    destruct (read 4 f4) as [tb f5 | e f5]; [ | reflexivity].
    destruct (unpack_I tb f5) as [value_type f6 | e f6]; [ | reflexivity].
    destruct (_read_metadata_value value_type f6) as [value f7 | e f7];
      [ | reflexivity].
    apply IH.
Qed.

(** C1 (amended): for a type tag outside 0..8, [_read_metadata_value]
    returns [None], raises nothing and leaves the cursor where it was.  So
    when the metadata loop comes to an entry with such a tag -- key length,
    key, tag -- it binds the key to [None] in the dictionary, whatever the
    dictionary held before, and goes on with its remaining rounds at the
    byte right behind the tag. *)
Theorem read_metadata_value_unknown_tag (value_type : Z) :
  (value_type < 0 \/ 8 < value_type)%Z ->
  (forall f : file, _read_metadata_value value_type f = Return PyNone f)
  /\ (forall (key : string) (metadata : Dict.t pyvalue) (n : nat)
             (f : file) (rest : list byte),
         utf8_valid (list_byte_of_string key) = true ->
         (Z.of_nat (String.length key) <= ssize_max)%Z ->
         (0 <= value_type < 2 ^ 32)%Z ->
         (0 <= pos f)%Z ->
         remaining f = pack_str key ++ pack_uint 4 value_type ++ rest ->
         metadata_loop (S n) metadata f =
         metadata_loop n (Dict.set key PyNone metadata)
           (mkFile (data f)
              (pos f + (8 + Z.of_nat (String.length key) + 4)))).
Proof.
  intros H.
  assert (Hnone : forall f : file,
             _read_metadata_value value_type f = Return PyNone f).
  { intros f. unfold _read_metadata_value.
    repeat match goal with
           | |- context [(value_type =? ?k)%Z] =>
               destruct (Z.eqb_spec value_type k) as [E | _]; [lia | ]
           end.
    reflexivity. }
  split; [exact Hnone | ].
  intros key metadata n f rest Hutf Hlen Hv Hp Hr.
  assert (Hround : decodes (metadata_loop 1 metadata)
                     (pack_str key ++ pack_uint 4 value_type)
                     (Dict.set key PyNone metadata)).
  { change (metadata_loop 1 metadata)
      with (bs <- read (Z.of_nat 8) ;; key_len <- unpack_uint 8 bs ;;
            kb <- read key_len ;; key0 <- decode_utf8 kb ;;
            tb <- read (Z.of_nat 4) ;; value_type0 <- unpack_uint 4 tb ;;
            value <- _read_metadata_value value_type0 ;;
            ret (Dict.set key0 value metadata)).
    unfold pack_str. rewrite <- app_assoc.
    apply (decodes_field 8 (Z.of_nat (String.length key)));
      [lia | unfold ssize_max in Hlen; lia | ].
    apply decodes_text; [exact Hutf | exact Hlen | ].
    rewrite <- (app_nil_r (pack_uint 4 value_type)).
    apply (decodes_field 4 value_type);
      [lia | change (2 ^ (8 * Z.of_nat 4))%Z with (2 ^ 32)%Z; exact Hv | ].
    intros g rest' Hg Hr'. unfold bind. rewrite Hnone.
    exact (decodes_ret _ g rest' Hg Hr'). }
  rewrite app_assoc in Hr.
  change (S n) with (1 + n)%nat.
  rewrite metadata_loop_split, (Hround f rest Hp Hr).
  f_equal. f_equal.
  unfold pack_str.
  rewrite !length_app, !pack_uint_length, list_byte_of_string_length. lia.
Qed.

Lemma read_metadata_value_unknown_tag_witness :
  _read_metadata_value 9 (mkFile unknown_tag_entry 9) =
    Return PyNone (mkFile unknown_tag_entry 9)
  /\ metadata_loop 1 [("k"%string, PyInt 7)] (mkFile unknown_tag_entry 0) =
       Return [("k"%string, PyNone)] (mkFile unknown_tag_entry 13).
Proof.
  destruct (read_metadata_value_unknown_tag 9) as [Hvalue Hbound].
  - right. reflexivity.
  - split; [apply Hvalue | ].
    assert (Hutf : utf8_valid (list_byte_of_string "k") = true)
      by reflexivity.
    assert (Hlen : (Z.of_nat (String.length "k") <= ssize_max)%Z)
      by (vm_compute; discriminate).
    assert (Hv : (0 <= 9 < 2 ^ 32)%Z) by (split; [discriminate | reflexivity]).
    assert (Hp : (0 <= pos (mkFile unknown_tag_entry 0))%Z)
      by (vm_compute; discriminate).
    assert (Hr : remaining (mkFile unknown_tag_entry 0) =
                 pack_str "k" ++ pack_uint 4 9 ++ [])
      by reflexivity.
    exact (Hbound "k"%string [("k"%string, PyInt 7)] 0%nat
             (mkFile unknown_tag_entry 0) [] Hutf Hlen Hv Hp Hr).
Defined.

Lemma to_signed_pack (w : Z) (z : Z) :
  (0 < w)%Z -> (- 2 ^ (w - 1) <= z < 2 ^ (w - 1))%Z ->
  to_signed w (z mod 2 ^ w) = z.
Proof.
  intros Hw Hz. unfold to_signed.
  assert (E : (2 ^ w = 2 * 2 ^ (w - 1))%Z).
  { rewrite <- Z.pow_succ_r by lia. f_equal. lia. }
  assert (P : (0 < 2 ^ (w - 1))%Z) by (apply Z.pow_pos_nonneg; lia).
  destruct (Z.ltb_spec z 0) as [Hneg | Hpos].
  - assert (M : (z mod 2 ^ w = z + 2 ^ w)%Z).
    { symmetry. apply (Z.mod_unique _ _ (-1)); lia. }
    rewrite M. destruct (Z.ltb_spec (z + 2 ^ w) (2 ^ (w - 1))); lia.
  - rewrite Z.mod_small by lia.
    destruct (Z.ltb_spec z (2 ^ (w - 1))); lia.
Qed.

Lemma decodes_map_uint {A} (w : nat) (bs : list byte) (g : Z -> A) :
  List.length bs = w ->
  decodes (v <- unpack_uint w bs ;; ret (g v)) [] (g (le_uint bs)).
Proof.
  intros H. change (@nil byte) with (@nil byte ++ []).
  apply (decodes_bind _ _ _ _ (le_uint bs)).
  - apply decodes_unpack_uint. exact H.
  - apply decodes_ret.
Qed.

(** A packed field read and mapped: [bs <- read w ;; v <- u bs ;; ret (h v)]
    where [u] unpacks [w] bytes and applies [g]. *)
Lemma decodes_signed {A B} (w : nat) (z : Z) (g : Z -> B) (h : B -> A) :
  (w <= 8)%nat ->
  decodes
    (bs <- read (Z.of_nat w) ;;
     v <- (u <- unpack_uint w bs ;; ret (g u)) ;; ret (h v))
    (pack_uint w z) (h (g (le_uint (pack_uint w z)))).
Proof.
  intros Hw. rewrite <- (app_nil_r (pack_uint w z)) at 1.
  apply (decodes_bind _ _ _ _ (pack_uint w z)).
  - rewrite <- (pack_uint_length w z) at 1. apply decodes_read.
    rewrite pack_uint_length. unfold ssize_max. lia.
  - change (@nil byte) with (@nil byte ++ []).
    apply (decodes_bind _ _ _ _ (g (le_uint (pack_uint w z)))).
    + apply decodes_map_uint. apply pack_uint_length.
    + apply decodes_ret.
Qed.

Lemma decodes_value (v : typed_value) :
  storable v ->
  decodes (_read_metadata_value (tag_of v)) (pack_value v) (py_of v).
Proof.
  destruct v as [z | z | z | z | z | z | bits | b | s]; intros Hs;
    unfold _read_metadata_value;
    cbn beta iota delta [tag_of Z.eqb Pos.eqb pack_value py_of];
    cbn [storable] in Hs.
  - rewrite <- (app_nil_r (pack_uint 1 z)).
    apply (decodes_field 1 z (fun v => ret (PyInt v))); [lia | lia | ].
    apply decodes_ret.
  - replace (PyInt z)
      with (PyInt (to_signed 8 (le_uint (pack_uint 1 z)))).
    + apply (decodes_signed 1 z (to_signed 8) PyInt). lia.
    + rewrite le_uint_pack. change (2 ^ (8 * Z.of_nat 1))%Z with (2 ^ 8)%Z.
      rewrite to_signed_pack; [reflexivity | lia | exact Hs].
  - rewrite <- (app_nil_r (pack_uint 2 z)).
    apply (decodes_field 2 z (fun v => ret (PyInt v))); [lia | lia | ].
    apply decodes_ret.
  - replace (PyInt z)
      with (PyInt (to_signed 16 (le_uint (pack_uint 2 z)))).
    + apply (decodes_signed 2 z (to_signed 16) PyInt). lia.
    + rewrite le_uint_pack. change (2 ^ (8 * Z.of_nat 2))%Z with (2 ^ 16)%Z.
      rewrite to_signed_pack; [reflexivity | lia | exact Hs].
  - rewrite <- (app_nil_r (pack_uint 4 z)).
    apply (decodes_field 4 z (fun v => ret (PyInt v))); [lia | lia | ].
    apply decodes_ret.
  - replace (PyInt z)
      with (PyInt (to_signed 32 (le_uint (pack_uint 4 z)))).
    + apply (decodes_signed 4 z (to_signed 32) PyInt). lia.
    + rewrite le_uint_pack. change (2 ^ (8 * Z.of_nat 4))%Z with (2 ^ 32)%Z.
      rewrite to_signed_pack; [reflexivity | lia | exact Hs].
  - replace (PyFloat (Binary32 bits))
      with (PyFloat (Binary32 (le_uint (pack_uint 4 bits)))).
    + apply (decodes_signed 4 bits Binary32 PyFloat). lia.
    + rewrite le_uint_pack_id; [reflexivity | exact Hs].
  - rewrite <- (app_nil_r (pack_uint 1 _)).
    apply (decodes_field 1 (if b then 1 else 0)%Z
             (fun v => ret (PyBool (negb (v =? 0)%Z))));
      [lia | destruct b; lia | ].
    destruct b; apply decodes_ret.
  - destruct Hs as [Hutf Hlen]. unfold pack_str.
    apply (decodes_field 8 (Z.of_nat (String.length s)));
      [lia | unfold ssize_max in Hlen; lia | ].
    rewrite <- (app_nil_r (list_byte_of_string s)).
    apply decodes_text; [exact Hutf | exact Hlen | ].
    apply decodes_ret.
Qed.

Lemma decodes_metadata (es : list (string * typed_value)) :
  Forall storable_entry es ->
  forall metadata,
    decodes (metadata_loop (List.length es) metadata)
      (flat_map pack_meta es)
      (fold_left (fun d e => Dict.set (fst e) (py_of (snd e)) d) es metadata).
Proof.
  induction 1 as [ | [key v] es (Hutf & Hlen & Hv) Hes IH]; intros metadata.
  - apply decodes_ret.
  - cbn [fst snd] in Hutf, Hlen, Hv.
    change (flat_map pack_meta ((key, v) :: es))
      with (pack_meta (key, v) ++ flat_map pack_meta es).
    change (metadata_loop (List.length ((key, v) :: es)) metadata)
      with (bs <- read (Z.of_nat 8) ;; key_len <- unpack_uint 8 bs ;;
            kb <- read key_len ;; key0 <- decode_utf8 kb ;;
            tb <- read (Z.of_nat 4) ;; value_type <- unpack_uint 4 tb ;;
            value <- _read_metadata_value value_type ;;
            metadata_loop (List.length es) (Dict.set key0 value metadata)).
    unfold pack_meta, pack_str. simpl fst. simpl snd.
    rewrite <- !app_assoc.
    apply (decodes_field 8 (Z.of_nat (String.length key)));
      [lia | unfold ssize_max in Hlen; lia | ].
    apply decodes_text; [exact Hutf | exact Hlen | ].
    apply (decodes_field 4 (tag_of v));
      [lia | change (2 ^ (8 * Z.of_nat 4))%Z with 4294967296%Z;
             destruct v; cbn [tag_of]; lia | ].
    apply (decodes_bind _ _ _ _ (py_of v)); [apply decodes_value; exact Hv | ].
    apply IH.
Qed.

(** X3: the metadata decoder inverts the metadata layout.  When the stream
    holds next the entries of storable values -- length-prefixed key, 4-byte
    type tag, then the value in the encoding of its type --
    [_extract_metadata] with their number returns the dictionary obtained by
    assigning the values to their keys in order (a repeated key keeps its
    last value), and leaves the cursor on the first byte after the block. *)
Theorem metadata_round_trip
    (es : list (string * typed_value)) (f : file) (rest : list byte) :
  Forall storable_entry es ->
  (0 <= pos f)%Z ->
  remaining f = flat_map pack_meta es ++ rest ->
  _extract_metadata (Z.of_nat (List.length es)) f =
    Return
      (fold_left (fun d e => Dict.set (fst e) (py_of (snd e)) d) es [])
      (mkFile (data f)
         (pos f + Z.of_nat (List.length (flat_map pack_meta es))))
  /\ remaining
       (mkFile (data f)
          (pos f + Z.of_nat (List.length (flat_map pack_meta es)))) = rest.
Proof.
  intros Hes Hpos Hrem. split.
  - unfold _extract_metadata. rewrite Nat2Z.id.
    apply (decodes_metadata es Hes [] f rest Hpos Hrem).
  - apply rest_after_block; assumption.
Qed.

(** ** What a successful decode has consumed *)

Lemma consumes_ret {A} (v : A) (P : A -> Prop) : P v -> consumes (ret v) 0 P.
Proof.
  intros HP f f' v' Hp E. unfold ret in E. injection E as <- <-.
  split; [reflexivity | split; [lia | exact HP]].
Qed.

Lemma consumes_weaken {A} (c : io A) (m m' : Z) (P Q : A -> Prop) :
  consumes c m P -> (m' <= m)%Z -> (forall v, P v -> Q v) -> consumes c m' Q.
Proof.
  intros Hc Hm HPQ f f' v Hp E. destruct (Hc f f' v Hp E) as (Hd & Hb & HP).
  split; [exact Hd | split; [lia | apply HPQ; exact HP]].
Qed.

Lemma consumes_bind {A B} (c : io A) (k : A -> io B) (m m' : Z)
    (P : A -> Prop) (Q : B -> Prop) :
  (0 <= m)%Z ->
  consumes c m P -> (forall a, P a -> consumes (k a) m' Q) ->
  consumes (x <- c ;; k x) (m + m') Q.
Proof.
  intros Hm Hc Hk f f' v Hp E. unfold bind in E.
  destruct (c f) as [a f1 | e f1] eqn:Ec; [ | discriminate E].
  destruct (Hc f f1 a Hp Ec) as (Hd1 & Hb1 & HP).
  destruct (Hk a HP f1 f' v ltac:(lia) E) as (Hd2 & Hb2 & HQ).
  split; [congruence | split; [ | exact HQ]].
  pose proof (remaining_length f) as L. pose proof (remaining_length f1) as L1.
  rewrite Hd1 in L1. lia.
Qed.

Lemma consumes_read (n : Z) :
  consumes (read n) 0 (fun _ => True).
Proof.
  intros f f' v Hp E. unfold read in E.
  destruct (ssize_max <? n)%Z; [discriminate E | ].
  injection E as <- <-. cbn [data pos].
  split; [reflexivity | split; [ | exact I]].
  rewrite length_firstn. lia.
Qed.

Lemma consumes_decode_utf8 (bs : list byte) :
  consumes (decode_utf8 bs) 0 (fun _ => True).
Proof.
  unfold decode_utf8. destruct (utf8_valid bs).
  - apply consumes_ret. exact I.
  - intros f f' v _ E. discriminate E.
Qed.

(** A fixed-width field in a decoder that returns: the field was there in
    full, and its value is below [2^(8w)]. *)
Lemma consumes_field {A} (w : nat) (k : Z -> io A) (m : Z) (Q : A -> Prop) :
  (w <= 8)%nat ->
  (forall v, (0 <= v < 2 ^ (8 * Z.of_nat w))%Z -> consumes (k v) m Q) ->
  consumes (bs <- read (Z.of_nat w) ;; v <- unpack_uint w bs ;; k v)
    (Z.of_nat w + m) Q.
Proof.
  intros Hw Hk f f' v Hp E. rewrite (read_field w k f Hw) in E.
  destruct (Nat.leb_spec w (List.length (remaining f))) as [Hle | Hlt];
    [ | discriminate E].
  pose proof (le_uint_range (firstn w (remaining f))) as Hr.
  rewrite firstn_skipn_length in Hr by exact Hle.
  assert (Hp1 : (0 <= pos (mkFile (data f) (pos f + Z.of_nat w)))%Z)
    by (cbn [pos]; lia).
  destruct (Hk _ Hr _ f' v Hp1 E) as (Hd & Hb & HQ).
  cbn [data pos] in Hd, Hb.
  split; [exact Hd | split; [ | exact HQ]].
  rewrite remaining_after in Hb by lia. rewrite length_skipn, Nat2Z.id in Hb.
  lia.
Qed.

Lemma consumes_text {A} (n : Z) (k : string -> io A) (m : Z) (Q : A -> Prop) :
  (forall s, consumes (k s) m Q) ->
  consumes (nb <- read n ;; s <- decode_utf8 nb ;; k s) m Q.
Proof.
  intros Hk. replace m with (0 + m)%Z by lia.
  apply (consumes_bind _ _ 0 m (fun _ => True)); [lia | apply consumes_read | ].
  intros nb _. replace m with (0 + m)%Z by lia.
  apply (consumes_bind _ _ 0 m (fun _ => True));
    [lia | apply consumes_decode_utf8 | ].
  intros s _. apply Hk.
Qed.

Lemma consumes_dims (n : nat) :
  forall acc,
    Forall (fun d => 0 <= d < 2 ^ 64)%Z acc ->
    consumes (dims_loop n acc) (8 * Z.of_nat n)
      (fun dims =>
         List.length dims = (List.length acc + n)%nat
         /\ Forall (fun d => 0 <= d < 2 ^ 64)%Z dims).
Proof.
  induction n as [ | n IH]; intros acc Hacc.
  - apply consumes_ret. split; [lia | exact Hacc].
  - change (dims_loop (S n) acc)
      with (bs <- read (Z.of_nat 8) ;; d <- unpack_uint 8 bs ;;
            dims_loop n (acc ++ [d])).
    replace (8 * Z.of_nat (S n))%Z with (Z.of_nat 8 + 8 * Z.of_nat n)%Z by lia.
    apply consumes_field; [lia | ]. intros d Hd.
    apply (consumes_weaken _ _ _ _ _ (IH (acc ++ [d]) ltac:(
      apply Forall_app; split; [exact Hacc | constructor; [exact Hd | constructor]])));
      [lia | ].
    intros dims [Hl Hf]. rewrite length_app in Hl. simpl in Hl.
    split; [lia | exact Hf].
Qed.

Lemma consumes_entry :
  consumes tensor_entry 24
    (fun t => in_width t).
Proof.
  unfold tensor_entry, unpack_Q, unpack_I.
  change (read 8) with (read (Z.of_nat 8)).
  change (read 4) with (read (Z.of_nat 4)).
  change 24%Z with (Z.of_nat 8 + (Z.of_nat 4 + (0 + (Z.of_nat 4 + (Z.of_nat 8 + 0)))))%Z.
  apply consumes_field; [lia | ]. intros name_len _.
  apply consumes_text. intros name.
  apply consumes_field; [lia | ]. intros n_dims Hn.
  apply (consumes_bind _ _ _ _
           (fun dims =>
              List.length dims = Z.to_nat n_dims
              /\ Forall (fun d => 0 <= d < 2 ^ 64)%Z dims)); [lia | | ].
  { apply (consumes_weaken _ _ _ _ _ (consumes_dims (Z.to_nat n_dims) [] (Forall_nil _)));
      [lia | ].
    intros dims [Hl Hf]. split; [exact Hl | exact Hf]. }
  intros dims [Hl Hf].
  apply consumes_field; [lia | ]. intros ty Hty.
  apply consumes_field; [lia | ]. intros off Hoff.
  apply consumes_ret. unfold in_width. simpl.
  split; [ | split; [exact Hf | split; [exact Hty | exact Hoff]]].
  rewrite Hl. change (2 ^ (8 * Z.of_nat 4))%Z with (2 ^ 32)%Z in Hn. lia.
Qed.

Lemma consumes_table (n : nat) :
  forall acc,
    Forall in_width acc ->
    consumes (tensor_info_loop n acc) (24 * Z.of_nat n)
      (fun ts =>
         List.length ts = (List.length acc + n)%nat /\ Forall in_width ts).
Proof.
  induction n as [ | n IH]; intros acc Hacc.
  - apply consumes_ret. split; [lia | exact Hacc].
  - change (tensor_info_loop (S n) acc)
      with (t <- tensor_entry ;; tensor_info_loop n (acc ++ [t])).
    replace (24 * Z.of_nat (S n))%Z with (24 + 24 * Z.of_nat n)%Z by lia.
    apply (consumes_bind _ _ _ _ in_width); [lia | apply consumes_entry | ].
    intros t Ht.
    apply (consumes_weaken _ _ _ _ _ (IH (acc ++ [t]) ltac:(
      apply Forall_app; split; [exact Hacc | constructor; [exact Ht | constructor]])));
      [lia | ].
    intros ts [Hl Hf]. rewrite length_app in Hl. simpl in Hl.
    split; [lia | exact Hf].
Qed.

(** X4: what a successful run of the tensor table decoder guarantees.  It
    returns exactly [tensor_count] descriptors whose dimension count, sizes,
    element type and offset lie within their field widths; the bytes of the
    file are untouched; the cursor has moved forward by at least 24 bytes
    per descriptor and not past the end of the file.  Hence a count that
    exceeds a 24th of the bytes left can only end in an exception. *)
Theorem tensor_table_consumption (tensor_count : Z) (f : file) :
  (0 <= pos f)%Z ->
  (forall ts f',
      _extract_tensor_info tensor_count f = Return ts f' ->
      List.length ts = Z.to_nat tensor_count
      /\ Forall in_width ts
      /\ data f' = data f
      /\ (pos f + 24 * Z.of_nat (List.length ts) <= pos f'
          <= pos f + Z.of_nat (List.length (remaining f)))%Z)
  /\ ((Z.of_nat (List.length (remaining f)) < 24 * tensor_count)%Z ->
      raises (_extract_tensor_info tensor_count f)).
Proof.
  intros Hpos.
  assert (H : forall ts f',
             _extract_tensor_info tensor_count f = Return ts f' ->
             List.length ts = Z.to_nat tensor_count
             /\ Forall in_width ts
             /\ data f' = data f
             /\ (pos f + 24 * Z.of_nat (List.length ts) <= pos f'
                 <= pos f + Z.of_nat (List.length (remaining f)))%Z).
  { intros ts f' E. unfold _extract_tensor_info in E.
    destruct (consumes_table (Z.to_nat tensor_count) [] (Forall_nil _)
                f f' ts Hpos E) as (Hd & Hb & Hl & Hf).
    simpl in Hl. rewrite Hl.
    split; [reflexivity | split; [exact Hf | split; [exact Hd | exact Hb]]]. }
  split; [exact H | ].
  intros Hshort.
  destruct (_extract_tensor_info tensor_count f) as [ts f' | e f'] eqn:E.
  - destruct (H ts f' eq_refl) as (Hl & _ & _ & Hb). lia.
  - exists e, f'. reflexivity.
Qed.

Lemma read_field_map {A B} (w : nat) (g : Z -> B) (k : B -> io A) (f : file) :
  (w <= 8)%nat ->
  (bs <- read (Z.of_nat w) ;;
   v <- (u <- unpack_uint w bs ;; ret (g u)) ;; k v) f =
  if (w <=? List.length (remaining f))%nat
  then k (g (le_uint (firstn w (remaining f))))
         (mkFile (data f) (pos f + Z.of_nat w))
  else Raise StructError
         (mkFile (data f) (pos f + Z.of_nat (List.length (remaining f)))).
Proof.
  intros Hw.
  rewrite <- (read_field w (fun u => k (g u)) f Hw).
  unfold bind. destruct (read (Z.of_nat w) f) as [bs f1 | e f1]; [ | reflexivity].
  destruct (unpack_uint w bs f1) as [u f2 | e f2]; reflexivity.
Qed.

Lemma to_signed_range (w v : Z) :
  (0 < w)%Z -> (0 <= v < 2 ^ w)%Z ->
  (- 2 ^ (w - 1) <= to_signed w v < 2 ^ (w - 1))%Z.
Proof.
  intros Hw Hv. unfold to_signed.
  assert (E : (2 ^ w = 2 * 2 ^ (w - 1))%Z).
  { rewrite <- Z.pow_succ_r by lia. f_equal. lia. }
  destruct (Z.ltb_spec v (2 ^ (w - 1))); lia.
Qed.

(** ** Metadata values of fixed width *)

(** X5: a metadata value of one of the fixed-width types (tags 0 to 7)
    takes exactly the width of its type from the stream -- 1 byte for
    uint8, int8 and bool, 2 for uint16 and int16, 4 for uint32, int32 and
    float32 -- and lies within the range of that type; with fewer bytes
    left, [_read_metadata_value] raises [struct.error]. *)
Theorem fixed_width_value (value_type : Z) (f : file) :
  (0 <= value_type <= 7)%Z ->
  ((value_width value_type <= List.length (remaining f))%nat ->
   exists v,
     _read_metadata_value value_type f =
       Return v (mkFile (data f) (pos f + Z.of_nat (value_width value_type)))
     /\ fixed_value value_type v)
  /\ ((List.length (remaining f) < value_width value_type)%nat ->
      exists f', _read_metadata_value value_type f = Raise StructError f').
Proof.
  intros Ht.
  assert (Hcases : (value_type = 0 \/ value_type = 1 \/ value_type = 2
                    \/ value_type = 3 \/ value_type = 4 \/ value_type = 5
                    \/ value_type = 6 \/ value_type = 7)%Z) by lia.
  unfold fixed_value.
  destruct Hcases as [-> | [-> | [-> | [-> | [-> | [-> | [-> | ->]]]]]]];
    unfold _read_metadata_value, unpack_B, unpack_b, unpack_H, unpack_h,
      unpack_I, unpack_i, unpack_f;
    cbn beta iota delta [Z.eqb Pos.eqb value_width orb];
    change (read 1) with (read (Z.of_nat 1));
    change (read 2) with (read (Z.of_nat 2));
    change (read 4) with (read (Z.of_nat 4));
    first [rewrite read_field by lia | rewrite read_field_map by lia];
    (split; intros Hlen;
     [ match goal with
       | |- context [(?w <=? ?n)%nat] =>
           destruct (Nat.leb_spec w n) as [_ | C]; [ | lia];
           pose proof (le_uint_range (firstn w (remaining f))) as Hr;
           rewrite firstn_skipn_length in Hr by lia
       end
     | match goal with
       | |- context [(?w <=? ?n)%nat] =>
           destruct (Nat.leb_spec w n) as [C | _]; [lia | ];
           eexists; reflexivity
       end ]).
  - eexists. split; [reflexivity | ]. left. split; [reflexivity | ].
    eexists. split; [reflexivity | exact Hr].
  - eexists. split; [reflexivity | ]. right. left. split; [reflexivity | ].
    eexists. split; [reflexivity | ]. apply (to_signed_range 8); [lia | exact Hr].
  - eexists. split; [reflexivity | ]. do 2 right. left. split; [reflexivity | ].
    eexists. split; [reflexivity | exact Hr].
  - eexists. split; [reflexivity | ]. do 3 right. left. split; [reflexivity | ].
    eexists. split; [reflexivity | ]. apply (to_signed_range 16); [lia | exact Hr].
  - eexists. split; [reflexivity | ]. do 4 right. left. split; [reflexivity | ].
    eexists. split; [reflexivity | exact Hr].
  - eexists. split; [reflexivity | ]. do 5 right. left. split; [reflexivity | ].
    eexists. split; [reflexivity | ]. apply (to_signed_range 32); [lia | exact Hr].
  - eexists. split; [reflexivity | ]. do 6 right. left. split; [reflexivity | ].
    eexists. split; [reflexivity | exact Hr].
  - eexists. split; [reflexivity | ]. do 7 right. split; [reflexivity | ].
    eexists. reflexivity.
Qed.

(** ** What a successful metadata decode has consumed *)

Lemma consumes_unpack_uint (w : nat) (bs : list byte) :
  consumes (unpack_uint w bs) 0 (fun _ => True).
Proof.
  unfold unpack_uint. destruct (Nat.eqb (List.length bs) w).
  - apply consumes_ret. exact I.
  - intros f f' v _ E. discriminate E.
Qed.

Lemma consumes_bind0 {A B} (c : io A) (k : A -> io B) (Q : B -> Prop) :
  consumes c 0 (fun _ => True) -> (forall a, consumes (k a) 0 Q) ->
  consumes (x <- c ;; k x) 0 Q.
Proof.
  intros Hc Hk. change 0%Z with (0 + 0)%Z.
  apply (consumes_bind _ _ 0 0 (fun _ => True)); [lia | exact Hc | ].
  intros a _. apply Hk.
Qed.

Ltac consume0 :=
  repeat first
    [ apply consumes_read
    | apply consumes_unpack_uint
    | apply consumes_decode_utf8
    | apply consumes_ret; exact I
    | apply consumes_bind0; [ | intros ? ] ].

Lemma consumes_value (value_type : Z) :
  consumes (_read_metadata_value value_type) 0 (fun _ => True).
Proof.
  unfold _read_metadata_value, unpack_B, unpack_b, unpack_H, unpack_h,
    unpack_I, unpack_i, unpack_f, unpack_Q.
  repeat match goal with
         | |- context [(value_type =? ?k)%Z] => destruct (value_type =? k)%Z
         end;
    consume0.
Qed.

Lemma set_keys_nodup {V : Type} (k : string) (v : V) (d : Dict.t V) :
  NoDup (Dict.keys d) -> NoDup (Dict.keys (Dict.set k v d)).
Proof. intros H. rewrite keys_set. apply set_add_nodup. exact H. Qed.

Lemma set_length {V : Type} (k : string) (v : V) (d : Dict.t V) :
  (List.length (Dict.set k v d) <= S (List.length d))%nat.
Proof.
  induction d as [ | [k' v'] d IH]; simpl; [lia | ].
  destruct (String.eqb k k'); simpl; lia.
Qed.

Lemma consumes_metadata (n : nat) :
  forall metadata : Dict.t pyvalue,
    NoDup (Dict.keys metadata) ->
    consumes (metadata_loop n metadata) (12 * Z.of_nat n)
      (fun d =>
         NoDup (Dict.keys d)
         /\ (List.length d <= List.length metadata + n)%nat).
Proof.
  induction n as [ | n IH]; intros metadata Hnd.
  - apply consumes_ret. split; [exact Hnd | lia].
  - change (metadata_loop (S n) metadata)
      with (bs <- read (Z.of_nat 8) ;; key_len <- unpack_uint 8 bs ;;
            kb <- read key_len ;; key <- decode_utf8 kb ;;
            tb <- read (Z.of_nat 4) ;; value_type <- unpack_uint 4 tb ;;
            value <- _read_metadata_value value_type ;;
            metadata_loop n (Dict.set key value metadata)).
    replace (12 * Z.of_nat (S n))%Z
      with (Z.of_nat 8 + (Z.of_nat 4 + (0 + 12 * Z.of_nat n)))%Z by lia.
    apply consumes_field; [lia | ]. intros key_len _.
    apply consumes_text. intros key.
    apply consumes_field; [lia | ]. intros value_type _.
    apply (consumes_bind _ _ _ _ (fun _ => True));
      [lia | apply consumes_value | ].
    intros value _.
    apply (consumes_weaken _ _ _ _ _
             (IH (Dict.set key value metadata) (set_keys_nodup _ _ _ Hnd)));
      [lia | ].
    intros d [Hd Hl]. split; [exact Hd | ].
    pose proof (set_length key value metadata). lia.
Qed.

(** X6: what a successful run of the metadata decoder guarantees.  The
    dictionary has pairwise distinct keys and at most [kv_count] of them;
    the bytes of the file are untouched; the cursor has moved forward by at
    least 12 bytes per entry (key length and type tag) and not past the end
    of the file.  Hence a count that exceeds a 12th of the bytes left can
    only end in an exception. *)
Theorem metadata_consumption (kv_count : Z) (f : file) :
  (0 <= pos f)%Z ->
  (forall metadata f',
      _extract_metadata kv_count f = Return metadata f' ->
      NoDup (Dict.keys metadata)
      /\ (List.length metadata <= Z.to_nat kv_count)%nat
      /\ data f' = data f
      /\ (pos f + 12 * Z.of_nat (Z.to_nat kv_count) <= pos f'
          <= pos f + Z.of_nat (List.length (remaining f)))%Z)
  /\ ((Z.of_nat (List.length (remaining f)) < 12 * kv_count)%Z ->
      raises (_extract_metadata kv_count f)).
Proof.
  intros Hpos.
  assert (H : forall metadata f',
             _extract_metadata kv_count f = Return metadata f' ->
             NoDup (Dict.keys metadata)
             /\ (List.length metadata <= Z.to_nat kv_count)%nat
             /\ data f' = data f
             /\ (pos f + 12 * Z.of_nat (Z.to_nat kv_count) <= pos f'
                 <= pos f + Z.of_nat (List.length (remaining f)))%Z).
  { intros metadata f' E. unfold _extract_metadata in E.
    destruct (consumes_metadata (Z.to_nat kv_count) [] (NoDup_nil _)
                f f' metadata Hpos E) as (Hd & Hb & Hn & Hl).
    simpl in Hl.
    split; [exact Hn | split; [exact Hl | split; [exact Hd | exact Hb]]]. }
  split; [exact H | ].
  intros Hshort.
  destruct (_extract_metadata kv_count f) as [metadata f' | e f'] eqn:E.
  - destruct (H metadata f' eq_refl) as (_ & _ & _ & Hb). lia.
  - exists e, f'. reflexivity.
Qed.

(** ** Buffers *)

Lemma chunks4_length (n : nat) :
  forall bs : list byte,
    List.length bs = (4 * n)%nat -> List.length (chunks4 bs) = n.
Proof.
  induction n as [ | n IH]; intros bs H.
  - destruct bs; [reflexivity | simpl in H; lia].
  - destruct bs as [ | a [ | b [ | c [ | d r]]]]; simpl in H; try lia.
    simpl. f_equal. apply IH. lia.
Qed.

Lemma unpack_floats_length (size : Z) (bs : list byte) (f f' : file)
    (values : list ieee) :
  unpack_floats size bs f = Return values f' ->
  Z.of_nat (List.length values) = size /\ f' = f.
Proof.
  unfold unpack_floats.
  destruct (Z.eqb_spec (Z.of_nat (List.length bs)) (4 * size)) as [E | N];
    [ | discriminate].
  intros H. injection H as <- <-. split; [ | reflexivity].
  rewrite length_map, (chunks4_length (Z.to_nat size)); lia.
Qed.

(** The loop over half-precision values: an even number of bytes gives one
    value per pair, an odd number ends in [struct.error]. *)
Lemma halves_loop_parity (n : nat) :
  forall (raw_data : list byte) (acc : list ieee) (f : file),
    (List.length raw_data <= n)%nat ->
    if Nat.even (List.length raw_data)
    then exists values,
        halves_loop raw_data acc f = Return (acc ++ values) f
        /\ (2 * List.length values = List.length raw_data)%nat
    else halves_loop raw_data acc f = Raise StructError f.
Proof.
  induction n as [ | n IH]; intros raw_data acc f Hn.
  - destruct raw_data; [ | simpl in Hn; lia].
    exists []. rewrite app_nil_r. split; reflexivity.
  - destruct raw_data as [ | a [ | b r]].
    + exists []. rewrite app_nil_r. split; reflexivity.
    + reflexivity.
    + change (Nat.even (List.length (a :: b :: r)))
        with (Nat.even (List.length r)).
      specialize (IH r (acc ++ [Binary16 (le_uint [a; b])]) f
                    ltac:(simpl in Hn; lia)).
      change (halves_loop (a :: b :: r) acc f)
        with (halves_loop r (acc ++ [Binary16 (le_uint [a; b])]) f).
      destruct (Nat.even (List.length r)).
      * destruct IH as (values & E & L).
        exists (Binary16 (le_uint [a; b]) :: values).
        rewrite E, <- app_assoc. split; [reflexivity | simpl; lia].
      * exact IH.
Qed.

Lemma tensor_size_nonneg (dims : list Z) :
  Forall (fun d => 0 <= d)%Z dims -> (0 <= tensor_size dims)%Z.
Proof.
  unfold tensor_size. assert (H1 : (0 <= 1)%Z) by lia. revert H1.
  generalize 1%Z as a. intros a Ha H. revert a Ha.
  induction H as [ | d dims Hd Hds IH]; intros a Ha; simpl.
  - exact Ha.
  - apply IH. nia.
Qed.

Lemma remaining_at (f : file) (n : Z) :
  remaining (mkFile (data f) n) = skipn (Z.to_nat n) (data f).
Proof. reflexivity. Qed.

(** X7: an F32 tensor yields a buffer exactly when its whole payload is in
    the file.  For a descriptor of element type F32 with non-negative
    dimensions and an offset the file can seek to, in a file whose size fits
    the offset type: when [4 * size] bytes follow the offset, the buffer holds
    exactly [size] values, one per 4 bytes taken from the offset on, with the
    declared shape, and the cursor is left behind the payload; when fewer
    bytes follow, extraction of the tensor raises, nothing is stored and one
    warning is logged. *)
Theorem f32_buffer_iff_payload_present (t : tensor) (f : file) :
  tensor_type t = 0%Z ->
  (0 <= tensor_offset t <= ssize_max)%Z ->
  Forall (fun d => 0 <= d)%Z (tensor_dims t) ->
  (Z.of_nat (List.length (data f)) <= ssize_max)%Z ->
  let size := tensor_size (tensor_dims t) in
  let payload := skipn (Z.to_nat (tensor_offset t)) (data f) in
  ((4 * size <= Z.of_nat (List.length payload))%Z ->
   extract_one t f =
     Return
       (Some (mkLayer
                (map (fun c => Binary32 (le_uint c))
                   (chunks4 (firstn (Z.to_nat (4 * size)) payload)))
                (tensor_dims t) 0))
       (mkFile (data f) (tensor_offset t + 4 * size))
   /\ Z.of_nat
        (List.length (chunks4 (firstn (Z.to_nat (4 * size)) payload))) = size)
  /\ ((Z.of_nat (List.length payload) < 4 * size)%Z ->
      raises (extract_one t f)
      /\ exists e,
          fst (_extract_tensor_data [t] f) =
          ([], [WarningTensorFailed (tensor_name t) e])).
Proof.
  intros Hty Hoff Hdims Hfile size payload.
  pose proof (tensor_size_nonneg _ Hdims) as Hsize. fold size in Hsize.
  assert (Hext : extract_one t f =
                 (bs <- read (size * 4) ;; dat <- unpack_floats size bs ;;
                  ret (Some (mkLayer dat (tensor_dims t) 0)))
                   (mkFile (data f) (tensor_offset t))).
  { unfold extract_one. unfold bind at 1.
    rewrite (seek_in_range _ f Hoff). cbv zeta. rewrite Hty. reflexivity. }
  split.
  - intros Hlen.
    assert (Hread : read (size * 4) (mkFile (data f) (tensor_offset t)) =
                    Return (firstn (Z.to_nat (4 * size)) payload)
                      (mkFile (data f) (tensor_offset t + 4 * size))).
    { rewrite read_ok.
      - rewrite remaining_at. cbn [data pos].
        replace (size * 4)%Z with (4 * size)%Z by lia. reflexivity.
      - split; [lia | ].
        assert (List.length payload <= List.length (data f))%nat
          by (unfold payload; rewrite length_skipn; lia).
        lia.
      - rewrite remaining_at. fold payload. lia. }
    assert (Hl : List.length (firstn (Z.to_nat (4 * size)) payload)
                 = (4 * Z.to_nat size)%nat).
    { rewrite length_firstn. lia. }
    split.
    + rewrite Hext. unfold bind. rewrite Hread. unfold unpack_floats.
      rewrite Hl.
      destruct (Z.eqb_spec (Z.of_nat (4 * Z.to_nat size)) (4 * size)) as [_ | N];
        [reflexivity | lia].
    + rewrite (chunks4_length (Z.to_nat size)); [lia | exact Hl].
  - intros Hshort.
    assert (Hraise : exists e f', extract_one t f = Raise e f').
    { rewrite Hext. unfold bind.
      destruct (Z.leb_spec (size * 4) ssize_max) as [Hfit | Hbig].
      - rewrite read_short.
        + unfold unpack_floats. rewrite remaining_at. fold payload.
          destruct (Z.eqb_spec (Z.of_nat (List.length payload)) (4 * size));
            [lia | eexists; eexists; reflexivity].
        + exact Hfit.
        + rewrite remaining_at. fold payload. lia.
      - unfold read. apply Z.ltb_lt in Hbig. rewrite Hbig.
        eexists. eexists. reflexivity. }
    destruct Hraise as (e & f' & E). split.
    + exists e, f'. exact E.
    + exists e. unfold _extract_tensor_data. simpl. rewrite E. reflexivity.
Qed.

(** X8: an F16 tensor is decoded from whatever bytes are there.  For a
    descriptor of element type F16 (non-negative dimensions, seekable
    offset, [2 * size] within the size type), the extractor takes up to
    [2 * size] bytes from the offset on.  When it gets an even number of
    bytes it stores a buffer with one value per pair of bytes -- fewer than
    [size] values when the file ends early -- and when it gets an odd number
    it raises [struct.error]. *)
Theorem f16_buffer_by_parity (t : tensor) (f : file) :
  tensor_type t = 1%Z ->
  (0 <= tensor_offset t <= ssize_max)%Z ->
  Forall (fun d => 0 <= d)%Z (tensor_dims t) ->
  (2 * tensor_size (tensor_dims t) <= ssize_max)%Z ->
  let size := tensor_size (tensor_dims t) in
  let got :=
    firstn (Z.to_nat (2 * size))
      (skipn (Z.to_nat (tensor_offset t)) (data f)) in
  (Nat.even (List.length got) = true ->
   exists values,
     extract_one t f =
       Return (Some (mkLayer values (tensor_dims t) 1))
         (mkFile (data f) (tensor_offset t + Z.of_nat (List.length got)))
     /\ (2 * List.length values = List.length got)%nat
     /\ (Z.of_nat (List.length values) <= size)%Z)
  /\ (Nat.even (List.length got) = false ->
      exists f', extract_one t f = Raise StructError f').
Proof.
  intros Hty Hoff Hdims Hfit size got.
  pose proof (tensor_size_nonneg _ Hdims) as Hsize. fold size in Hsize, Hfit.
  assert (Hext : extract_one t f =
                 (raw_data <- read (size * 2) ;;
                  dat <- halves_loop raw_data [] ;;
                  ret (Some (mkLayer dat (tensor_dims t) 1)))
                   (mkFile (data f) (tensor_offset t))).
  { unfold extract_one. unfold bind at 1.
    rewrite (seek_in_range _ f Hoff). cbv zeta. rewrite Hty. reflexivity. }
  assert (Hread : read (size * 2) (mkFile (data f) (tensor_offset t)) =
                  Return got
                    (mkFile (data f)
                       (tensor_offset t + Z.of_nat (List.length got)))).
  { rewrite read_fits by lia. rewrite remaining_at. cbn [data pos].
    replace (size * 2)%Z with (2 * size)%Z by lia. reflexivity. }
  rewrite Hext. unfold bind. rewrite Hread.
  pose proof (halves_loop_parity (List.length got) got []
                (mkFile (data f) (tensor_offset t + Z.of_nat (List.length got)))
                (Nat.le_refl _)) as Hp.
  split; intros Hev; rewrite Hev in Hp.
  - destruct Hp as (values & E & L). exists values.
    rewrite E. simpl app. split; [reflexivity | split; [exact L | ]].
    assert (List.length got <= Z.to_nat (2 * size))%nat
      by (unfold got; rewrite length_firstn; lia).
    lia.
  - rewrite Hp. eexists. reflexivity.
Qed.

(** What one tensor can put into the dictionary of buffers. *)
Lemma extract_one_buffer (t : tensor) (f f' : file) (l : layer) :
  extract_one t f = Return (Some l) f' ->
  layer_shape l = tensor_dims t
  /\ layer_type l = tensor_type t
  /\ ((tensor_type t = 0%Z
       /\ Z.of_nat (List.length (layer_data l)) = tensor_size (tensor_dims t))
      \/ tensor_type t = 1%Z).
Proof.
  unfold extract_one, bind.
  destruct (seek (tensor_offset t) f) as [[] f1 | e f1]; [ | discriminate].
  cbv zeta.
  destruct (Z.eqb_spec (tensor_type t) 0) as [E0 | N0].
  - destruct (read (tensor_size (tensor_dims t) * 4) f1) as [bs f2 | e f2];
      [ | discriminate].
    destruct (unpack_floats (tensor_size (tensor_dims t)) bs f2)
      as [values f3 | e f3] eqn:Eu; [ | discriminate].
    intros H. injection H as <- _. simpl.
    split; [reflexivity | split; [reflexivity | left]].
    split; [exact E0 | ].
    apply (unpack_floats_length _ _ _ _ _ Eu).
  - destruct (Z.eqb_spec (tensor_type t) 1) as [E1 | N1]; [ | discriminate].
    destruct (read (tensor_size (tensor_dims t) * 2) f1) as [bs f2 | e f2];
      [ | discriminate].
    destruct (halves_loop bs [] f2) as [values f3 | e f3]; [ | discriminate].
    intros H. injection H as <- _. simpl.
    split; [reflexivity | split; [reflexivity | right; exact E1]].
Qed.

Lemma tensor_data_loop_invariant (P : string -> layer -> Prop)
    (Q : log_record -> Prop) (tensor_info : list tensor) :
  (forall t f f' l,
      In t tensor_info -> extract_one t f = Return (Some l) f' ->
      P (tensor_name t) l) ->
  (forall t e, In t tensor_info -> Q (WarningTensorFailed (tensor_name t) e)) ->
  forall (ls : Dict.t layer) (log : list log_record) (f : file),
    (forall k l, In (k, l) ls -> P k l) ->
    Forall Q log ->
    NoDup (Dict.keys ls) ->
    let '(ls', log', _) := tensor_data_loop tensor_info ls log f in
    (forall k l, In (k, l) ls' -> P k l)
    /\ Forall Q log'
    /\ NoDup (Dict.keys ls')
    /\ (List.length ls' + List.length log'
        <= List.length ls + List.length log + List.length tensor_info)%nat.
Proof.
  induction tensor_info as [ | t rest IH]; intros HP HQ ls log f Hls Hlog Hnd.
  - simpl. split; [exact Hls | split; [exact Hlog | split; [exact Hnd | lia]]].
  - simpl.
    assert (HP' : forall t0 f0 f0' l0,
               In t0 rest -> extract_one t0 f0 = Return (Some l0) f0' ->
               P (tensor_name t0) l0).
    { intros t0 f0 f0' l0 Hin. apply HP. right. exact Hin. }
    assert (HQ' : forall t0 e, In t0 rest ->
                               Q (WarningTensorFailed (tensor_name t0) e)).
    { intros t0 e Hin. apply HQ. right. exact Hin. }
    destruct (extract_one t f) as [[l | ] f1 | e f1] eqn:E.
    + specialize (IH HP' HQ' (Dict.set (tensor_name t) l ls) log f1).
      destruct (tensor_data_loop rest (Dict.set (tensor_name t) l ls) log f1)
        as [[ls' log'] f'].
      destruct IH as (H1 & H2 & H3 & H4).
      * intros k l0 Hin. destruct (set_in_inv _ _ _ _ _ Hin) as [[-> ->] | Hin'].
        -- apply (HP t f f1 l (or_introl eq_refl) E).
        -- apply Hls. exact Hin'.
      * exact Hlog.
      * apply set_keys_nodup. exact Hnd.
      * split; [exact H1 | split; [exact H2 | split; [exact H3 | ]]].
        pose proof (set_length (tensor_name t) l ls). simpl. lia.
    + specialize (IH HP' HQ' ls log f1).
      destruct (tensor_data_loop rest ls log f1) as [[ls' log'] f'].
      destruct (IH Hls Hlog Hnd) as (H1 & H2 & H3 & H4).
      split; [exact H1 | split; [exact H2 | split; [exact H3 | simpl; lia]]].
    + specialize (IH HP' HQ' ls
                    (log ++ [WarningTensorFailed (tensor_name t) e]) f1).
      destruct (tensor_data_loop rest ls
                  (log ++ [WarningTensorFailed (tensor_name t) e]) f1)
        as [[ls' log'] f'].
      destruct IH as (H1 & H2 & H3 & H4).
      * exact Hls.
      * apply Forall_app. split; [exact Hlog | ].
        constructor; [apply HQ; left; reflexivity | constructor].
      * exact Hnd.
      * split; [exact H1 | split; [exact H2 | split; [exact H3 | ]]].
        rewrite length_app in H4. simpl in H4 |- *. lia.
Qed.

(** X9: what [_extract_tensor_data] returns for any table and any file.
    Every buffer is stored under the name of a descriptor of the table, with
    that descriptor's shape and element type, which is F32 or F16; an F32
    buffer holds exactly as many values as the product of its shape.  Every
    log record is a warning that names a descriptor of the table.  The
    buffers have pairwise distinct names, and buffers and warnings together
    are no more than the descriptors. *)
Theorem tensor_data_invariants (tensor_info : list tensor) (f : file) :
  let '(ls, log, _) := _extract_tensor_data tensor_info f in
  (forall k l,
      In (k, l) ls ->
      exists t,
        In t tensor_info /\ k = tensor_name t
        /\ layer_shape l = tensor_dims t /\ layer_type l = tensor_type t
        /\ ((layer_type l = 0%Z
             /\ Z.of_nat (List.length (layer_data l))
                = tensor_size (layer_shape l))
            \/ layer_type l = 1%Z))
  /\ Forall
       (fun r => exists t e,
            In t tensor_info /\ r = WarningTensorFailed (tensor_name t) e) log
  /\ NoDup (Dict.keys ls)
  /\ (List.length ls + List.length log <= List.length tensor_info)%nat.
Proof.
  unfold _extract_tensor_data.
  pose proof (tensor_data_loop_invariant
                (fun k l =>
                   exists t,
                     In t tensor_info /\ k = tensor_name t
                     /\ layer_shape l = tensor_dims t
                     /\ layer_type l = tensor_type t
                     /\ ((layer_type l = 0%Z
                          /\ Z.of_nat (List.length (layer_data l))
                             = tensor_size (layer_shape l))
                         \/ layer_type l = 1%Z))
                (fun r => exists t e,
                     In t tensor_info
                     /\ r = WarningTensorFailed (tensor_name t) e)
                tensor_info) as H.
  specialize (H
    ltac:(intros t f0 f0' l Hin E;
          destruct (extract_one_buffer t f0 f0' l E) as (Hs & Ht & Hc);
          exists t; rewrite Hs, Ht;
          repeat split; try assumption; try reflexivity)
    ltac:(intros t e Hin; exists t, e; split; [exact Hin | reflexivity])
    [] [] f
    ltac:(intros k l [])
    (Forall_nil _) (NoDup_nil _)).
  destruct (tensor_data_loop tensor_info [] [] f) as [[ls log] f'].
  exact H.
Qed.

(** ** Whole containers *)

Lemma bytes_eqb_eq (a : list byte) :
  forall b, bytes_eqb a b = true <-> a = b.
Proof.
  induction a as [ | x a IH]; intros [ | y b]; simpl.
  - split; reflexivity.
  - split; discriminate.
  - split; discriminate.
  - rewrite andb_true_iff, IH. split.
    + intros [Hx ->]. apply Byte.byte_dec_bl in Hx. subst y. reflexivity.
    + intros H. injection H as -> ->. split; [ | reflexivity].
      apply Byte.byte_dec_lb. reflexivity.
Qed.

(** X10: a file that does not start with the four bytes [GGUF] -- a file
    of fewer than four bytes included -- is given up at once:
    [extract_gguf_weights] returns no metadata and no tensor, and logs that
    the file is invalid; nothing after the magic is looked at. *)
Theorem bad_magic_rejected (content : list byte) :
  firstn 4 content <> gguf_magic ->
  extract_gguf_weights content =
  (mkWeights [] [], [InfoExtracting; ErrorInvalidFile]).
Proof.
  intros Hmagic. unfold extract_gguf_weights.
  rewrite read_fits by (unfold ssize_max; lia).
  change (remaining (mkFile content 0)) with content.
  change (Z.to_nat 4) with 4%nat.
  destruct (bytes_eqb (firstn 4 content) gguf_magic) eqn:E.
  - apply bytes_eqb_eq in E. contradiction.
  - reflexivity.
Qed.

Lemma decodes_header (version tensor_count kv_count : Z) :
  (0 <= version < 2 ^ 32)%Z ->
  (0 <= tensor_count < 2 ^ 64)%Z ->
  (0 <= kv_count < 2 ^ 64)%Z ->
  decodes read_header
    (pack_uint 4 version ++ pack_uint 8 tensor_count ++ pack_uint 8 kv_count)
    (version, tensor_count, kv_count).
Proof.
  intros Hv Ht Hk. unfold read_header, unpack_I, unpack_Q.
  change (read 4) with (read (Z.of_nat 4)).
  change (read 8) with (read (Z.of_nat 8)).
  apply (decodes_field 4 version); [lia | exact Hv | ].
  apply (decodes_field 8 tensor_count); [lia | exact Ht | ].
  rewrite <- (app_nil_r (pack_uint 8 kv_count)).
  apply (decodes_field 8 kv_count); [lia | exact Hk | ].
  apply decodes_ret.
Qed.

(** X11: a well-formed container is read back in full.  For a file made
    of the magic, a header, the entries of storable metadata values, the
    entries of encodable descriptors and any payload bytes,
    [extract_gguf_weights] returns the metadata dictionary of X3 and the
    buffers that [_extract_tensor_data] extracts for exactly these
    descriptors from the file, and logs the header followed by the warnings
    of the extraction. *)
Theorem container_round_trip
    (version : Z) (es : list (string * typed_value)) (ts : list tensor)
    (payload : list byte) :
  (0 <= version < 2 ^ 32)%Z ->
  Forall storable_entry es ->
  Forall encodable ts ->
  (Z.of_nat (List.length es) < 2 ^ 64)%Z ->
  (Z.of_nat (List.length ts) < 2 ^ 64)%Z ->
  let tensor_count := Z.of_nat (List.length ts) in
  let kv_count := Z.of_nat (List.length es) in
  let content :=
    gguf_magic ++
    (pack_uint 4 version ++ pack_uint 8 tensor_count ++ pack_uint 8 kv_count) ++
    flat_map pack_meta es ++ flat_map pack_entry ts ++ payload in
  let table_end :=
    (24 + Z.of_nat (List.length (flat_map pack_meta es))
     + Z.of_nat (List.length (flat_map pack_entry ts)))%Z in
  extract_gguf_weights content =
  (mkWeights
     (fst (fst (_extract_tensor_data ts (mkFile content table_end))))
     (fold_left (fun d e => Dict.set (fst e) (py_of (snd e)) d) es []),
   [InfoExtracting; InfoHeader version tensor_count kv_count] ++
   snd (fst (_extract_tensor_data ts (mkFile content table_end)))).
Proof.
  intros Hv Hes Hts Hne Hnt tensor_count kv_count content table_end.
  subst tensor_count kv_count. unfold extract_gguf_weights.
  assert (Hmagic : read 4 (mkFile content 0) =
                   Return gguf_magic (mkFile content 4)).
  { apply (decodes_read gguf_magic ltac:(vm_compute; discriminate)
             (mkFile content 0)
             ((pack_uint 4 version ++ pack_uint 8 (Z.of_nat (List.length ts))
               ++ pack_uint 8 (Z.of_nat (List.length es)))
              ++ flat_map pack_meta es ++ flat_map pack_entry ts ++ payload));
      [cbn [pos]; lia | reflexivity]. }
  rewrite Hmagic.
  change (bytes_eqb gguf_magic gguf_magic) with true. cbn [negb].
  assert (R1 : remaining (mkFile content 4) =
               (pack_uint 4 version ++ pack_uint 8 (Z.of_nat (List.length ts))
                ++ pack_uint 8 (Z.of_nat (List.length es)))
               ++ flat_map pack_meta es ++ flat_map pack_entry ts ++ payload)
    by reflexivity.
  assert (Hnt' : (0 <= Z.of_nat (List.length ts) < 2 ^ 64)%Z) by lia.
  assert (Hne' : (0 <= Z.of_nat (List.length es) < 2 ^ 64)%Z) by lia.
  assert (Hp4 : (0 <= pos (mkFile content 4))%Z) by (cbn [pos]; lia).
  rewrite (decodes_header version _ _ Hv Hnt' Hne' (mkFile content 4) _ Hp4 R1).
  cbn [data pos].
  rewrite !length_app, !pack_uint_length.
  change (4 + Z.of_nat (4 + (8 + 8)))%Z with 24%Z.
  assert (R2 : remaining (mkFile content 24) =
               flat_map pack_meta es ++ flat_map pack_entry ts ++ payload)
    by reflexivity.
  assert (Hp24 : (0 <= pos (mkFile content 24))%Z) by (cbn [pos]; lia).
  assert (Em : _extract_metadata (Z.of_nat (List.length es))
                 (mkFile content 24) =
               Return
                 (fold_left (fun d e => Dict.set (fst e) (py_of (snd e)) d)
                    es [])
                 (mkFile content
                    (24 + Z.of_nat (List.length (flat_map pack_meta es))))).
  { unfold _extract_metadata. rewrite Nat2Z.id.
    exact (decodes_metadata es Hes [] (mkFile content 24) _ Hp24 R2). }
  assert (R3 := rest_after_block (mkFile content 24) _ _ Hp24 R2).
  cbn [data pos] in R3. rewrite Em.
  assert (Hpm : (0 <= pos (mkFile content
                            (24 + Z.of_nat (List.length (flat_map pack_meta es)))))%Z)
    by (cbn [pos]; lia).
  assert (Et : _extract_tensor_info (Z.of_nat (List.length ts))
                 (mkFile content
                    (24 + Z.of_nat (List.length (flat_map pack_meta es)))) =
               Return ts (mkFile content table_end)).
  { unfold _extract_tensor_info. rewrite Nat2Z.id.
    exact (decodes_table ts Hts [] _ payload Hpm R3). }
  rewrite Et.
  destruct (_extract_tensor_data ts (mkFile content table_end))
    as [[ls wlog] f']. reflexivity.
Qed.

(** ** Architecture estimate *)

(** X12: the architecture estimate has four possible outcomes.  Whatever
    the artifact answers, [analyze_architecture] reports a transformer with
    8 attention heads, hidden size 4096 and vocabulary size 32000, and one of
    the pairs (1e9 parameters, 12 layers), (3e9, 30), (7e9, 70), (13e9, 80);
    when every test prompt fails, the mean inference time defaults to 1.0
    and the estimate is 13e9 parameters and 80 layers. *)
Theorem analyze_architecture_outcomes
    (model : string -> Z -> option (string * Q)) (model_name : string) :
  let info := analyze_architecture model model_name in
  info_architecture info = "transformer"%string
  /\ info_attention_heads info = 8%Z
  /\ info_hidden_size info = 4096%Z
  /\ info_vocab_size info = 32000%Z
  /\ In (info_parameters info, info_layers info)
       [(1000000000, 12); (3000000000, 30); (7000000000, 70);
        (13000000000, 80)]%Z
  /\ ((forall prompt, model prompt 10%Z = None) ->
      info_parameters info = 13000000000%Z /\ info_layers info = 80%Z).
Proof.
  unfold analyze_architecture.
  destruct (architecture_loop model
              ["1 + 1 ="; "The capital of France is"; "def fibonacci(n):";
               "Once upon a time"]%string [] [])
    as [response_patterns inference_times] eqn:Eloop.
  cbv zeta.
  repeat split.
  - set (avg := match inference_times with
                | [] => 1
                | _ => Qsum inference_times / len inference_times
                end).
    destruct (Qlt_bool avg (1 # 10)); [left; reflexivity | ].
    destruct (Qlt_bool avg (1 # 2)); [right; left; reflexivity | ].
    destruct (Qlt_bool avg 1); [do 2 right; left; reflexivity | ].
    do 3 right. left. reflexivity.
  - assert (E : inference_times = []).
    { simpl in Eloop. rewrite !H in Eloop. injection Eloop as _ <-. reflexivity. }
    rewrite E. reflexivity.
  - assert (E : inference_times = []).
    { simpl in Eloop. rewrite !H in Eloop. injection Eloop as _ <-. reflexivity. }
    rewrite E. reflexivity.
Qed.

(** ** Strengths, weaknesses, features *)

Ltac probe_cases model :=
  repeat match goal with
         | |- context [model ?p ?n] =>
             let r := fresh "response" in
             let t := fresh "elapsed" in
             destruct (model p n) as [[r t] | ]
         end.

Lemma Qmax_0_nonneg (x : Q) : 0 <= Qmax 0 x.
Proof. apply Q.le_max_l. Qed.

Lemma strip_score_range (n : nat) :
  0 <= Qmin 1 (inject_Z (Z.of_nat n) / 20)
  /\ Qmin 1 (inject_Z (Z.of_nat n) / 20) <= 1.
Proof.
  split; [ | apply Q.le_min_l].
  apply Q.min_glb; [discriminate | ].
  apply ratio_nonneg; [ | discriminate].
  change 0 with (inject_Z 0). rewrite <- Zle_Qle. lia.
Qed.

(** X13: the strengths of an artifact.  [identify_strengths] always
    returns the five keys speed, accuracy, creativity, reasoning, coding, in
    this order; no value is negative, and every value other than speed is at
    most 1; a strength whose probe fails is 0.0, so an artifact that cannot
    be reached has strength 0.0 throughout.  The strengths it produces thus
    meet the condition under which the fusion weights are shares. *)
Theorem identify_strengths_range
    (model : string -> Z -> option (string * Q)) (model_name : string) :
  Dict.keys (identify_strengths model model_name) =
    ["speed"; "accuracy"; "creativity"; "reasoning"; "coding"]%string
  /\ (forall k v,
         In (k, v) (identify_strengths model model_name) ->
         0 <= v /\ (k <> "speed"%string -> v <= 1))
  /\ (forall v,
         In v (Dict.values (identify_strengths model model_name)) -> 0 <= v)
  /\ (forall strength_type prompt,
         In (strength_type, prompt) strength_tests ->
         model prompt 20%Z = None ->
         Dict.get strength_type (identify_strengths model model_name)
         = Some 0)
  /\ ((forall prompt, model prompt 20%Z = None) ->
      Dict.values (identify_strengths model model_name) = [0; 0; 0; 0; 0]).
Proof.
  assert (H : Dict.keys (identify_strengths model model_name) =
                ["speed"; "accuracy"; "creativity"; "reasoning"; "coding"]%string
              /\ (forall k v,
                     In (k, v) (identify_strengths model model_name) ->
                     0 <= v /\ (k <> "speed"%string -> v <= 1))).
  { unfold identify_strengths, strength_tests.
    cbn [strengths_loop]. probe_cases model;
      cbn [String.eqb Ascii.eqb Bool.eqb Dict.set Dict.keys map fst];
      (split; [reflexivity | ]);
      intros k v Hin; cbn [In] in Hin;
      repeat match type of Hin with
             | _ \/ _ => destruct Hin as [Hin | Hin]
             | False => contradiction
             end;
      injection Hin as <- <-;
      (split;
       [ first [ apply Qmax_0_nonneg | apply strip_score_range | discriminate ]
       | intros Hk;
         first [ contradiction Hk; reflexivity
               | apply strip_score_range | discriminate ] ]). }
  destruct H as [Hk Hv]. split; [exact Hk | split; [exact Hv | ]].
  split; [ | split].
  - intros v Hin. unfold Dict.values in Hin. apply in_map_iff in Hin.
    destruct Hin as ([k v'] & <- & Hin). exact (proj1 (Hv k v' Hin)).
  - intros strength_type prompt Hin Hnone.
    unfold strength_tests in Hin. cbn [In] in Hin.
    unfold identify_strengths, strength_tests. cbn [strengths_loop].
    repeat match type of Hin with
           | _ \/ _ => destruct Hin as [Hin | Hin]
           | False => contradiction
           end;
      injection Hin as <- <-; rewrite Hnone; probe_cases model; reflexivity.
  - intros Hnone. unfold identify_strengths, strength_tests.
    cbn [strengths_loop]. rewrite !Hnone. reflexivity.
Qed.

(** X14: the weaknesses of an artifact.  [identify_weaknesses] always
    returns the five keys complex_math, long_context, multilingual,
    recent_events, personal_info, in this order, and every value is 0.3, 0.8
    or 1.0; a probe that fails counts 1.0, so an artifact that cannot be
    reached is rated 1.0 throughout. *)
Theorem identify_weaknesses_values
    (model : string -> Z -> option (string * Q)) (model_name : string) :
  Dict.keys (identify_weaknesses model model_name) =
    ["complex_math"; "long_context"; "multilingual"; "recent_events";
     "personal_info"]%string
  /\ (forall v,
         In v (Dict.values (identify_weaknesses model model_name)) ->
         v = 3 # 10 \/ v = 8 # 10 \/ v = 1)
  /\ ((forall prompt, model prompt 30%Z = None) ->
      Dict.values (identify_weaknesses model model_name) = [1; 1; 1; 1; 1]).
Proof.
  split; [ | split].
  - unfold identify_weaknesses, weakness_tests. cbn [weaknesses_loop].
    probe_cases model; reflexivity.
  - unfold identify_weaknesses, weakness_tests. cbn [weaknesses_loop].
    probe_cases model;
      cbn [String.eqb Ascii.eqb Bool.eqb Dict.set Dict.values map snd];
      intros v Hin; cbn [In] in Hin;
      repeat match type of Hin with
             | _ \/ _ => destruct Hin as [Hin | Hin]
             | False => contradiction
             end;
      subst v;
      repeat match goal with
             | |- context [if ?b then _ else _] => destruct b
             end;
      tauto.
  - intros H. unfold identify_weaknesses, weakness_tests.
    cbn [weaknesses_loop]. rewrite !H. reflexivity.
Qed.

Lemma list_of_set_in (xs : list string) (x : string) :
  In x (list_of_set xs) <-> In x xs.
Proof.
  unfold list_of_set.
  assert (G : forall s, In x (fold_left (fun s x => set_add x s) xs s)
                        <-> In x s \/ In x xs).
  { induction xs as [ | y xs IH]; intros s; simpl.
    - tauto.
    - rewrite IH, set_add_in. intuition congruence. }
  rewrite G. simpl. tauto.
Qed.

Lemma set_add_length (x : string) (s : list string) :
  (List.length (set_add x s) <= S (List.length s))%nat.
Proof.
  unfold set_add. destruct (existsb (String.eqb x) s).
  - lia.
  - rewrite length_app. simpl. lia.
Qed.

Lemma list_of_set_length (xs : list string) :
  (List.length (list_of_set xs) <= List.length xs)%nat.
Proof.
  unfold list_of_set.
  assert (G : forall s,
             (List.length (fold_left (fun s x => set_add x s) xs s)
              <= List.length s + List.length xs)%nat).
  { induction xs as [ | y xs IH]; intros s; simpl.
    - lia.
    - specialize (IH (set_add y s)). pose proof (set_add_length y s). lia. }
  apply (G []).
Qed.

Lemma features_loop_spec
    (model : string -> Z -> option (string * Q)) (tests : Dict.t string) :
  forall acc,
    (forall x, In x (features_loop model tests acc) ->
               In x acc \/ In x probe_features)
    /\ (List.length (features_loop model tests acc)
        <= List.length acc + List.length tests)%nat.
Proof.
  induction tests as [ | [feature prompt] rest IH]; intros acc.
  - simpl. split; [intros x H; left; exact H | lia].
  - cbn [features_loop].
    destruct (model prompt 50%Z) as [[response elapsed] | ];
      [ | destruct (IH acc) as [I1 I2]; split; [exact I1 | simpl; lia]].
    repeat match goal with
           | |- context [if ?b then _ else _] => destruct b
           end;
      match goal with
      | |- context [features_loop model rest (acc ++ [?s])] =>
          destruct (IH (acc ++ [s])) as [I1 I2];
          split;
          [ intros x Hx; destruct (I1 x Hx) as [Ha | Hp];
            [ apply in_app_or in Ha; destruct Ha as [Ha | [<- | []]];
              [left; exact Ha | right; unfold probe_features; simpl; tauto]
            | right; exact Hp ]
          | rewrite length_app in I2; simpl in I2 |- *; lia ]
      | |- _ =>
          destruct (IH acc) as [I1 I2]; split; [exact I1 | simpl; lia]
      end.
Qed.

(** X15: the unique features of an artifact.  [identify_unique_features]
    returns no feature twice and at most five features; each is one of the
    four features a probe can establish or one of the five features given by
    the artifact's name, and at most one feature comes from the name (the
    first keyword found among deepseek, qwen, grok, gemma, llama, in this
    order of precedence). *)
Theorem identify_unique_features_spec
    (model : string -> Z -> option (string * Q)) (model_name : string) :
  let features := identify_unique_features model model_name in
  NoDup features
  /\ (List.length features <= 5)%nat
  /\ (forall x, In x features -> In x probe_features \/ In x name_features)
  /\ (forall a b,
         In a name_features -> In b name_features ->
         In a features -> In b features -> a = b)
  /\ (contains "deepseek" (lower model_name) = true ->
      In "code_specialization"%string features).
Proof.
  unfold identify_unique_features. cbv zeta.
  destruct (features_loop_spec model feature_tests []) as [Hin Hlen].
  set (probed := features_loop model feature_tests []) in *.
  simpl in Hlen.
  assert (Hprobed : forall x, In x probed -> In x probe_features).
  { intros x Hx. destruct (Hin x Hx) as [[] | H]. exact H. }
  assert (Hdisj : forall x, In x probe_features -> In x name_features -> False).
  { unfold probe_features, name_features. simpl.
    intros x H1 H2.
    repeat match type of H1 with
           | _ \/ _ => destruct H1 as [H1 | H1]
           | False => contradiction
           end; subst x;
      repeat match type of H2 with
             | _ \/ _ => destruct H2 as [H2 | H2]
             | False => contradiction
             end; discriminate H2. }
  split; [apply fold_set_add_nodup; constructor | ].
  assert (Hnamed :
            exists extra,
              (extra = [] \/ exists n, extra = [n] /\ In n name_features)
              /\ (if contains "deepseek" (lower model_name)
                  then probed ++ ["code_specialization"%string]
                  else if contains "qwen" (lower model_name)
                  then probed ++ ["multilingual_support"%string]
                  else if contains "grok" (lower model_name)
                  then probed ++ ["real_time_processing"%string]
                  else if contains "gemma" (lower model_name)
                  then probed ++ ["safety_alignment"%string]
                  else if contains "llama" (lower model_name)
                  then probed ++ ["general_intelligence"%string]
                  else probed) = probed ++ extra).
  { unfold name_features.
    destruct (contains "deepseek" (lower model_name));
      [exists ["code_specialization"%string];
       split; [right; eexists; split; [reflexivity | simpl; tauto]
              | reflexivity] | ].
    destruct (contains "qwen" (lower model_name));
      [exists ["multilingual_support"%string];
       split; [right; eexists; split; [reflexivity | simpl; tauto]
              | reflexivity] | ].
    destruct (contains "grok" (lower model_name));
      [exists ["real_time_processing"%string];
       split; [right; eexists; split; [reflexivity | simpl; tauto]
              | reflexivity] | ].
    destruct (contains "gemma" (lower model_name));
      [exists ["safety_alignment"%string];
       split; [right; eexists; split; [reflexivity | simpl; tauto]
              | reflexivity] | ].
    destruct (contains "llama" (lower model_name));
      [exists ["general_intelligence"%string];
       split; [right; eexists; split; [reflexivity | simpl; tauto]
              | reflexivity] | ].
    exists []. split; [left; reflexivity | rewrite app_nil_r; reflexivity]. }
  destruct Hnamed as (extra & Hextra & Enamed).
  split; [ | split; [ | split]].
  - rewrite Enamed.
    pose proof (list_of_set_length (probed ++ extra)) as L.
    rewrite length_app in L.
    destruct Hextra as [-> | (n & -> & _)]; simpl in L; lia.
  - intros x Hx. apply (proj1 (list_of_set_in _ _)) in Hx. rewrite Enamed in Hx.
    apply in_app_or in Hx. destruct Hx as [Hx | Hx].
    + left. apply Hprobed. exact Hx.
    + destruct Hextra as [-> | (n & -> & Hn)]; [contradiction | ].
      destruct Hx as [<- | []]. right. exact Hn.
  - intros a b Ha Hb Hia Hib.
    apply (proj1 (list_of_set_in _ _)) in Hia.
    apply (proj1 (list_of_set_in _ _)) in Hib.
    rewrite Enamed in Hia, Hib.
    apply in_app_or in Hia. apply in_app_or in Hib.
    destruct Hia as [Hia | Hia];
      [exfalso; exact (Hdisj a (Hprobed a Hia) Ha) | ].
    destruct Hib as [Hib | Hib];
      [exfalso; exact (Hdisj b (Hprobed b Hib) Hb) | ].
    destruct Hextra as [-> | (n & -> & _)]; [contradiction | ].
    destruct Hia as [<- | []]. destruct Hib as [<- | []]. reflexivity.
  - intros Hd. apply (proj2 (list_of_set_in _ _)). rewrite Hd.
    apply in_or_app. right. left. reflexivity.
Qed.

(** ** Reported capabilities *)

Lemma score_response_unit (prompt response d : string) :
  In d capability_domains ->
  0 <= score_response prompt response d
  /\ score_response prompt response d <= 1.
Proof.
  intros Hd.
  destruct (string_dec (strip response) "") as [Hs | Hs].
  - rewrite (score_response_blank _ _ _ Hs). split; discriminate.
  - assert (Hcases : d = "mathematics"%string \/
                     In d ["coding"; "reasoning"; "language"; "creativity";
                           "knowledge"]%string).
    { destruct Hd as [<- | Hd]; [left; reflexivity | right; exact Hd]. }
    destruct Hcases as [-> | Hother].
    + rewrite (score_response_mathematics _ _ Hs). apply scored_range.
    + rewrite (score_response_folded _ _ _ Hs Hother). apply scored_range.
Qed.

Lemma probe_loop_spec
    (model : string -> Z -> option (string * Q)) (d : string)
    (prompts : list string) :
  In d capability_domains ->
  forall scores patterns,
    Forall (fun x => 0 <= x /\ x <= 1) scores ->
    Forall (fun x => 0 <= x /\ x <= 1) (fst (probe_loop model d prompts scores patterns))
    /\ List.length (fst (probe_loop model d prompts scores patterns))
       = (List.length scores + List.length prompts)%nat
    /\ List.length (snd (probe_loop model d prompts scores patterns))
       = (List.length patterns + List.length prompts)%nat.
Proof.
  intros Hd. induction prompts as [ | prompt rest IH]; intros scores patterns Hs.
  - simpl. split; [exact Hs | split; lia].
  - cbn [probe_loop].
    destruct (model prompt 50%Z) as [[response elapsed] | ].
    + destruct (IH (scores ++ [score_response prompt response d])
                  (patterns ++ [elapsed])) as (I1 & I2 & I3).
      { apply Forall_app. split; [exact Hs | ].
        constructor; [apply score_response_unit; exact Hd | constructor]. }
      rewrite length_app in I2, I3. simpl in I2, I3 |- *.
      split; [exact I1 | split; lia].
    + destruct (IH (scores ++ [0]) (patterns ++ [1])) as (I1 & I2 & I3).
      { apply Forall_app. split; [exact Hs | ].
        constructor; [split; discriminate | constructor]. }
      rewrite length_app in I2, I3. simpl in I2, I3 |- *.
      split; [exact I1 | split; lia].
Qed.

Lemma len_cons {A} (x : A) (l : list A) : len (x :: l) == len l + 1.
Proof.
  unfold len. simpl List.length. rewrite Nat2Z.inj_succ.
  unfold Z.succ. rewrite inject_Z_plus. reflexivity.
Qed.

Lemma Qsum_le_len (l : list Q) :
  Forall (fun x => 0 <= x /\ x <= 1) l -> Qsum l <= len l.
Proof.
  induction 1 as [ | x l [_ Hx] Hl IH].
  - discriminate.
  - rewrite Qsum_cons, len_cons, Qplus_comm.
    apply Qplus_le_compat; assumption.
Qed.

Lemma mean_le_1 (l : list Q) :
  l <> [] -> Forall (fun x => 0 <= x /\ x <= 1) l -> Qsum l / len l <= 1.
Proof.
  intros Hne Hl. apply Qle_shift_div_r.
  - apply len_pos. exact Hne.
  - rewrite Qmult_1_l. apply Qsum_le_len. exact Hl.
Qed.

(** [int] of a rational lies between the integers around it. *)
Lemma int_of_Q_between (a b : Z) (q : Q) :
  inject_Z a <= q -> q <= inject_Z b ->
  (a <= int_of_Q q <= b)%Z.
Proof.
  intros Hlo Hhi. unfold int_of_Q. destruct q as [n dd].
  unfold Qle in Hlo, Hhi. simpl in Hlo, Hhi |- *. split.
  - apply Z.quot_le_lower_bound; lia.
  - apply Z.quot_le_upper_bound; lia.
Qed.

Lemma capabilities_loop_reported
    (model : string -> Z -> option (string * Q)) (model_name : string)
    (tests : Dict.t (list string)) :
  (forall d prompts, In (d, prompts) tests ->
                     In d capability_domains /\ List.length prompts = 3%nat) ->
  forall capabilities,
    NoDup (map domain capabilities ++ Dict.keys tests) ->
    (forall c, In c capabilities -> reported model_name c) ->
    (forall c, In c (capabilities_loop model model_name tests capabilities) ->
               reported model_name c)
    /\ NoDup (map domain (capabilities_loop model model_name tests capabilities))
    /\ (List.length (capabilities_loop model model_name tests capabilities)
        <= List.length capabilities + List.length tests)%nat.
Proof.
  induction tests as [ | [d prompts] rest IH]; intros Htests caps Hnd Hcaps.
  - simpl in *. rewrite app_nil_r in Hnd. split; [exact Hcaps | split; [exact Hnd | lia]].
  - destruct (Htests d prompts (or_introl eq_refl)) as [Hd H3].
    assert (Hrest : forall d0 p0, In (d0, p0) rest ->
                                  In d0 capability_domains
                                  /\ List.length p0 = 3%nat).
    { intros d0 p0 Hin. apply Htests. right. exact Hin. }
    cbn [capabilities_loop].
    destruct (probe_loop_spec model d prompts Hd [] [] (Forall_nil _))
      as (Hunit & Hls & Hlp).
    destruct (probe_loop model d prompts [] []) as [scores patterns].
    cbn [fst snd] in Hunit, Hls, Hlp. simpl in Hls, Hlp.
    assert (Hne : scores <> []) by (intros E; rewrite E in Hls; simpl in Hls; lia).
    set (avg := match scores with [] => 0 | _ => Qsum scores / len scores end).
    assert (Eavg : avg = Qsum scores / len scores).
    { unfold avg. destruct scores; [contradiction | reflexivity]. }
    destruct (Qlt_bool (3 # 10) avg) eqn:Eb.
    + apply Qlt_bool_iff in Eb.
      assert (Hle : avg <= 1) by (rewrite Eavg; apply mean_le_1; assumption).
      destruct (IH Hrest
                  (caps ++
                   [mkCapability (model_name ++ "_" ++ d) d avg (0%Z, 20%Z)
                      (int_of_Q (avg * 1000000)) patterns
                      (extract_specialized_tokens d)]))
        as (I1 & I2 & I3).
      * rewrite map_app. simpl. rewrite <- app_assoc. exact Hnd.
      * intros c Hc. apply in_app_or in Hc.
        destruct Hc as [Hc | [<- | []]]; [apply Hcaps; exact Hc | ].
        unfold reported. simpl.
        repeat split; try assumption; try reflexivity; try lia.
        -- apply (int_of_Q_between 300000 1000000).
           ++ apply Qlt_le_weak.
              setoid_replace (inject_Z 300000) with ((3 # 10) * 1000000)
                by reflexivity.
              apply Qmult_lt_compat_r; [reflexivity | exact Eb].
           ++ setoid_replace (inject_Z 1000000) with (1 * 1000000)
                by reflexivity.
              apply Qmult_le_compat_r; [exact Hle | discriminate].
        -- apply (int_of_Q_between 300000 1000000).
           ++ apply Qlt_le_weak.
              setoid_replace (inject_Z 300000) with ((3 # 10) * 1000000)
                by reflexivity.
              apply Qmult_lt_compat_r; [reflexivity | exact Eb].
           ++ setoid_replace (inject_Z 1000000) with (1 * 1000000)
                by reflexivity.
              apply Qmult_le_compat_r; [exact Hle | discriminate].
      * split; [exact I1 | split; [exact I2 | ]].
        rewrite length_app in I3. simpl in I3 |- *. lia.
    + destruct (IH Hrest caps) as (I1 & I2 & I3).
      * simpl in Hnd. apply NoDup_remove_1 in Hnd. exact Hnd.
      * exact Hcaps.
      * split; [exact I1 | split; [exact I2 | simpl; lia]].
Qed.

(** X16: what [extract_capabilities] reports.  Every reported capability
    belongs to one of the six domains and is named after the artifact and
    the domain; its strength is above 0.3 and at most 1; its parameter count
    is [int(strength * 1000000)], between 300000 and 1000000; it carries one
    activation value per probe (three) and the specialised tokens of its
    domain.  No domain is reported twice, so there are at most six
    capabilities. *)
Theorem extract_capabilities_reported
    (model : string -> Z -> option (string * Q)) (model_name : string) :
  (forall c, In c (extract_capabilities model model_name) ->
             reported model_name c)
  /\ NoDup (map domain (extract_capabilities model model_name))
  /\ (List.length (extract_capabilities model model_name) <= 6)%nat.
Proof.
  unfold extract_capabilities.
  apply (capabilities_loop_reported model model_name capability_tests).
  - intros d prompts Hin. unfold capability_tests in Hin. simpl in Hin.
    destruct Hin as [E | [E | [E | [E | [E | [E | []]]]]]];
      injection E as <- <-; split; try reflexivity; vm_compute; tauto.
  - simpl. repeat constructor; simpl; intuition discriminate.
  - intros c [].
Qed.

Lemma Qsum_repeat_0 (n : nat) : Qsum (repeat 0 n) == 0.
Proof.
  apply Qsum_zero. intros x Hx. apply repeat_spec in Hx. rewrite Hx. reflexivity.
Qed.

Lemma probe_loop_silent
    (model : string -> Z -> option (string * Q)) (d : string)
    (prompts : list string) :
  (forall prompt, In prompt prompts -> silent model prompt) ->
  forall scores patterns,
    fst (probe_loop model d prompts scores patterns) =
    scores ++ repeat 0 (List.length prompts).
Proof.
  induction prompts as [ | prompt rest IH]; intros Hsil scores patterns.
  - simpl. rewrite app_nil_r. reflexivity.
  - cbn [probe_loop].
    assert (Hrest : forall p, In p rest -> silent model p).
    { intros p Hp. apply Hsil. right. exact Hp. }
    destruct (Hsil prompt (or_introl eq_refl)) as [E | (r & t & E & Hblank)];
      rewrite E.
    + rewrite (IH Hrest). rewrite <- app_assoc. reflexivity.
    + rewrite (score_response_blank _ _ _ Hblank), (IH Hrest).
      rewrite <- app_assoc. reflexivity.
Qed.

Lemma capabilities_loop_silent
    (model : string -> Z -> option (string * Q)) (model_name : string)
    (tests : Dict.t (list string)) :
  (forall prompt, silent model prompt) ->
  forall capabilities,
    capabilities_loop model model_name tests capabilities = capabilities.
Proof.
  intros Hsil. induction tests as [ | [d prompts] rest IH]; intros caps.
  - reflexivity.
  - cbn [capabilities_loop].
    pose proof (probe_loop_silent model d prompts
                  (fun p _ => Hsil p) [] []) as Es.
    destruct (probe_loop model d prompts [] []) as [scores patterns].
    cbn [fst] in Es. simpl in Es. subst scores.
    assert (Eb : Qlt_bool (3 # 10)
                   match repeat 0 (List.length prompts) with
                   | [] => 0
                   | _ :: _ =>
                       Qsum (repeat 0 (List.length prompts))
                       / len (repeat 0 (List.length prompts))
                   end = false).
    { apply Qlt_bool_false.
      destruct (repeat 0 (List.length prompts)) as [ | x l] eqn:E;
        [discriminate | ].
      rewrite <- E, Qsum_repeat_0. unfold Qdiv. rewrite Qmult_0_l. discriminate. }
    rewrite Eb. apply IH.
Qed.

(** X17: an artifact that gives no usable answer has no capabilities.
    When every probe either fails or is answered by an empty or
    white-space-only text, every probe scores 0.0 and
    [extract_capabilities] returns the empty list. *)
Theorem extract_capabilities_silent
    (model : string -> Z -> option (string * Q)) (model_name : string) :
  (forall prompt, silent model prompt) ->
  extract_capabilities model model_name = [].
Proof.
  intros Hsil. unfold extract_capabilities.
  apply capabilities_loop_silent. exact Hsil.
Qed.

(** ** Runs and archives *)

(** X18: the signatures of a run are gathered in discovery order, at most
    one per discovered path: [collect_signatures] appends to what it was
    given the signature of every path that yields one, in the order of the
    paths, and skips the others. *)
Theorem collect_signatures_in_order
    (dissect : path -> result (option ModelSignature))
    (walk : path -> result (list path))
    (model_paths : list path) (signatures : list ModelSignature) :
  collect_signatures dissect walk model_paths signatures =
    signatures ++
    flat_map (fun p => contribution (dissect_model_structure dissect walk p))
      model_paths
  /\ (List.length (collect_signatures dissect walk model_paths [])
      <= List.length model_paths)%nat.
Proof.
  assert (H : forall paths acc,
             collect_signatures dissect walk paths acc =
             acc ++
             flat_map
               (fun p => contribution (dissect_model_structure dissect walk p))
               paths).
  { induction paths as [ | p rest IH]; intros acc; simpl.
    - rewrite app_nil_r. reflexivity.
    - destruct (dissect_model_structure dissect walk p) as [s | ]; simpl.
      + rewrite IH, <- app_assoc. reflexivity.
      + apply IH. }
  split; [apply H | ].
  rewrite H. simpl. induction model_paths as [ | p rest IH]; simpl; [lia | ].
  rewrite length_app.
  destruct (dissect_model_structure dissect walk p); simpl; lia.
Qed.

Lemma first_signature_complete
    (dissect : path -> result (option ModelSignature))
    (before after : list path) (p : path) (signature : ModelSignature) :
  (forall q, In q before -> dissect q = Ok None) ->
  dissect p = Ok (Some signature) ->
  first_signature dissect (before ++ p :: after) = Ok (Some signature).
Proof.
  intros Hb Hp. induction before as [ | q before IH]; simpl.
  - rewrite Hp. reflexivity.
  - rewrite (Hb q (or_introl eq_refl)). apply IH.
    intros q' Hq'. apply Hb. right. exact Hq'.
Qed.

(** X19: when a path yields a signature.  A path whose suffix is not
    [.tar] yields exactly what the loader returns for it, and nothing when
    the loader raises.  An archive yields a signature exactly when it can be
    unpacked and, among its files whose lower-cased name ends in [.gguf],
    taken in walk order, there is one for which the loader returns a
    signature while it returned nothing, without raising, for all those
    before it; the signature is that one.  Files with other names are never
    handed to the loader. *)
Theorem dissect_model_structure_spec
    (dissect : path -> result (option ModelSignature))
    (walk : path -> result (list path))
    (model_path : path) (signature : ModelSignature) :
  (String.eqb (suffix model_path) ".tar" = false ->
   (dissect_model_structure dissect walk model_path = Some signature
    <-> dissect model_path = Ok (Some signature)))
  /\ (String.eqb (suffix model_path) ".tar" = true ->
      (dissect_model_structure dissect walk model_path = Some signature
       <-> exists files before p after,
           walk model_path = Ok files
           /\ gguf_members files = before ++ p :: after
           /\ dissect p = Ok (Some signature)
           /\ forall q, In q before -> dissect q = Ok None)).
Proof.
  unfold dissect_model_structure, dissect_body. split; intros Hs; rewrite Hs.
  - destruct (dissect model_path) as [[s | ] | e]; split; intros H;
      try discriminate H; congruence.
  - fold gguf_members. split.
    + intros H. destruct (walk model_path) as [files | e]; [ | discriminate H].
      fold (gguf_members files) in H.
      destruct (gguf_members files) as [ | m ms] eqn:Em; [discriminate H | ].
      destruct (first_signature dissect (m :: ms)) as [r | e] eqn:Ef;
        [ | discriminate H].
      subst r.
      destruct (first_signature_found dissect (m :: ms) signature Ef)
        as (before & p & after & Eq & Hp & Hb).
      exists files, before, p, after.
      split; [reflexivity | split; [ | split; [exact Hp | exact Hb]]].
      rewrite Em. exact Eq.
    + intros (files & before & p & after & Ew & Eg & Hp & Hb).
      rewrite Ew. fold (gguf_members files). rewrite Eg.
      rewrite (first_signature_complete dissect before after p signature Hb Hp).
      destruct (before ++ p :: after) eqn:E; [ | reflexivity].
      destruct before; discriminate E.
Qed.

(** ** Registered signatures, again *)

Lemma find_snoc {A} (p : A -> bool) (l : list A) (x : A) :
  find p (l ++ [x]) =
  match find p l with
  | Some y => Some y
  | None => if p x then Some x else None
  end.
Proof.
  induction l as [ | y l IH]; simpl; [reflexivity | ].
  destruct (p y); [reflexivity | exact IH].
Qed.

Lemma register_get (signatures : list ModelSignature) (n : string) :
  forall d : Dict.t ModelSignature,
    Dict.get n (register_signatures signatures d) =
    match find (fun s => String.eqb (model_name s) n) (rev signatures) with
    | Some s => Some s
    | None => Dict.get n d
    end.
Proof.
  induction signatures as [ | x l IH]; intros d.
  - reflexivity.
  - unfold register_signatures in *. simpl fold_left. rewrite IH.
    simpl rev. rewrite find_snoc.
    destruct (find (fun s => String.eqb (model_name s) n) (rev l));
      [reflexivity | ].
    destruct (String.eqb_spec (model_name x) n) as [E | N].
    + rewrite <- E. apply get_set_same.
    + apply get_set_other. exact N.
Qed.

(** X20: signatures are kept by artifact name, the last one winning.
    After registration the signature found under a name is the last
    signature of the input sequence that bears this name (none if there is
    none), while the names keep the order in which they were first seen; so
    two artifacts with the same file stem count as one component. *)
Theorem register_last_wins (signatures : list ModelSignature) (n : string) :
  Dict.get n (register_signatures signatures []) =
    find (fun s => String.eqb (model_name s) n) (rev signatures)
  /\ Dict.keys (register_signatures signatures []) =
     first_seen (map model_name signatures)
  /\ NoDup (Dict.keys (register_signatures signatures [])).
Proof.
  split; [ | split].
  - rewrite register_get.
    destruct (find (fun s => String.eqb (model_name s) n) (rev signatures));
      reflexivity.
  - rewrite register_keys. reflexivity.
  - apply register_nodup.
Qed.

(** ** Blueprint *)

Lemma first_seen_in (names : list string) (x : string) :
  In x (first_seen names) <-> In x names.
Proof.
  unfold first_seen.
  assert (G : forall s, In x (fold_left (fun seen y => set_add y seen) names s)
                        <-> In x s \/ In x names).
  { induction names as [ | y l IH]; intros s; simpl.
    - tauto.
    - rewrite IH, set_add_in. intuition congruence. }
  rewrite G. simpl. tauto.
Qed.

Lemma register_nonempty (signatures : list ModelSignature) :
  signatures <> [] -> register_signatures signatures [] <> [].
Proof.
  intros Hne E. destruct signatures as [ | s l]; [contradiction | ].
  assert (Hin : In (model_name s)
                  (Dict.keys (register_signatures (s :: l) []))).
  { rewrite register_keys. apply (proj2 (first_seen_in _ _)).
    left. reflexivity. }
  rewrite E in Hin. exact Hin.
Qed.

Lemma domain_experts_keys (ms : Dict.t ModelSignature)
    (M : Dict.t (Dict.t Q)) (domains : list string) :
  forall experts,
    domain_experts ms M domains = Ok experts ->
    Dict.keys experts = domains
    /\ forall d m, In (d, m) experts ->
                   get_best_model_for_domain ms M d = Ok m.
Proof.
  induction domains as [ | d0 rest IH]; intros experts H; simpl in H.
  - injection H as <-. split; [reflexivity | intros ? ? []].
  - destruct (get_best_model_for_domain ms M d0) as [b0 | e] eqn:E0;
      [ | discriminate H].
    destruct (domain_experts ms M rest) as [ex | e]; [ | discriminate H].
    injection H as <-. destruct (IH ex eq_refl) as [Hk Hv].
    split; [simpl; rewrite Hk; reflexivity | ].
    intros d m [Eq | Hin]; [injection Eq as <- <-; exact E0 | ].
    apply Hv. exact Hin.
Qed.

Lemma py_max_in (items : list (string * Q)) (best : string * Q) :
  py_max items = Ok best -> In best items.
Proof.
  destruct items as [ | x rest]; cbn [py_max]; [discriminate | ].
  intros H. injection H as <-.
  destruct (max_from_first rest x) as (before & after & Heq & _).
  rewrite Heq. apply in_or_app. right. left. reflexivity.
Qed.

Lemma get_best_is_registered (ms : Dict.t ModelSignature) (d m : string) :
  NoDup (Dict.keys ms) ->
  get_best_model_for_domain ms (build_capability_matrix ms []) d = Ok m ->
  In m (Dict.keys ms)
  /\ (Dict.get d (build_capability_matrix ms []) = None ->
      exists rest, Dict.keys ms = m :: rest).
Proof.
  intros Hnd. unfold get_best_model_for_domain.
  rewrite capability_matrix_get.
  destruct (in_dec string_dec d (all_domains_of ms)) as [Hin | Hout].
  - destruct (py_max (domain_row ms d)) as [best | e] eqn:E; [ | discriminate].
    intros H. injection H as <-. split; [ | discriminate].
    apply py_max_in in E. rewrite (domain_row_map ms d Hnd) in E.
    apply in_map_iff in E. destruct E as ([n s] & <- & Hns).
    simpl. apply (in_map fst _ _ Hns).
  - destruct (Dict.keys ms) as [ | first rest]; [discriminate | ].
    intros H. injection H as <-.
    split; [left; reflexivity | intros _; exists rest; reflexivity].
Qed.

(** X21: a blueprint needs one signature.  With no signature at all,
    [analyze_dissection_results] fails with [IndexError] when it looks up
    the expert of the first domain (there is no first artifact to fall back
    on); with at least one signature it always produces a blueprint. *)
Theorem blueprint_needs_a_signature (signatures : list ModelSignature) :
  (signatures = [] ->
   analyze_dissection_results signatures = ([], Err IndexError))
  /\ (signatures <> [] ->
      exists b, snd (analyze_dissection_results signatures) = Ok b).
Proof.
  split.
  - intros ->. reflexivity.
  - intros Hne. unfold analyze_dissection_results. simpl snd.
    set (ms := register_signatures signatures []).
    pose proof (register_nodup signatures) as Hnd. fold ms in Hnd.
    pose proof (register_nonempty signatures Hne) as Hms. fold ms in Hms.
    destruct (domain_experts_get ms (build_capability_matrix ms [])
                capability_domains) as (experts & Eex & _).
    { intros d _. apply get_best_total; assumption. }
    unfold design_supermodel_architecture. rewrite Eex. eexists. reflexivity.
Qed.

(** X22: what a blueprint holds.  Its routing table has exactly the six
    domains, in their fixed order, and every expert is one of the registered
    artifacts; a domain in which no artifact has a capability is routed to
    the first registered artifact.  The component count is the number of
    distinct artifact names, the listed models are these names in first-seen
    order, the listed domains are the rows of the capability matrix, and the
    fusion weights are keyed by the same names in the same order. *)
Theorem blueprint_contents (signatures : list ModelSignature) (b : blueprint) :
  snd (analyze_dissection_results signatures) = Ok b ->
  let names := first_seen (map model_name signatures) in
  Dict.keys (bp_domain_experts b) = capability_domains
  /\ (forall d m, In (d, m) (bp_domain_experts b) -> In m names)
  /\ (forall d m,
         In (d, m) (bp_domain_experts b) ->
         Dict.get d (fst (analyze_dissection_results signatures)) = None ->
         exists rest, names = m :: rest)
  /\ bp_models_used b = names
  /\ bp_component_models b = List.length names
  /\ bp_domains b = Dict.keys (fst (analyze_dissection_results signatures))
  /\ Dict.keys (bp_fusion_weights b) = names.
Proof.
  unfold analyze_dissection_results. simpl fst. simpl snd.
  set (ms := register_signatures signatures []).
  pose proof (register_nodup signatures) as Hnd. fold ms in Hnd.
  assert (Hkeys : Dict.keys ms = first_seen (map model_name signatures)).
  { unfold ms. rewrite register_keys. reflexivity. }
  unfold design_supermodel_architecture.
  destruct (domain_experts ms (build_capability_matrix ms []) capability_domains)
    as [experts | e] eqn:Eex; [ | discriminate].
  intros H. injection H as <-. cbv zeta. cbn [bp_domain_experts bp_models_used
    bp_component_models bp_domains bp_fusion_weights].
  destruct (domain_experts_keys _ _ _ _ Eex) as [Hk Hv].
  split; [exact Hk | ].
  split.
  { intros d m Hin. rewrite <- Hkeys.
    apply (get_best_is_registered ms d m Hnd (Hv d m Hin)). }
  split.
  { intros d m Hin Hnone. rewrite <- Hkeys.
    apply (get_best_is_registered ms d m Hnd (Hv d m Hin)). exact Hnone. }
  split; [exact Hkeys | ].
  split; [rewrite <- Hkeys; unfold Dict.keys; rewrite length_map; reflexivity | ].
  split; [reflexivity | ].
  rewrite <- Hkeys. unfold calculate_fusion_weights.
  rewrite (raw_weights_map ms Hnd).
  destruct (Qlt_bool 0 _); unfold Dict.keys; rewrite ?map_map; reflexivity.
Qed.

Lemma Qsum_ge_elem (l : list Q) (x : Q) :
  (forall y, In y l -> 0 <= y) -> In x l -> x <= Qsum l.
Proof.
  induction l as [ | y l IH]; intros Hall Hin; [contradiction | ].
  rewrite Qsum_cons.
  assert (Hl : 0 <= Qsum l).
  { apply Qsum_nonneg. intros z Hz. apply Hall. right. exact Hz. }
  destruct Hin as [-> | Hin].
  - setoid_replace x with (x + 0) at 1 by ring.
    apply Qplus_le_compat; [apply Qle_refl | exact Hl].
  - setoid_replace x with (0 + x) at 1 by ring.
    apply Qplus_le_compat.
    + apply Hall. left. reflexivity.
    + apply IH; [intros z Hz; apply Hall; right; exact Hz | exact Hin].
Qed.

(** X23: fusion weights are shares.  When no strength of any signature is
    negative, every fusion weight lies between 0 and 1, whether or not the
    weights were normalised. *)
Theorem fusion_weights_are_shares (signatures : list ModelSignature) :
  (forall s v, In s signatures -> In v (Dict.values (strengths s)) -> 0 <= v) ->
  forall n w,
    In (n, w) (calculate_fusion_weights (register_signatures signatures [])) ->
    0 <= w /\ w <= 1.
Proof.
  intros Hnonneg n w Hin.
  set (ms := register_signatures signatures []) in *.
  pose proof (register_nodup signatures) as Hnd. fold ms in Hnd.
  assert (Hraw : forall y, In y (Dict.values (raw_weights ms)) -> 0 <= y).
  { intros y Hy. rewrite (raw_weights_values ms Hnd) in Hy.
    apply in_map_iff in Hy. destruct Hy as (s & <- & Hs).
    unfold Dict.values in Hs. apply in_map_iff in Hs.
    destruct Hs as ([n' s'] & <- & Hns). simpl.
    apply overall_weight_nonneg. intros v Hv.
    destruct (register_in signatures [] n' s' Hns) as [[] | [Hs' _]].
    exact (Hnonneg s' v Hs' Hv). }
  unfold calculate_fusion_weights in Hin.
  destruct (Qlt_bool 0 (Qsum (Dict.values (raw_weights ms)))) eqn:Eb.
  - apply Qlt_bool_iff in Eb.
    apply in_map_iff in Hin. destruct Hin as ([n' r] & E & Hr).
    injection E as <- <-. simpl.
    assert (Hrv : In r (Dict.values (raw_weights ms)))
      by (apply (in_map snd _ _ Hr)).
    split.
    + apply ratio_nonneg; [apply Hraw; exact Hrv | apply Qlt_le_weak; exact Eb].
    + apply Qle_shift_div_r; [exact Eb | ].
      rewrite Qmult_1_l. apply Qsum_ge_elem; assumption.
  - apply Qlt_bool_false in Eb.
    assert (Hrv : In w (Dict.values (raw_weights ms)))
      by (apply (in_map snd _ _ Hin)).
    split; [apply Hraw; exact Hrv | ].
    apply (Qle_trans _ (Qsum (Dict.values (raw_weights ms)))).
    + apply Qsum_ge_elem; assumption.
    + apply (Qle_trans _ 0); [exact Eb | discriminate].
Qed.

(** ** Merged tensors *)

Lemma merge_layer_spec (model_idx : nat) (layer_name : string) (l : layer)
    (u : unified_model) (c : nat) :
  let st' := merge_layer model_idx layer_name l (u, c) in
  output_layers (fst st') = output_layers u
  /\ (forall k v, In (k, v) (unified_tensors (fst st')) ->
                  v = l \/ In (k, v) (unified_tensors u))
  /\ (List.length (unified_tensors (fst st'))
      <= S (List.length (unified_tensors u)))%nat.
Proof.
  unfold merge_layer.
  repeat match goal with
         | |- context [if ?b then _ else _] => destruct b
         end;
    cbv zeta; cbn [fst snd]; unfold unified_tensors;
    cbn [embedding_layers transformer_blocks attention_layers
         feed_forward_layers output_layers];
    (split; [reflexivity | split]);
    try (intros k v Hin;
         repeat rewrite in_app_iff in Hin; repeat rewrite in_app_iff;
         repeat match type of Hin with
                | _ \/ _ => destruct Hin as [Hin | Hin]
                end;
         try (apply set_in_inv in Hin; destruct Hin as [[_ ->] | Hin]);
         tauto);
    repeat rewrite length_app;
    match goal with
    | |- context [Dict.set ?k ?v ?d] => pose proof (set_length k v d)
    end; lia.
Qed.

Lemma merge_layers_spec (model_idx : nat) (ls : Dict.t layer) :
  forall st : unified_model * nat,
    let st' :=
      fold_left (fun st kv => merge_layer model_idx (fst kv) (snd kv) st) ls st in
    output_layers (fst st') = output_layers (fst st)
    /\ (forall k v, In (k, v) (unified_tensors (fst st')) ->
                    In v (map snd ls) \/ In (k, v) (unified_tensors (fst st)))
    /\ (List.length (unified_tensors (fst st'))
        <= List.length (unified_tensors (fst st)) + List.length ls)%nat.
Proof.
  induction ls as [ | [nm l] ls IH]; intros st.
  - simpl. split; [reflexivity | split; [intros k v H; right; exact H | lia]].
  - cbn [fold_left fst snd].
    destruct st as [u c].
    destruct (merge_layer_spec model_idx nm l u c) as (M1 & M2 & M3).
    destruct (IH (merge_layer model_idx nm l (u, c))) as (I1 & I2 & I3).
    cbv zeta in *. cbn [fst] in *.
    split; [rewrite I1; exact M1 | split].
    + intros k v Hin. destruct (I2 k v Hin) as [Hv | Hprev].
      * left. simpl. right. exact Hv.
      * destruct (M2 k v Hprev) as [-> | Hu].
        -- left. simpl. left. reflexivity.
        -- right. exact Hu.
    + change (List.length ((nm, l) :: ls)) with (S (List.length ls)). lia.
Qed.

Lemma merge_loop_spec (all_weights : list (option weights_data)) :
  forall (model_idx : nat) (st : unified_model * nat),
    let st' := merge_loop model_idx all_weights st in
    output_layers (fst st') = output_layers (fst st)
    /\ (forall k v, In (k, v) (unified_tensors (fst st')) ->
                    In v (map snd (input_tensors all_weights))
                    \/ In (k, v) (unified_tensors (fst st)))
    /\ (List.length (unified_tensors (fst st'))
        <= List.length (unified_tensors (fst st))
           + List.length (input_tensors all_weights))%nat.
Proof.
  induction all_weights as [ | [w | ] rest IH]; intros model_idx st.
  - simpl. split; [reflexivity | split; [intros k v H; right; exact H | lia]].
  - cbn [merge_loop input_tensors flat_map].
    destruct (merge_layers_spec model_idx (layers w) st) as (L1 & L2 & L3).
    destruct (IH (S model_idx)
                (fold_left
                   (fun st kv => merge_layer model_idx (fst kv) (snd kv) st)
                   (layers w) st)) as (I1 & I2 & I3).
    cbv zeta in *. fold (input_tensors rest) in *.
    split; [rewrite I1; exact L1 | split].
    + intros k v Hin. rewrite map_app, in_app_iff.
      destruct (I2 k v Hin) as [Hv | Hprev]; [left; right; exact Hv | ].
      destruct (L2 k v Hprev) as [Hv | Hu]; [left; left; exact Hv | right; exact Hu].
    + rewrite length_app. lia.
  - cbn [merge_loop input_tensors flat_map]. simpl app.
    apply IH.
Qed.

(** X24: the merger only files tensors away.  Every tensor of the unified
    model is one of the tensors handed in, unchanged; there are never more
    tensors in the output than in the input; [output_layers] always stays
    empty. *)
Theorem merge_only_files_tensors (all_weights : list (option weights_data)) :
  let unified := merge_extracted_weights all_weights in
  (forall k v, In (k, v) (unified_tensors unified) ->
               In v (map snd (input_tensors all_weights)))
  /\ (List.length (unified_tensors unified)
      <= List.length (input_tensors all_weights))%nat
  /\ output_layers unified = [].
Proof.
  unfold merge_extracted_weights.
  destruct (merge_loop_spec all_weights 0 (mkUnified [] [] [] [] [], O))
    as (H1 & H2 & H3).
  cbv zeta in *. cbn [fst] in H1, H2, H3.
  split; [ | split; [exact H3 | exact H1]].
  intros k v Hin. destruct (H2 k v Hin) as [Hv | []]. exact Hv.
Qed.

(** ** Names given by the merger *)

Lemma string_of_uint_digits (d : Decimal.uint) :
  all_digits (NilEmpty.string_of_uint d) = true.
Proof. induction d; simpl; try reflexivity; exact IHd. Qed.

Lemma str_of_nat_digits (n : nat) : all_digits (str_of_nat n) = true.
Proof. apply string_of_uint_digits. Qed.

Lemma str_of_nat_inj (n m : nat) : str_of_nat n = str_of_nat m -> n = m.
Proof.
  unfold str_of_nat. intros H.
  assert (E : Some (Nat.to_uint n) = Some (Nat.to_uint m)).
  { rewrite <- !NilEmpty.usu. rewrite H. reflexivity. }
  injection E as E.
  rewrite <- (DecimalNat.Unsigned.of_to n), <- (DecimalNat.Unsigned.of_to m).
  rewrite E. reflexivity.
Qed.

Lemma append_inj_l (p a b : string) : (p ++ a = p ++ b)%string -> a = b.
Proof.
  induction p as [ | c p IH]; simpl; intros H; [exact H | ].
  injection H as H. apply IH. exact H.
Qed.

(** A number, an underscore, a name: the number and the name can be read
    back. *)
Lemma digits_sep (s1 : string) :
  forall s2 x y,
    all_digits s1 = true -> all_digits s2 = true ->
    (s1 ++ "_" ++ x = s2 ++ "_" ++ y)%string -> s1 = s2 /\ x = y.
Proof.
  induction s1 as [ | a s1 IH]; intros [ | b s2] x y H1 H2 H; simpl in *.
  - injection H as H. split; [reflexivity | exact H].
  - injection H as Ha _. subst b. discriminate H2.
  - injection H as Ha _. subst a. discriminate H1.
  - injection H as -> H.
    apply andb_true_iff in H1. apply andb_true_iff in H2.
    destruct (IH s2 x y (proj2 H1) (proj2 H2) H) as [-> ->].
    split; reflexivity.
Qed.

Lemma numbered_name_inj (p : string) (i j : nat) (n m : string) :
  (p ++ str_of_nat i ++ "_" ++ n = p ++ str_of_nat j ++ "_" ++ m)%string ->
  i = j /\ n = m.
Proof.
  intros H. apply append_inj_l in H.
  destruct (digits_sep _ _ _ _ (str_of_nat_digits i) (str_of_nat_digits j) H)
    as [Hs Hn].
  split; [apply str_of_nat_inj; exact Hs | exact Hn].
Qed.

Lemma fresh_appends {V : Type} (k : string) (v : V) (d : Dict.t V) :
  ~ In k (Dict.keys d) ->
  Dict.set k v d = d ++ [(k, v)]
  /\ Dict.keys (Dict.set k v d) = Dict.keys d ++ [k].
Proof.
  intros H. rewrite (set_fresh k v d H). split; [reflexivity | ].
  unfold Dict.keys. rewrite map_app. reflexivity.
Qed.

Lemma filed_next_artifact (i : nat) (seen : list string) (c : nat)
    (u : unified_model) :
  filed i seen c u -> filed (S i) [] c u.
Proof.
  intros (HE & HA & HB). split; [ | split].
  - intros k Hk. destruct (HE k Hk) as (j & n & E & Hj).
    exists j, n. split; [exact E | left; lia].
  - exact HA.
  - intros k Hk. destruct (HB k Hk) as [(j & n & E & Hj) | R].
    + left. exists j, n. split; [exact E | left; lia].
    + right. exact R.
Qed.

(** One tensor that is not filed as feed-forward gets a name not used
    before: it is added, and nothing already filed is touched. *)
Lemma merge_layer_fresh (i : nat) (seen : list string) (c : nat)
    (u : unified_model) (nm : string) (l : layer) :
  filed i seen c u ->
  ~ In nm seen ->
  feed_forward_name nm = false ->
  exists u' c',
    merge_layer i nm l (u, c) = (u', c')
    /\ filed i (nm :: seen) c' u'
    /\ List.length (unified_tensors u') = S (List.length (unified_tensors u))
    /\ (forall kv, In kv (unified_tensors u) -> In kv (unified_tensors u'))
    /\ (exists k, In (k, l) (unified_tensors u')).
Proof.
  intros (HE & HA & HB) Hnew Hff.
  unfold merge_layer. unfold feed_forward_name in Hff. cbv zeta in Hff.
  destruct (contains "embed" (lower nm)) eqn:Ee.
  { (* embedding *)
    assert (Hfresh : ~ In ("model_" ++ str_of_nat i ++ "_" ++ nm)%string
                       (Dict.keys (embedding_layers u))).
    { intros Hin. destruct (HE _ Hin) as (j & n & E & Hj).
      apply (numbered_name_inj "model_") in E. destruct E as [<- <-].
      destruct Hj as [Hlt | [_ Hs]]; [lia | contradiction]. }
    destruct (fresh_appends _ l _ Hfresh) as [Eset Ekeys].
    eexists. eexists. split; [reflexivity | ].
    unfold unified_tensors.
    cbn [embedding_layers transformer_blocks attention_layers
         feed_forward_layers output_layers].
    split; [split; [ | split] | split; [ | split]].
    - cbn [embedding_layers]. rewrite Ekeys. intros k Hk.
      apply in_app_or in Hk. destruct Hk as [Hk | [<- | []]].
      + destruct (HE k Hk) as (j & n & E & Hj). exists j, n.
        split; [exact E | ].
        destruct Hj as [Hlt | [Ej Hs]]; [left; exact Hlt | right; split; [exact Ej | right; exact Hs]].
      + exists i, nm. split; [reflexivity | right; split; [reflexivity | left; reflexivity]].
    - exact HA.
    - cbn [transformer_blocks]. intros k Hk.
      destruct (HB k Hk) as [(j & n & E & Hj) | R]; [left | right; exact R].
      exists j, n. split; [exact E | ].
      destruct Hj as [Hlt | [Ej Hs]]; [left; exact Hlt | right; split; [exact Ej | right; exact Hs]].
    - rewrite Eset. rewrite !length_app. simpl. lia.
    - intros kv Hin. rewrite Eset. rewrite !in_app_iff in *. tauto.
    - eexists. rewrite Eset. rewrite !in_app_iff. left. right. left. reflexivity. }
  destruct (contains "attn" (lower nm) || contains "attention" (lower nm)) eqn:Ea.
  { (* attention *)
    assert (Hfresh : ~ In ("unified_attn_" ++ str_of_nat c)%string
                       (Dict.keys (attention_layers u))).
    { intros Hin. destruct (HA _ Hin) as (c' & E & Hc).
      apply append_inj_l in E. apply str_of_nat_inj in E. lia. }
    destruct (fresh_appends _ l _ Hfresh) as [Eset Ekeys].
    eexists. eexists. split; [reflexivity | ].
    unfold unified_tensors.
    cbn [embedding_layers transformer_blocks attention_layers
         feed_forward_layers output_layers].
    split; [split; [ | split] | split; [ | split]].
    - cbn [embedding_layers]. intros k Hk.
      destruct (HE k Hk) as (j & n & E & Hj). exists j, n.
      split; [exact E | ].
      destruct Hj as [Hlt | [Ej Hs]]; [left; exact Hlt | right; split; [exact Ej | right; exact Hs]].
    - cbn [attention_layers]. rewrite Ekeys. intros k Hk.
      apply in_app_or in Hk. destruct Hk as [Hk | [<- | []]].
      + destruct (HA k Hk) as (c' & E & Hc). exists c'. split; [exact E | lia].
      + exists c. split; [reflexivity | lia].
    - cbn [transformer_blocks]. intros k Hk.
      destruct (HB k Hk) as [(j & n & E & Hj) | (c' & n & E & Hc)].
      + left. exists j, n. split; [exact E | ].
        destruct Hj as [Hlt | [Ej Hs]]; [left; exact Hlt | right; split; [exact Ej | right; exact Hs]].
      + right. exists c', n. split; [exact E | lia].
    - rewrite Eset. rewrite !length_app. simpl. lia.
    - intros kv Hin. rewrite Eset. rewrite !in_app_iff in *. tauto.
    - eexists. rewrite Eset. rewrite !in_app_iff.
      right. right. left. right. left. reflexivity. }
  destruct (contains "mlp" (lower nm) || contains "ffn" (lower nm)) eqn:Em;
    [discriminate Hff | ].
  destruct (contains "norm" (lower nm)) eqn:En.
  { (* normalisation *)
    assert (Hfresh : ~ In ("norm_" ++ str_of_nat i ++ "_" ++ nm)%string
                       (Dict.keys (transformer_blocks u))).
    { intros Hin. destruct (HB _ Hin) as [(j & n & E & Hj) | (c' & n & E & _)].
      - apply (numbered_name_inj "norm_") in E. destruct E as [<- <-].
        destruct Hj as [Hlt | [_ Hs]]; [lia | contradiction].
      - discriminate E. }
    destruct (fresh_appends _ l _ Hfresh) as [Eset Ekeys].
    eexists. eexists. split; [reflexivity | ].
    unfold unified_tensors.
    cbn [embedding_layers transformer_blocks attention_layers
         feed_forward_layers output_layers].
    split; [split; [ | split] | split; [ | split]].
    - cbn [embedding_layers]. intros k Hk.
      destruct (HE k Hk) as (j & n & E & Hj). exists j, n.
      split; [exact E | ].
      destruct Hj as [Hlt | [Ej Hs]]; [left; exact Hlt | right; split; [exact Ej | right; exact Hs]].
    - exact HA.
    - cbn [transformer_blocks]. rewrite Ekeys. intros k Hk.
      apply in_app_or in Hk. destruct Hk as [Hk | [<- | []]].
      + destruct (HB k Hk) as [(j & n & E & Hj) | R]; [left | right; exact R].
        exists j, n. split; [exact E | ].
        destruct Hj as [Hlt | [Ej Hs]]; [left; exact Hlt | right; split; [exact Ej | right; exact Hs]].
      + left. exists i, nm.
        split; [reflexivity | right; split; [reflexivity | left; reflexivity]].
    - rewrite Eset. rewrite !length_app. simpl. lia.
    - intros kv Hin. rewrite Eset. rewrite !in_app_iff in *. tauto.
    - eexists. rewrite Eset. rewrite !in_app_iff.
      right. left. right. left. reflexivity. }
  { (* general block *)
    assert (Hfresh : ~ In ("block_" ++ str_of_nat c ++ "_" ++ nm)%string
                       (Dict.keys (transformer_blocks u))).
    { intros Hin. destruct (HB _ Hin) as [(j & n & E & _) | (c' & n & E & Hc)].
      - discriminate E.
      - apply (numbered_name_inj "block_") in E. destruct E as [<- _]. lia. }
    destruct (fresh_appends _ l _ Hfresh) as [Eset Ekeys].
    eexists. eexists. split; [reflexivity | ].
    unfold unified_tensors.
    cbn [embedding_layers transformer_blocks attention_layers
         feed_forward_layers output_layers].
    split; [split; [ | split] | split; [ | split]].
    - cbn [embedding_layers]. intros k Hk.
      destruct (HE k Hk) as (j & n & E & Hj). exists j, n.
      split; [exact E | ].
      destruct Hj as [Hlt | [Ej Hs]]; [left; exact Hlt | right; split; [exact Ej | right; exact Hs]].
    - cbn [attention_layers]. intros k Hk.
      destruct (HA k Hk) as (c' & E & Hc). exists c'. split; [exact E | lia].
    - cbn [transformer_blocks]. rewrite Ekeys. intros k Hk.
      apply in_app_or in Hk. destruct Hk as [Hk | [<- | []]].
      + destruct (HB k Hk) as [(j & n & E & Hj) | (c' & n & E & Hc)].
        * left. exists j, n. split; [exact E | ].
          destruct Hj as [Hlt | [Ej Hs]]; [left; exact Hlt | right; split; [exact Ej | right; exact Hs]].
        * right. exists c', n. split; [exact E | lia].
      + right. exists c, nm. split; [reflexivity | lia].
    - rewrite Eset. rewrite !length_app. simpl. lia.
    - intros kv Hin. rewrite Eset. rewrite !in_app_iff in *. tauto.
    - eexists. rewrite Eset. rewrite !in_app_iff.
      right. left. right. left. reflexivity. }
Qed.

Lemma merge_layers_fresh (i : nat) (ls : Dict.t layer) :
  forall (seen : list string) (c : nat) (u : unified_model),
    filed i seen c u ->
    NoDup (Dict.keys ls) ->
    (forall n, In n (Dict.keys ls) -> ~ In n seen) ->
    (forall n, In n (Dict.keys ls) -> feed_forward_name n = false) ->
    exists u' c' seen',
      fold_left (fun st kv => merge_layer i (fst kv) (snd kv) st) ls (u, c)
      = (u', c')
      /\ filed i seen' c' u'
      /\ List.length (unified_tensors u')
         = (List.length (unified_tensors u) + List.length ls)%nat
      /\ (forall kv, In kv (unified_tensors u) -> In kv (unified_tensors u'))
      /\ (forall l, In l (map snd ls) -> exists k, In (k, l) (unified_tensors u')).
Proof.
  induction ls as [ | [nm l] ls IH]; intros seen c u Hf Hnd Hnew Hff.
  - exists u, c, seen. simpl.
    split; [reflexivity | split; [exact Hf | split; [lia | split]]].
    + intros kv H. exact H.
    + intros l [].
  - simpl in Hnd. inversion Hnd as [ | ? ? Hnotin Hnd']; subst.
    destruct (merge_layer_fresh i seen c u nm l Hf
                (Hnew nm (or_introl eq_refl)) (Hff nm (or_introl eq_refl)))
      as (u1 & c1 & E1 & Hf1 & L1 & P1 & (k1 & M1)).
    destruct (IH (nm :: seen) c1 u1 Hf1 Hnd') as
      (u' & c' & seen' & E' & Hf' & L' & P' & M').
    + intros n Hn [<- | Hs]; [contradiction | ].
      exact (Hnew n (or_intror Hn) Hs).
    + intros n Hn. apply Hff. right. exact Hn.
    + exists u', c', seen'. cbn [fold_left fst snd]. rewrite E1.
      split; [exact E' | split; [exact Hf' | split; [ | split]]].
      * rewrite L', L1. simpl. lia.
      * intros kv H. apply P'. apply P1. exact H.
      * intros l0 [<- | Hl0]; [exists k1; apply P'; exact M1 | apply M'; exact Hl0].
Qed.

Lemma merge_loop_fresh (all_weights : list (option weights_data)) :
  forall (i c : nat) (u : unified_model),
    filed i [] c u ->
    (forall w, In (Some w) all_weights -> NoDup (Dict.keys (layers w))) ->
    (forall nm l, In (nm, l) (input_tensors all_weights) ->
                  feed_forward_name nm = false) ->
    let u' := fst (merge_loop i all_weights (u, c)) in
    List.length (unified_tensors u')
    = (List.length (unified_tensors u)
       + List.length (input_tensors all_weights))%nat
    /\ (forall kv, In kv (unified_tensors u) -> In kv (unified_tensors u'))
    /\ (forall l, In l (map snd (input_tensors all_weights)) ->
                  exists k, In (k, l) (unified_tensors u')).
Proof.
  induction all_weights as [ | [w | ] rest IH]; intros i c u Hf Hnd Hff.
  - simpl. split; [lia | split; [intros kv H; exact H | intros l []]].
  - cbn [merge_loop].
    destruct (merge_layers_fresh i (layers w) [] c u Hf) as
      (u1 & c1 & seen1 & E1 & Hf1 & L1 & P1 & M1).
    + apply Hnd. left. reflexivity.
    + intros n _ [].
    + intros n Hn. unfold Dict.keys in Hn. apply in_map_iff in Hn.
      destruct Hn as ([n' l] & <- & Hin). apply (Hff n' l).
      cbn [input_tensors flat_map]. apply in_or_app. left. exact Hin.
    + rewrite E1.
      destruct (IH (S i) c1 u1 (filed_next_artifact _ _ _ _ Hf1)) as (L & P & M).
      * intros w' Hw'. apply Hnd. right. exact Hw'.
      * intros nm l Hin. apply (Hff nm l).
        cbn [input_tensors flat_map]. apply in_or_app. right. exact Hin.
      * cbv zeta in *. cbn [input_tensors flat_map].
        fold (input_tensors rest).
        split; [rewrite L, L1, length_app; lia | split].
        -- intros kv H. apply P. apply P1. exact H.
        -- intros l Hl. rewrite map_app in Hl. apply in_app_or in Hl.
           destruct Hl as [Hl | Hl].
           ++ destruct (M1 l Hl) as (k & Hk). exists k. apply P. exact Hk.
           ++ apply M. exact Hl.
  - cbn [merge_loop input_tensors flat_map]. simpl app.
    apply (IH (S i) c u (filed_next_artifact _ _ _ _ Hf)).
    + intros w Hw. apply Hnd. right. exact Hw.
    + intros nm l Hin. apply (Hff nm l). exact Hin.
Qed.

(** X25: without feed-forward tensors the merger loses nothing.  When no
    tensor name is filed as feed-forward (i.e. none mentions [mlp] or [ffn]
    without being taken as an embedding or attention tensor), every tensor
    gets a name not used before -- embedding and normalisation tensors by
    artifact index and tensor name, attention and general tensors by the
    running counter -- so the unified model holds exactly as many tensors as
    were handed in, and each of them. *)
Theorem merge_lossless_without_feed_forward
    (all_weights : list (option weights_data)) :
  (forall w, In (Some w) all_weights -> NoDup (Dict.keys (layers w))) ->
  (forall nm l, In (nm, l) (input_tensors all_weights) ->
                feed_forward_name nm = false) ->
  let unified := merge_extracted_weights all_weights in
  List.length (unified_tensors unified)
  = List.length (input_tensors all_weights)
  /\ (forall nm l, In (nm, l) (input_tensors all_weights) ->
                   exists k, In (k, l) (unified_tensors unified)).
Proof.
  intros Hnd Hff. unfold merge_extracted_weights.
  destruct (merge_loop_fresh all_weights 0 0 (mkUnified [] [] [] [] []))
    as (L & _ & M).
  - split; [intros k [] | split; [intros k [] | intros k []]].
  - exact Hnd.
  - exact Hff.
  - cbv zeta in *. split; [exact L | ].
    intros nm l Hin. apply M. apply (in_map snd _ _ Hin).
Qed.

(** ** The score of one answer *)

(** A well-formed text does not start in the middle of a code point. *)
Lemma first_byte_leads (b : byte) (bs : list byte) :
  utf8_valid (b :: bs) = true -> cont b = false.
Proof.
  unfold utf8_valid. simpl List.length. cbn [utf8_valid_aux]. intros H.
  assert (Hout : (byte_val b <= 127 \/ 194 <= byte_val b)%Z).
  { destruct (in_range 0 127 b) eqn:E0.
    - left. apply andb_true_iff in E0. destruct E0 as [_ E0].
      apply Z.leb_le in E0. exact E0.
    - right. destruct bs as [ | b1 r1]; [discriminate H | ].
      destruct (in_range 194 223 b) eqn:E1.
      + apply andb_true_iff in E1. destruct E1 as [E1 _].
        apply Z.leb_le in E1. exact E1.
      + destruct r1 as [ | b2 r2]; [discriminate H | ].
        destruct (in_range 224 239 b) eqn:E2.
        * apply andb_true_iff in E2. destruct E2 as [E2 _].
          apply Z.leb_le in E2. lia.
        * destruct r2 as [ | b3 r3]; [discriminate H | ].
          destruct (in_range 240 244 b) eqn:E3; [ | discriminate H].
          apply andb_true_iff in E3. destruct E3 as [E3 _].
          apply Z.leb_le in E3. lia. }
  unfold cont, in_range.
  destruct (Z.leb_spec 128 (byte_val b)), (Z.leb_spec (byte_val b) 191);
    try reflexivity.
  lia.
Qed.

(** A well-formed text that is not blank has a code point. *)
Lemma nonblank_has_code_point (response : string) :
  utf8_valid (list_byte_of_string response) = true ->
  strip response <> ""%string -> (1 <= py_len response)%nat.
Proof.
  destruct response as [ | a s];
    [intros _ H; exfalso; apply H; reflexivity | ].
  intros Hv _. unfold py_len.
  change (list_byte_of_string (String a s))
    with (byte_of_ascii a :: list_byte_of_string s) in *.
  cbn [filter]. rewrite (first_byte_leads _ _ Hv). simpl. lia.
Qed.

Lemma scored_floor (p : string -> bool) (indicators : list string)
    (response : string) :
  (1 <= py_len response)%nat ->
  1 # 100 <= scored (count_if p indicators) indicators response.
Proof.
  intros Hn. unfold scored. apply Q.min_glb; [discriminate | ].
  setoid_replace (1 # 100) with (0 + (1 # 100)) by reflexivity.
  apply Qplus_le_compat.
  - apply ratio_nonneg; [apply count_if_nonneg | apply len_nonneg].
  - apply Q.min_glb; [discriminate | ].
    apply Qle_shift_div_l; [reflexivity | ].
    setoid_replace ((1 # 100) * 100) with (inject_Z 1) by reflexivity.
    rewrite <- Zle_Qle. lia.
Qed.

(** X26: for a probed domain and a response that is a text (well-formed
    UTF-8), the score lies in the unit interval; it is 0 exactly when the
    response is empty or made of white space only -- the white space of
    [str.strip], in or outside ASCII -- and at least 0.01 otherwise, so a
    score of 0 always stands for an answer that was blank (or, in the
    caller, for a failed call). *)
Theorem score_response_zero_iff_blank (prompt response d : string) :
  In d capability_domains ->
  utf8_valid (list_byte_of_string response) = true ->
  (score_response prompt response d == 0 <-> strip response = ""%string)
  /\ (strip response <> ""%string ->
      1 # 100 <= score_response prompt response d)
  /\ score_response prompt response d <= 1.
Proof.
  intros Hd Hv.
  assert (Hfloor : strip response <> ""%string ->
                   1 # 100 <= score_response prompt response d).
  { intros Hs.
    assert (Hcases : d = "mathematics"%string \/
                     In d ["coding"; "reasoning"; "language"; "creativity";
                           "knowledge"]%string).
    { destruct Hd as [<- | Hd]; [left; reflexivity | right; exact Hd]. }
    destruct Hcases as [-> | Hother].
    - rewrite (score_response_mathematics _ _ Hs).
      apply scored_floor, nonblank_has_code_point; assumption.
    - rewrite (score_response_folded _ _ _ Hs Hother).
      apply scored_floor, nonblank_has_code_point; assumption. }
  split; [ | split; [exact Hfloor | apply score_response_unit; exact Hd]].
  split.
  - intros Hz. destruct (string_dec (strip response) "") as [Hs | Hs];
      [exact Hs | ].
    exfalso. apply Hfloor in Hs. rewrite Hz in Hs. apply Hs. reflexivity.
  - intros Hs. rewrite (score_response_blank _ _ _ Hs). reflexivity.
Qed.

(** * Instances *)

Lemma read_header_needs_20_bytes_witness :
  (exists version tensor_count kv_count,
      read_header after_magic =
        Return (version, tensor_count, kv_count)
          (mkFile (data after_magic) (pos after_magic + 20))
      /\ (0 <= version < 2 ^ 32)%Z
      /\ (0 <= tensor_count < 2 ^ 64)%Z
      /\ (0 <= kv_count < 2 ^ 64)%Z)
  /\ (exists f', read_header magic_only = Raise StructError f').
Proof.
  split.
  - apply (read_header_needs_20_bytes after_magic).
    + vm_compute. discriminate.
    + vm_compute. lia.
  - apply (read_header_needs_20_bytes magic_only).
    + vm_compute. discriminate.
    + vm_compute. lia.
Defined.

Lemma tensor_table_round_trip_witness :
  _extract_tensor_info (Z.of_nat (List.length two_descriptors)) table_stream =
    Return two_descriptors
      (mkFile (data table_stream)
         (pos table_stream
          + Z.of_nat (List.length (flat_map pack_entry two_descriptors))))
  /\ remaining
       (mkFile (data table_stream)
          (pos table_stream
           + Z.of_nat (List.length (flat_map pack_entry two_descriptors))))
     = [].
Proof.
  apply (tensor_table_round_trip two_descriptors table_stream []).
  - repeat constructor; vm_compute; try reflexivity; try discriminate;
      try (split; discriminate).
  - vm_compute. discriminate.
  - vm_compute. reflexivity.
Defined.

Lemma metadata_round_trip_witness :
  _extract_metadata (Z.of_nat (List.length three_values)) metadata_stream =
    Return
      (fold_left (fun d e => Dict.set (fst e) (py_of (snd e)) d) three_values [])
      (mkFile (data metadata_stream)
         (pos metadata_stream
          + Z.of_nat (List.length (flat_map pack_meta three_values))))
  /\ remaining
       (mkFile (data metadata_stream)
          (pos metadata_stream
           + Z.of_nat (List.length (flat_map pack_meta three_values))))
     = [].
Proof.
  apply (metadata_round_trip three_values metadata_stream []).
  - repeat constructor; vm_compute; try reflexivity; try discriminate;
      try (split; discriminate).
  - vm_compute. discriminate.
  - vm_compute. reflexivity.
Defined.

Lemma tensor_table_consumption_witness :
  (forall ts f',
      _extract_tensor_info 2 table_stream = Return ts f' ->
      List.length ts = Z.to_nat 2
      /\ Forall in_width ts
      /\ data f' = data table_stream
      /\ (pos table_stream + 24 * Z.of_nat (List.length ts) <= pos f'
          <= pos table_stream
             + Z.of_nat (List.length (remaining table_stream)))%Z)
  /\ raises (_extract_tensor_info 5 table_stream).
Proof.
  split.
  - apply (tensor_table_consumption 2 table_stream).
    vm_compute. discriminate.
  - apply (tensor_table_consumption 5 table_stream).
    + vm_compute. discriminate.
    + vm_compute. reflexivity.
Defined.

Lemma fixed_width_value_witness :
  (exists v,
      _read_metadata_value 3 int16_stream =
        Return v
          (mkFile (data int16_stream)
             (pos int16_stream + Z.of_nat (value_width 3)))
      /\ fixed_value 3 v)
  /\ (exists f', _read_metadata_value 4 int16_stream = Raise StructError f').
Proof.
  split.
  - apply (fixed_width_value 3 int16_stream).
    + lia.
    + vm_compute. lia.
  - apply (fixed_width_value 4 int16_stream).
    + lia.
    + vm_compute. lia.
Defined.

Lemma metadata_consumption_witness :
  (forall metadata f',
      _extract_metadata 3 metadata_stream = Return metadata f' ->
      NoDup (Dict.keys metadata)
      /\ (List.length metadata <= Z.to_nat 3)%nat
      /\ data f' = data metadata_stream
      /\ (pos metadata_stream + 12 * Z.of_nat (Z.to_nat 3) <= pos f'
          <= pos metadata_stream
             + Z.of_nat (List.length (remaining metadata_stream)))%Z)
  /\ raises (_extract_metadata 9 metadata_stream).
Proof.
  split.
  - apply (metadata_consumption 3 metadata_stream).
    vm_compute. discriminate.
  - apply (metadata_consumption 9 metadata_stream).
    + vm_compute. discriminate.
    + vm_compute. reflexivity.
Defined.

Lemma f32_buffer_iff_payload_present_witness :
  extract_one plain_tensor (mkFile payload 0) =
    Return (Some (mkLayer [Binary32 1; Binary32 2] [2]%Z 0)) (mkFile payload 8)
  /\ raises (extract_one plain_tensor (mkFile [] 0)).
Proof.
  split.
  - destruct (f32_buffer_iff_payload_present plain_tensor (mkFile payload 0))
      as [H _].
    + reflexivity.
    + vm_compute. split; discriminate.
    + repeat constructor; vm_compute; discriminate.
    + vm_compute. discriminate.
    + destruct H as [H _]; [vm_compute; discriminate | exact H].
  - destruct (f32_buffer_iff_payload_present plain_tensor (mkFile [] 0))
      as [_ H].
    + reflexivity.
    + vm_compute. split; discriminate.
    + repeat constructor; vm_compute; discriminate.
    + vm_compute. discriminate.
    + destruct H as [H _]; [vm_compute; reflexivity | exact H].
Defined.

Lemma f16_buffer_by_parity_witness :
  (exists values,
      extract_one half_tensor (mkFile payload 0) =
        Return (Some (mkLayer values [3]%Z 1)) (mkFile payload 6)
      /\ List.length values = 3%nat)
  /\ (exists f',
         extract_one half_tensor (mkFile (firstn 5 payload) 0) =
           Raise StructError f').
Proof.
  split.
  - destruct (f16_buffer_by_parity half_tensor (mkFile payload 0)) as [H _].
    + reflexivity.
    + vm_compute. split; discriminate.
    + repeat constructor; vm_compute; discriminate.
    + vm_compute. discriminate.
    + destruct H as (values & E & L & _); [reflexivity | ].
      exists values. split; [exact E | ].
      change (2 * List.length values = 6)%nat in L. lia.
  - destruct (f16_buffer_by_parity half_tensor (mkFile (firstn 5 payload) 0))
      as [_ H].
    + reflexivity.
    + vm_compute. split; discriminate.
    + repeat constructor; vm_compute; discriminate.
    + vm_compute. discriminate.
    + apply H. reflexivity.
Defined.

Lemma tensor_data_invariants_witness :
  NoDup
    (Dict.keys
       (fst (fst (_extract_tensor_data
                    [plain_tensor; unsupported_tensor; zero_dim_tensor]
                    (mkFile payload 0))))).
Proof.
  generalize
    (tensor_data_invariants [plain_tensor; unsupported_tensor; zero_dim_tensor]
       (mkFile payload 0)).
  destruct (_extract_tensor_data
              [plain_tensor; unsupported_tensor; zero_dim_tensor]
              (mkFile payload 0)) as [[ls log] f'].
  intros (_ & _ & H & _). exact H.
Defined.

Lemma bad_magic_rejected_witness :
  extract_gguf_weights payload =
  (mkWeights [] [], [InfoExtracting; ErrorInvalidFile]).
Proof.
  apply (bad_magic_rejected payload). vm_compute. discriminate.
Defined.

Lemma container_round_trip_witness :
  extract_gguf_weights small_container =
  (mkWeights
     (fst (fst (_extract_tensor_data [plain_tensor]
                  (mkFile small_container 112))))
     (fold_left (fun d e => Dict.set (fst e) (py_of (snd e)) d) three_values []),
   [InfoExtracting; InfoHeader 3 1 3] ++
   snd (fst (_extract_tensor_data [plain_tensor]
               (mkFile small_container 112)))).
Proof.
  apply (container_round_trip 3 three_values [plain_tensor] payload).
  - vm_compute. split; [discriminate | reflexivity].
  - repeat constructor; vm_compute; try reflexivity; try discriminate;
      try (split; discriminate).
  - repeat constructor; vm_compute; try reflexivity; try discriminate;
      try (split; discriminate).
  - vm_compute. reflexivity.
  - vm_compute. reflexivity.
Defined.

Lemma analyze_architecture_outcomes_witness :
  info_parameters (analyze_architecture unreachable_model "m") = 13000000000%Z
  /\ info_layers (analyze_architecture unreachable_model "m") = 80%Z.
Proof.
  destruct (analyze_architecture_outcomes unreachable_model "m")
    as (_ & _ & _ & _ & _ & H).
  apply H. reflexivity.
Defined.

Lemma identify_strengths_range_witness :
  Dict.keys (identify_strengths steady_model "m") =
    ["speed"; "accuracy"; "creativity"; "reasoning"; "coding"]%string
  /\ (forall v,
         In v (Dict.values (identify_strengths steady_model "m")) -> 0 <= v)
  /\ Dict.get "coding" (identify_strengths slow_coder "m") = Some 0
  /\ Dict.values (identify_strengths unreachable_model "m") = [0; 0; 0; 0; 0].
Proof.
  destruct (identify_strengths_range steady_model "m") as (K & _ & H & _).
  destruct (identify_strengths_range slow_coder "m") as (_ & _ & _ & F & _).
  destruct (identify_strengths_range unreachable_model "m")
    as (_ & _ & _ & _ & U).
  split; [exact K | split; [exact H | split]].
  - apply (F "coding"%string "def hello():"%string).
    + do 4 right. left. reflexivity.
    + reflexivity.
  - apply U. reflexivity.
Defined.

Lemma identify_weaknesses_values_witness :
  Dict.values (identify_weaknesses unreachable_model "m") = [1; 1; 1; 1; 1].
Proof.
  destruct (identify_weaknesses_values unreachable_model "m") as (_ & _ & H).
  apply H. reflexivity.
Defined.

Lemma identify_unique_features_spec_witness :
  In "code_specialization"%string
    (identify_unique_features steady_model "DeepSeek-Coder").
Proof.
  destruct (identify_unique_features_spec steady_model "DeepSeek-Coder")
    as (_ & _ & _ & _ & H).
  apply H. reflexivity.
Defined.

Lemma extract_capabilities_reported_witness :
  (forall c, In c (extract_capabilities steady_model "m") -> reported "m" c)
  /\ NoDup (map domain (extract_capabilities steady_model "m")).
Proof.
  destruct (extract_capabilities_reported steady_model "m") as (H & N & _).
  split; [exact H | exact N].
Defined.

Lemma extract_capabilities_silent_witness :
  extract_capabilities unreachable_model "m" = [].
Proof.
  apply (extract_capabilities_silent unreachable_model "m").
  intros prompt. left. reflexivity.
Defined.

Lemma dissect_model_structure_spec_witness :
  dissect_model_structure sample_dissect sample_walk (mkPath "models" "A.gguf")
  = Some sig_A.
Proof.
  destruct (dissect_model_structure_spec sample_dissect sample_walk
              (mkPath "models" "A.gguf") sig_A) as [H _].
  apply H; reflexivity.
Defined.

Lemma blueprint_needs_a_signature_witness :
  exists b, snd (analyze_dissection_results [sig_A; sig_B]) = Ok b.
Proof.
  destruct (blueprint_needs_a_signature [sig_A; sig_B]) as [_ H].
  apply H. discriminate.
Defined.

Lemma blueprint_contents_witness :
  exists b,
    snd (analyze_dissection_results [sig_A; sig_B]) = Ok b
    /\ bp_models_used b = ["A"; "B"]%string
    /\ Dict.keys (bp_fusion_weights b) = ["A"; "B"]%string.
Proof.
  destruct (snd (analyze_dissection_results [sig_A; sig_B])) as [b | e] eqn:E;
    [ | vm_compute in E; discriminate E].
  exists b. split; [reflexivity | ].
  destruct (blueprint_contents [sig_A; sig_B] b E)
    as (_ & _ & _ & Hm & _ & _ & Hf).
  split; [exact Hm | exact Hf].
Defined.

Lemma fusion_weights_are_shares_witness :
  Forall (fun nw => 0 <= snd nw /\ snd nw <= 1)
    (calculate_fusion_weights (register_signatures [sig_A; sig_B] [])).
Proof.
  apply Forall_forall. intros [n w] H.
  apply (fusion_weights_are_shares [sig_A; sig_B]) with (n := n); [ | exact H].
  intros s v [<- | [<- | []]] [<- | []]; vm_compute; discriminate.
Defined.

Lemma merge_only_files_tensors_witness :
  (forall k v,
      In (k, v) (unified_tensors (merge_extracted_weights [Some ffn_weights])) ->
      In v (map snd (input_tensors [Some ffn_weights])))
  /\ output_layers (merge_extracted_weights [Some ffn_weights]) = [].
Proof.
  destruct (merge_only_files_tensors [Some ffn_weights]) as (H & _ & O).
  split; [exact H | exact O].
Defined.

Lemma merge_lossless_without_feed_forward_witness :
  List.length (unified_tensors (merge_extracted_weights plain_weights))
  = List.length (input_tensors plain_weights).
Proof.
  destruct (merge_lossless_without_feed_forward plain_weights) as [H _].
  - intros w [E | [E | [E | []]]]; try discriminate E;
      injection E as <-; repeat constructor; simpl; intuition discriminate.
  - intros nm l H. simpl in H.
    repeat (destruct H as [H | H]; [injection H as <- <-; reflexivity | ]).
    contradiction.
  - exact H.
Defined.

Lemma score_response_zero_iff_blank_witness :
  score_response "2+2=" "   " "coding" == 0
  /\ score_response "2+2=" nbsp "coding" == 0
  /\ 1 # 100 <= score_response "2+2=" "4" "mathematics"
  /\ 1 # 100 <= score_response "2+2=" e_acute "language".
Proof.
  split; [ | split; [ | split]].
  - destruct (score_response_zero_iff_blank "2+2=" "   " "coding")
      as ([_ H] & _); [simpl; tauto | reflexivity | ].
    apply H. reflexivity.
  - destruct (score_response_zero_iff_blank "2+2=" nbsp "coding")
      as ([_ H] & _); [simpl; tauto | reflexivity | ].
    apply H. reflexivity.
  - destruct (score_response_zero_iff_blank "2+2=" "4" "mathematics")
      as (_ & H & _); [simpl; tauto | reflexivity | ].
    apply H. vm_compute. discriminate.
  - destruct (score_response_zero_iff_blank "2+2=" e_acute "language")
      as (_ & H & _); [simpl; tauto | reflexivity | ].
    apply H. vm_compute. discriminate.
Defined.
